(** * skypeparser: configuration and archive reading, verified

    A shallow embedding of [src/utils/config.py] and
    [src/utils/file_handler.py].  Python values are an inductive type,
    dictionaries are insertion-ordered association lists, exceptions are
    an explicit outcome type, the module-level [DEFAULT_CONFIG] lives in
    an object store, and the tar archive, the byte stream and standard
    input are explicit states. *)

From stdpp Require Import base option list strings gmap.
From Stdlib Require Import ZArith Lia Ascii String Strings.Byte.

Set Warnings "-register-all".

Local Open Scope string_scope.
Local Open Scope Z_scope.

(** ** Python values, exceptions and outcomes *)

(** The values [json.load] produces, which are also the values a
    configuration holds.  A float is kept as its literal. *)
Inductive value : Type :=
  | VNone
  | VBool (b : bool)
  | VInt (z : Z)
  | VFloat (literal : string)
  | VStr (s : string)
  | VList (items : list value)
  | VDict (entries : list (string * value)).

(** The exceptions the two modules raise or let through.
    [PathSafetyError] is the error the specification names for path
    traversal; [LibError] is an error of a collaborator (operating
    system, tar library) identified by its class name. *)
Inductive exn : Type :=
  | IndexError
  | KeyError
  | ValueError
  | TypeError
  | AttributeError
  | ReadError
  | FileNotFoundError
  | JSONDecodeError
  | UnicodeDecodeError
  | EOFError
  | PathSafetyError
  | LibError (cls : string).

Inductive outcome (A : Type) : Type :=
  | Ret (a : A)
  | Raise (e : exn).
Arguments Ret {A} a.
Arguments Raise {A} e.

#[global] Instance outcome_ret : MRet outcome := fun A a => Ret a.

#[global] Instance outcome_bind : MBind outcome := fun A B k m =>
  match m with
  | Ret a => k a
  | Raise e => Raise e
  end.

Definition returns {A : Type} (m : outcome A) : Prop := exists a, m = Ret a.

(** Truthiness of a string in a condition: [if s:]. *)
Definition str_truthy (s : string) : bool :=
  match s with
  | EmptyString => false
  | String _ _ => true
  end.

(** ** Regular expressions: [re.compile(p).match]

    A compiled pattern is a regular expression over the characters of
    the name.  [.] is every character but the line feed.  [match]
    anchors at the start of the string and not at its end: it succeeds
    when some prefix of the string belongs to the language. *)
Inductive regex : Type :=
  | Eps
  | Chr (c : ascii)
  | Dot
  | Cat (r1 r2 : regex)
  | Alt (r1 r2 : regex)
  | Star (r : regex).

Definition newline : ascii := "010"%char.

Fixpoint nullable (r : regex) : bool :=
  match r with
  | Eps => true
  | Chr _ => false
  | Dot => false
  | Cat r1 r2 => nullable r1 && nullable r2
  | Alt r1 r2 => nullable r1 || nullable r2
  | Star _ => true
  end.

(** [None] is the empty language, so that a derivative stays small. *)
Definition cat_opt (o : option regex) (r2 : regex) : option regex :=
  match o with
  | Some r1 => Some (Cat r1 r2)
  | None => None
  end.

Definition alt_opt (o1 o2 : option regex) : option regex :=
  match o1, o2 with
  | Some r1, Some r2 => Some (Alt r1 r2)
  | Some r1, None => Some r1
  | None, o => o
  end.

Fixpoint deriv (c : ascii) (r : regex) : option regex :=
  match r with
  | Eps => None
  | Chr c' => if Ascii.eqb c c' then Some Eps else None
  | Dot => if Ascii.eqb c newline then None else Some Eps
  | Cat r1 r2 =>
      alt_opt (cat_opt (deriv c r1) r2)
              (if nullable r1 then deriv c r2 else None)
  | Alt r1 r2 => alt_opt (deriv c r1) (deriv c r2)
  | Star r1 => cat_opt (deriv c r1) (Star r1)
  end.

(** [pattern.match(s)] as a truth value. *)
Fixpoint re_match (r : regex) (s : string) : bool :=
  nullable r ||
  match s with
  | EmptyString => false
  | String c s' =>
      match deriv c r with
      | Some r' => re_match r' s'
      | None => false
      end
  end.

(** The literal pattern for a string of characters. *)
Fixpoint lit (s : string) : regex :=
  match s with
  | EmptyString => Eps
  | String c s' => Cat (Chr c) (lit s')
  end.

(** [re.compile(r'.*\.json')] of [read_tarfile]. *)
Definition json_pattern : regex := Cat (Star Dot) (lit ".json").

(** What the comment of [read_tarfile] and the specification ask for:
    the name ends with the extension. *)
Fixpoint ends_with (suffix s : string) : bool :=
  String.eqb s suffix ||
  match s with
  | EmptyString => false
  | String _ s' => ends_with suffix s'
  end.

Example re_match_plain : re_match json_pattern "messages.json" = true.
Proof. reflexivity. Qed.

Example re_match_other : re_match json_pattern "messages.txt" = false.
Proof. reflexivity. Qed.

(** ** Text helpers *)

(** [s.rstrip('/')], which [TarFile.getmember] applies to its argument. *)
Fixpoint rstrip_slash (s : string) : string :=
  match s with
  | EmptyString => EmptyString
  | String c s' =>
      let t := rstrip_slash s' in
      if Ascii.eqb c "/" && negb (str_truthy t) then EmptyString else String c t
  end.

(** The white space [int] skips around a number: space, tab, line
    feed, vertical tab, form feed and carriage return. *)
Definition is_space (c : ascii) : bool :=
  let n := nat_of_ascii c in
  ((9 <=? n) && (n <=? 13) || (n =? 32))%nat.

Fixpoint lstrip (s : string) : string :=
  match s with
  | EmptyString => EmptyString
  | String c s' => if is_space c then lstrip s' else s
  end.

Fixpoint rstrip (s : string) : string :=
  match s with
  | EmptyString => EmptyString
  | String c s' =>
      let t := rstrip s' in
      if is_space c && negb (str_truthy t) then EmptyString else String c t
  end.

Definition strip (s : string) : string := rstrip (lstrip s).

Definition digit_val (c : ascii) : option Z :=
  let n := Z.of_nat (nat_of_ascii c) in
  if (48 <=? n) && (n <=? 57) then Some (n - 48) else None.

(** The digits of an integer literal, a single underscore allowed
    between two digits. *)
Fixpoint int_digits (s : string) (acc : Z) (after_digit : bool) : option Z :=
  match s with
  | EmptyString => if after_digit then Some acc else None
  | String c s' =>
      match digit_val c with
      | Some d => int_digits s' (10 * acc + d) true
      | None =>
          if Ascii.eqb c "_" && after_digit then int_digits s' acc false else None
      end
  end.

(** The integer an ASCII literal writes, in base ten: white space
    around, an optional sign, the digits.  [None] is no literal. *)
Definition int_literal (s : string) : option Z :=
  match strip s with
  | EmptyString => None
  | String c r as t =>
      if Ascii.eqb c "-" then Z.opp <$> int_digits r 0 false
      else if Ascii.eqb c "+" then int_digits r 0 false
      else int_digits t 0 false
  end.

(** The number of digits in a literal, which the interpreter's limit
    on conversions is about: underscores, sign and white space do not
    count, leading zeros do. *)
Fixpoint digit_count (s : string) : nat :=
  match s with
  | EmptyString => O
  | String c s' =>
      (if bool_decide (is_Some (digit_val c)) then 1 else 0)%nat + digit_count s'
  end.

(** A decimal numeral: one or more digits, and the number it writes. *)
Fixpoint all_digits (s : string) : bool :=
  match s with
  | EmptyString => true
  | String c s' => bool_decide (is_Some (digit_val c)) && all_digits s'
  end.

Definition is_numeral (s : string) : bool := str_truthy s && all_digits s.

Fixpoint numeral_value (s : string) (acc : Z) : Z :=
  match s with
  | EmptyString => acc
  | String c s' => numeral_value s' (10 * acc + default 0 (digit_val c))
  end.

(** [s.lower()], on the ASCII letters. *)
Definition lower_ascii (c : ascii) : ascii :=
  let n := nat_of_ascii c in
  if ((65 <=? n) && (n <=? 90))%nat then ascii_of_nat (n + 32) else c.

Fixpoint lower (s : string) : string :=
  match s with
  | EmptyString => EmptyString
  | String c s' => String (lower_ascii c) (lower s')
  end.

(** ** Bytes and UTF-8

    [str] is kept as its UTF-8 bytes, so [bytes.decode('utf-8')] is the
    check that the bytes are well-formed UTF-8. *)
Definition byte_in (lo hi : N) (b : byte) : bool :=
  ((lo <=? Byte.to_N b) && (Byte.to_N b <=? hi))%N.

Definition continuation (b : byte) : bool := byte_in 128 191 b.

Definition second_of_three (b1 b2 : byte) : bool :=
  if byte_in 224 224 b1 then byte_in 160 191 b2
  else if byte_in 237 237 b1 then byte_in 128 159 b2
  else continuation b2.

Definition second_of_four (b1 b2 : byte) : bool :=
  if byte_in 240 240 b1 then byte_in 144 191 b2
  else if byte_in 244 244 b1 then byte_in 128 143 b2
  else continuation b2.

Fixpoint utf8_valid (bs : list byte) : bool :=
  match bs with
  | [] => true
  | b1 :: r1 =>
      if byte_in 0 127 b1 then utf8_valid r1
      else
        match r1 with
        | [] => false
        | b2 :: r2 =>
            if byte_in 194 223 b1 then continuation b2 && utf8_valid r2
            else
              match r2 with
              | [] => false
              | b3 :: r3 =>
                  if byte_in 224 239 b1
                  then second_of_three b1 b2 && continuation b3 && utf8_valid r3
                  else
                    match r3 with
                    | [] => false
                    | b4 :: r4 =>
                        byte_in 240 244 b1 && second_of_four b1 b2
                        && continuation b3 && continuation b4 && utf8_valid r4
                    end
              end
        end
  end.

Definition decode_utf8 (bs : list byte) : outcome string :=
  if utf8_valid bs then Ret (string_of_list_byte bs) else Raise UnicodeDecodeError.

Definition encode_utf8 (s : string) : list byte := list_byte_of_string s.

(** The characters of a string, as code points.  [None] is a string
    whose bytes are not UTF-8: the text of an environment variable or
    of a line typed with such bytes holds escaped characters, which
    are no digits and no white space. *)
Fixpoint code_points (bs : list byte) : option (list N) :=
  match bs with
  | [] => Some []
  | b1 :: r1 =>
      if byte_in 0 127 b1 then cons (Byte.to_N b1) <$> code_points r1
      else
        match r1 with
        | [] => None
        | b2 :: r2 =>
            if byte_in 194 223 b1 then
              if continuation b2
              then cons ((Byte.to_N b1 - 192) * 64 + (Byte.to_N b2 - 128))%N
                     <$> code_points r2
              else None
            else
              match r2 with
              | [] => None
              | b3 :: r3 =>
                  if byte_in 224 239 b1 then
                    if second_of_three b1 b2 && continuation b3
                    then cons ((Byte.to_N b1 - 224) * 4096
                               + (Byte.to_N b2 - 128) * 64
                               + (Byte.to_N b3 - 128))%N
                           <$> code_points r3
                    else None
                  else
                    match r3 with
                    | [] => None
                    | b4 :: r4 =>
                        if byte_in 240 244 b1 && second_of_four b1 b2
                           && continuation b3 && continuation b4
                        then cons ((Byte.to_N b1 - 240) * 262144
                                   + (Byte.to_N b2 - 128) * 4096
                                   + (Byte.to_N b3 - 128) * 64
                                   + (Byte.to_N b4 - 128))%N
                               <$> code_points r4
                        else None
                    end
              end
        end
  end.

(** ** The interpreter

    What [int] makes of a string is decided in part by the interpreter
    that runs the program, not by the program:
    - the limit on the number of digits of a conversion,
      [sys.get_int_max_str_digits()]: 4300 when the interpreter starts
      with no option, [0] for no limit.  A literal of 640 digits or
      fewer is never refused;
    - the Unicode database: which characters beyond ASCII are decimal
      digits, with their value, and which are white space. *)
Class Interpreter : Type := {
  int_max_str_digits : nat;
  unicode_decimal : N -> option N;
  unicode_isspace : N -> bool
}.

Section WithInterpreter.

Context {py : Interpreter}.

(** The first step of [int(s)]: a character beyond ASCII that is white
    space becomes a space, one that is a decimal digit becomes the
    ASCII digit of its value; any other one makes the string an
    invalid literal ([None]). *)
Fixpoint ascii_digits_and_spaces (cps : list N) : option string :=
  match cps with
  | [] => Some EmptyString
  | cp :: rest =>
      c ← (if (cp <? 128)%N then Some (ascii_of_N cp)
           else if unicode_isspace cp then Some " "%char
           else (fun d => ascii_of_N (48 + d)) <$> unicode_decimal cp);
      String c <$> ascii_digits_and_spaces rest
  end.

Definition within_digit_limit (digits : nat) : bool :=
  ((digits <=? 640) || (int_max_str_digits =? 0)
   || (digits <=? int_max_str_digits))%nat.

(** [int(s)] for a string.  [None] is [ValueError]: an invalid
    literal, or more digits than the interpreter converts. *)
Definition int_of_str (s : string) : option Z :=
  text ← code_points (list_byte_of_string s) ≫= ascii_digits_and_spaces;
  if within_digit_limit (digit_count text) then int_literal text else None.

(** ** Byte streams: the [BinaryIO] argument of [read_file_object]

    A stream is a shared object with a position; [seek] and [read]
    move it, so both return the stream they leave behind. *)
Inductive payload : Type :=
  | PBytes (bs : list byte)
  | PText (s : string).

Record stream : Type := {
  content : payload;
  position : nat;
  seekable : bool
}.

Fixpoint string_drop (n : nat) (s : string) : string :=
  match n, s with
  | O, _ => s
  | S n', String _ s' => string_drop n' s'
  | S _, EmptyString => EmptyString
  end.

Definition payload_length (p : payload) : nat :=
  match p with
  | PBytes bs => List.length bs
  | PText s => String.length s
  end.

Definition payload_drop (n : nat) (p : payload) : payload :=
  match p with
  | PBytes bs => PBytes (drop n bs)
  | PText s => PText (string_drop n s)
  end.

(** [file_obj.seek(0)] *)
Definition seek_start (f : stream) : outcome unit * stream :=
  if seekable f
  then (Ret tt, {| content := content f; position := 0; seekable := seekable f |})
  else (Raise (LibError "UnsupportedOperation"), f).

(** [file_obj.read()]: everything from the position to the end. *)
Definition read_rest (f : stream) : payload * stream :=
  (payload_drop (position f) (content f),
   {| content := content f;
      position := Nat.max (position f) (payload_length (content f));
      seekable := seekable f |}).

(** ** Tar archives *)

(** A member: its name, and its bytes when [extractfile] can open it
    (a regular file); [extractfile] returns [None] for the others. *)
Record TarInfo : Type := {
  name : string;
  data : option (list byte)
}.

(** What is at a path of the file system, as [tarfile.open] sees it. *)
Inductive disk_file : Type :=
  | NotTar
  | IsTar (members : list TarInfo).

Definition tarfile_open (fs : gmap string disk_file) (filename : string)
  : outcome (list TarInfo) :=
  match fs !! filename with
  | None => Raise FileNotFoundError
  | Some NotTar => Raise ReadError
  | Some (IsTar members) => Ret members
  end.

Definition getnames (tar : list TarInfo) : list string := map name tar.

(** [tar.getmember(n)]: the last member of that name. *)
Definition getmember (tar : list TarInfo) (n : string) : outcome TarInfo :=
  match List.find (fun m => String.eqb (name m) (rstrip_slash n)) (rev tar) with
  | Some m => Ret m
  | None => Raise KeyError
  end.

(** [os.path.join(a, b)] on POSIX paths. *)
Fixpoint ends_with_slash (s : string) : bool :=
  match s with
  | EmptyString => false
  | String c EmptyString => Ascii.eqb c "/"
  | String _ s' => ends_with_slash s'
  end.

Definition path_join (a b : string) : string :=
  if match b with String c _ => Ascii.eqb c "/" | EmptyString => false end then b
  else if negb (str_truthy a) || ends_with_slash a then a +:+ b
  else a +:+ "/" +:+ b.

(** A path segment equal to [..]: what a traversal name contains. *)
Fixpoint segments_from (cur : string) (s : string) : list string :=
  match s with
  | EmptyString => [cur]
  | String c s' =>
      if Ascii.eqb c "/" then cur :: segments_from EmptyString s'
      else segments_from (cur +:+ String c EmptyString) s'
  end.

Definition has_dotdot (n : string) : bool :=
  existsb (String.eqb "..") (segments_from EmptyString n).

(** ** [read_tarfile] *)

(** The members [read_tarfile] keeps: [filter(pattern.match, tar.getnames())]. *)
Definition json_candidates (tar : list TarInfo) : list string :=
  List.filter (re_match json_pattern) (getnames tar).

(** The JSON members in the words of the specification, which are
    those of the comment in [read_tarfile]: the members whose name
    ends with [.json], in listing order.  [read_tarfile] does not
    compute this; it is what [json_candidates] is compared with. *)
Definition spec_json_members (tar : list TarInfo) : list TarInfo :=
  List.filter (fun m => ends_with ".json" (name m)) tar.

(** The interactive loop: [input()] until a number in range is typed.
    Standard input is the list of lines still to be read; at its end
    [input] raises [EOFError]. *)
Fixpoint prompt_selection (n : nat) (stdin : list string) : outcome Z * list string :=
  match stdin with
  | [] => (Raise EOFError, [])
  | selection :: rest =>
      match int_of_str selection with
      | Some z =>
          let selected_index := z - 1 in
          if (0 <=? selected_index) && (selected_index <? Z.of_nat n)
          then (Ret selected_index, rest)
          else prompt_selection n rest
      | None => prompt_selection n rest
      end
  end.

(** The index chosen among the candidates (lines 113-136). *)
Definition selected_index (tar_files : list string) (select_json : option Z)
    (auto_select : bool) (stdin : list string) : outcome Z * list string :=
  if (1 <? List.length tar_files)%nat then
    match select_json with
    | Some i =>
        if (0 <=? i) && (i <? Z.of_nat (List.length tar_files)) then (Ret i, stdin)
        else if auto_select then (Ret 0, stdin)
        else prompt_selection (List.length tar_files) stdin
    | None =>
        if auto_select then (Ret 0, stdin)
        else prompt_selection (List.length tar_files) stdin
    end
  else (Ret 0, stdin).

(** [tar_files[i]] for an index that is not negative. *)
Definition nth_name (tar_files : list string) (i : Z) : outcome string :=
  match tar_files !! Z.to_nat i with
  | Some n => Ret n
  | None => Raise IndexError
  end.

(** The name of the member [read_tarfile] reads. *)
Definition selected_name (tar : list TarInfo) (select_json : option Z)
    (auto_select : bool) (stdin : list string) : outcome string * list string :=
  let tar_files := json_candidates tar in
  match tar_files with
  | [] => (Raise IndexError, stdin)
  | _ :: _ =>
      let '(sel, stdin') := selected_index tar_files select_json auto_select stdin in
      (i ← sel; nth_name tar_files i, stdin')
  end.

Section FileHandler.

(** [json.loads] of the standard library; [None] is [JSONDecodeError]. *)
Variable json_loads : string -> option value.

Definition loads (text : string) : outcome value :=
  match json_loads text with
  | Some v => Ret v
  | None => Raise JSONDecodeError
  end.

(** [read_file_object(file_obj)]; the handlers log and raise again. *)
Definition read_file_object (file_obj : stream) : outcome value * stream :=
  match seek_start file_obj with
  | (Raise e, f1) => (Raise e, f1)
  | (Ret _, f1) =>
      let '(content, f2) := read_rest f1 in
      (text ← match content with
              | PBytes bs => decode_utf8 bs
              | PText s => Ret s
              end;
       loads text, f2)
  end.

(** [read_tarfile(filename, select_json, auto_select)]; the second
    component is what is left of standard input. *)
Definition read_tarfile (fs : gmap string disk_file) (filename : string)
    (select_json : option Z) (auto_select : bool) (stdin : list string)
  : outcome value * list string :=
  match tarfile_open fs filename with
  | Raise e => (Raise e, stdin)
  | Ret tar =>
      let '(sel, stdin') := selected_name tar select_json auto_select stdin in
      (n ← sel;
       member ← getmember tar n;
       match data member with
       | None => Raise KeyError
       | Some bs => text ← decode_utf8 bs; loads text
       end, stdin')
  end.

End FileHandler.

(** ** [extract_tar_contents] and [list_tar_contents] *)

(** What the function asks of the operating system and of the tar
    library, in order. *)
Inductive effect : Type :=
  | Makedirs (path : string)
  | ExtractAll (path : string) (members : list TarInfo).

Definition filter_members (file_pattern : option regex) (members : list TarInfo)
  : list TarInfo :=
  match file_pattern with
  | Some pattern => List.filter (fun m => re_match pattern (name m)) members
  | None => members
  end.

Section Extraction.

(** The collaborators: [os.makedirs(d, exist_ok=True)] and
    [tar.extractall(path, members)]; [Some cls] is the class of the
    exception they raise. *)
Variable os_makedirs : string -> option string.
Variable tar_extractall : string -> list TarInfo -> option string.

Definition extract_tar_contents (fs : gmap string disk_file) (tar_filename : string)
    (output_dir : option string) (file_pattern : option regex)
  : outcome (list string) * list effect :=
  match tarfile_open fs tar_filename with
  | Raise e => (Raise e, [])
  | Ret tar =>
      let members := filter_members file_pattern tar in
      match output_dir with
      | Some (String c d as dir) =>
          match os_makedirs dir with
          | Some cls => (Raise (LibError cls), [Makedirs dir])
          | None =>
              match tar_extractall dir members with
              | Some cls =>
                  (Raise (LibError cls), [Makedirs dir; ExtractAll dir members])
              | None =>
                  (Ret (map (fun m => path_join dir (name m)) members),
                   [Makedirs dir; ExtractAll dir members])
              end
          end
      | _ => (Ret (map name members), [])
      end
  end.

End Extraction.

Definition list_tar_contents (fs : gmap string disk_file) (tar_filename : string)
    (file_pattern : option regex) : outcome (list string) :=
  tar ← tarfile_open fs tar_filename;
  Ret (match file_pattern with
       | Some pattern => List.filter (re_match pattern) (getnames tar)
       | None => getnames tar
       end).

(** ** Dictionaries

    A [dict] keeps its keys in insertion order: writing an existing key
    keeps its place, writing a new key appends it.  The same operations
    serve the configuration values and the objects of the store. *)
Fixpoint dict_get {V : Type} (d : list (string * V)) (k : string) : option V :=
  match d with
  | [] => None
  | (k', v) :: rest => if String.eqb k' k then Some v else dict_get rest k
  end.

Fixpoint dict_set {V : Type} (d : list (string * V)) (k : string) (v : V)
  : list (string * V) :=
  match d with
  | [] => [(k, v)]
  | (k', v') :: rest =>
      if String.eqb k' k then (k', v) :: rest else (k', v') :: dict_set rest k v
  end.

Definition dict_has {V : Type} (d : list (string * V)) (k : string) : bool :=
  bool_decide (is_Some (dict_get d k)).

(** ** [str.format(message_type=arg)] *)

(** A character that starts an index, a conversion, a format
    specification or an attribute inside a replacement field. *)
Definition field_special (c : ascii) : bool :=
  Ascii.eqb c "[" || Ascii.eqb c "!" || Ascii.eqb c ":" || Ascii.eqb c ".".

(** A field name with such a character is looked up as a keyword. *)
Fixpoint has_ascii_nondigit (s : string) : bool :=
  match s with
  | EmptyString => false
  | String c s' =>
      ((nat_of_ascii c <? 128)%nat && negb (bool_decide (is_Some (digit_val c))))
      || has_ascii_nondigit s'
  end.

Section Format.

(** Replacement fields outside the fragment modelled here (an index,
    a conversion, a format specification, an attribute, a positional
    number): [format_other field_and_rest arg] stands for what
    [str.format] makes of the template from that field on. *)
Variable format_other : string -> string -> outcome string.

Fixpoint format_text (tpl arg : string) {struct tpl} : outcome string :=
  match tpl with
  | EmptyString => Ret EmptyString
  | String c rest =>
      if Ascii.eqb c "{" then
        match rest with
        | EmptyString => Raise ValueError
        | String c' rest' =>
            if Ascii.eqb c' "{"
            then s ← format_text rest' arg; Ret (String "{" s)
            else format_field rest rest EmptyString arg
        end
      else if Ascii.eqb c "}" then
        match rest with
        | EmptyString => Raise ValueError
        | String c' rest' =>
            if Ascii.eqb c' "}"
            then s ← format_text rest' arg; Ret (String "}" s)
            else Raise ValueError
        end
      else s ← format_text rest arg; Ret (String c s)
  end
with format_field (start tpl field_name arg : string) {struct tpl} : outcome string :=
  match tpl with
  | EmptyString => Raise ValueError
  | String c rest =>
      if Ascii.eqb c "}" then
        if String.eqb field_name "message_type"
        then s ← format_text rest arg; Ret (arg +:+ s)
        else if negb (str_truthy field_name) then Raise IndexError
        else if has_ascii_nondigit field_name then Raise KeyError
        else format_other start arg
      else if Ascii.eqb c "{" then Raise ValueError
      else if field_special c then format_other start arg
      else format_field start rest (field_name +:+ String c EmptyString) arg
  end.

(** [default_format.format(message_type=msg_type)] *)
Definition format (default_format msg_type : string) : outcome string :=
  format_text default_format msg_type.

(** ** [config.py] *)

(** [get_message_type_description(config, msg_type)]; [msg_type] is
    [None] or a string.  The default of [dict.get] is an argument, so
    the format is evaluated whether or not the type is in the table. *)
Definition get_message_type_description (config : value) (msg_type : option string)
  : outcome value :=
  match msg_type with
  | None => Ret (VStr "Unknown message type")
  | Some EmptyString => Ret (VStr "Unknown message type")
  | Some t =>
      match config with
      | VDict cfg =>
          let message_types := default (VDict []) (dict_get cfg "message_types") in
          let default_format :=
            default (VStr "***Sent a {message_type}***")
                    (dict_get cfg "default_message_format") in
          match message_types with
          | VDict table =>
              match default_format with
              | VStr f =>
                  fallback ← format f t;
                  Ret (default (VStr fallback) (dict_get table t))
              | _ => Raise AttributeError
              end
          | _ => Raise AttributeError
          end
      | _ => Raise AttributeError
      end
  end.

End Format.

Definition DEFAULT_MESSAGE_TYPES : list (string * value) :=
  [ ("Event/Call", VStr "***A call started/ended***");
    ("Poll", VStr "***Created a poll***");
    ("RichText/Media_Album", VStr "***Sent an album of images***");
    ("RichText/Media_AudioMsg", VStr "***Sent a voice message***");
    ("RichText/Media_CallRecording", VStr "***Sent a call recording***");
    ("RichText/Media_Card", VStr "***Sent a media card***");
    ("RichText/Media_FlikMsg", VStr "***Sent a moji***");
    ("RichText/Media_GenericFile", VStr "***Sent a file***");
    ("RichText/Media_Video", VStr "***Sent a video message***");
    ("RichText/UriObject", VStr "***Sent a photo***");
    ("RichText/ScheduledCallInvite", VStr "***Scheduled a call***");
    ("RichText/Location", VStr "***Sent a location***");
    ("RichText/Contacts", VStr "***Sent a contact***") ].

Definition DEFAULT_MESSAGE_FORMAT : string := "***Sent a {message_type}***".

Definition DEFAULT_CONFIG : list (string * value) :=
  [ ("database", VDict
       [ ("host", VStr "localhost");
         ("port", VInt 5432);
         ("dbname", VStr "skype_archive");
         ("user", VStr "postgres");
         ("password", VStr "") ]);
    ("output", VDict
       [ ("directory", VStr "output");
         ("overwrite", VBool false) ]);
    ("logging", VDict
       [ ("level", VStr "INFO");
         ("file", VNone) ]);
    ("message_types", VDict DEFAULT_MESSAGE_TYPES);
    ("default_message_format", VStr DEFAULT_MESSAGE_FORMAT) ].

(** One turn of the loop of [_deep_update], given what the recursive
    call does to a nested target. *)
Definition update_entry (recurse : value -> list (string * value) -> list (string * value))
    (target : list (string * value)) (key : string) (val : value)
  : list (string * value) :=
  match dict_get target key, val with
  | Some (VDict sub), VDict _ => dict_set target key (VDict (recurse val sub))
  | _, _ => dict_set target key val
  end.

(** [_deep_update(target, source)] for [source = VDict ...]; the target
    after the call. *)
Fixpoint deep_update_from (source : value) (target : list (string * value))
  : list (string * value) :=
  match source with
  | VDict items =>
      (fix loop (items : list (string * value)) (target : list (string * value)) :=
         match items with
         | [] => target
         | (key, val) :: rest => loop rest (update_entry deep_update_from target key val)
         end) items target
  | _ => target
  end.

Definition _deep_update (target source : list (string * value)) : list (string * value) :=
  deep_update_from (VDict source) target.

(** ** [load_config] on values *)

(** What is at the path of a JSON file: nothing ([os.path.exists] is
    false, the key is absent), a file that [open] or [json.load]
    refuses, or a file [json.load] reads. *)
Inductive json_file : Type :=
  | Unreadable
  | Loaded (v : value).

(** The outcome of [if path and os.path.exists(path): try: json.load]:
    the loaded value, or [None] when the branch is skipped or its
    exception is caught. *)
Definition load_json (files : gmap string json_file) (path : option string)
  : option value :=
  match path with
  | Some (String _ _ as p) =>
      match files !! p with
      | Some (Loaded v) => Some v
      | _ => None
      end
  | _ => None
  end.

(** [os.getenv(var)] in a condition: set, and not empty. *)
Definition getenv_truthy (env : gmap string string) (var : string) : option string :=
  match env !! var with
  | Some s => if str_truthy s then Some s else None
  | None => None
  end.

(** [config[section][key] = v] *)
Definition set_nested (config : list (string * value)) (section key : string) (v : value)
  : outcome (list (string * value)) :=
  match dict_get config section with
  | None => Raise KeyError
  | Some (VDict d) => Ret (dict_set config section (VDict (dict_set d key v)))
  | Some _ => Raise TypeError
  end.

(** [if os.getenv(var): config[section][key] = conv(os.getenv(var))] *)
Definition env_override (env : gmap string string) (var section key : string)
    (conv : string -> outcome value) (config : list (string * value))
  : outcome (list (string * value)) :=
  match getenv_truthy env var with
  | Some s => v ← conv s; set_nested config section key v
  | None => Ret config
  end.

Definition as_str (s : string) : outcome value := Ret (VStr s).

Definition as_int (s : string) : outcome value :=
  match int_of_str s with
  | Some z => Ret (VInt z)
  | None => Raise ValueError
  end.

Definition as_flag (s : string) : outcome value :=
  Ret (VBool (bool_decide (lower s ∈ ["true"; "yes"; "1"]))).

(** Lines 66-74: the main configuration file. *)
Definition merge_config_file (config : list (string * value)) (loaded : option value)
  : list (string * value) :=
  match loaded with
  | Some (VDict file_config) => _deep_update config file_config
  | _ => config
  end.

(** Lines 77-88: the message types file. *)
Definition merge_message_types (config : list (string * value)) (loaded : option value)
  : list (string * value) :=
  match loaded with
  | Some (VDict message_types_config) =>
      let config :=
        match dict_get message_types_config "message_types" with
        | Some v => dict_set config "message_types" v
        | None => config
        end in
      match dict_get message_types_config "default_message_format" with
      | Some v => dict_set config "default_message_format" v
      | None => config
      end
  | _ => config
  end.

(** Lines 90-113: the environment. *)
Definition apply_environment (env : gmap string string) (config : list (string * value))
  : outcome (list (string * value)) :=
  config ← env_override env "POSTGRES_HOST" "database" "host" as_str config;
  config ← env_override env "POSTGRES_PORT" "database" "port" as_int config;
  config ← env_override env "POSTGRES_DB" "database" "dbname" as_str config;
  config ← env_override env "POSTGRES_USER" "database" "user" as_str config;
  config ← env_override env "POSTGRES_PASSWORD" "database" "password" as_str config;
  config ← env_override env "OUTPUT_DIR" "output" "directory" as_str config;
  config ← env_override env "OUTPUT_OVERWRITE" "output" "overwrite" as_flag config;
  config ← env_override env "LOG_LEVEL" "logging" "level" as_str config;
  env_override env "LOG_FILE" "logging" "file" as_str config.

(** [load_config(config_file, message_types_file)], as a function of the
    files and of the environment it reads. *)
Definition load_config (files : gmap string json_file) (env : gmap string string)
    (config_file message_types_file : option string)
  : outcome (list (string * value)) :=
  let config := DEFAULT_CONFIG in
  let config := merge_config_file config (load_json files config_file) in
  let config := merge_message_types config (load_json files message_types_file) in
  apply_environment env config.

(** [config[section][key]] *)
Definition get_nested (config : list (string * value)) (section key : string)
  : option value :=
  match dict_get config section with
  | Some (VDict d) => dict_get d key
  | _ => None
  end.

(** ** [load_config] on the object store

    [DEFAULT_CONFIG] is a module-level dictionary whose sections are
    dictionaries of their own: objects with an address, which an
    assignment through any reference changes for every holder.  An
    entry of an object is a reference to another dictionary object, or
    a value that nothing else refers to (a string, a number, what
    [json.load] built for this call). *)
Inductive hval : Type :=
  | HVal (v : value)
  | HRef (addr : nat).

(** The address of [DEFAULT_CONFIG]. *)
Definition DEFAULT_CONFIG_ADDR : nat := 0%nat.

(** [d = {...}] at module level: a dictionary literal makes one object
    for each nested dictionary, then the object itself. *)
Fixpoint store_entries (entries : list (string * value))
    (h : gmap nat (list (string * hval)))
  : list (string * hval) * gmap nat (list (string * hval)) :=
  match entries with
  | [] => ([], h)
  | (k, VDict sub) :: rest =>
      let addr := fresh (dom h) in
      let '(obj, h') :=
        store_entries rest (<[addr := map (fun kv => (kv.1, HVal kv.2)) sub]> h) in
      ((k, HRef addr) :: obj, h')
  | (k, v) :: rest =>
      let '(obj, h') := store_entries rest h in
      ((k, HVal v) :: obj, h')
  end.

(** The store once [config.py] is imported. *)
Definition module_store : gmap nat (list (string * hval)) :=
  let '(obj, h) := store_entries DEFAULT_CONFIG {[ DEFAULT_CONFIG_ADDR := [] ]} in
  <[DEFAULT_CONFIG_ADDR := obj]> h.

(** The entries of a dictionary, copied one after the other with
    [copy]; the store is threaded through. *)
Fixpoint copy_entries
    (copy : gmap nat (list (string * hval)) -> hval ->
            option (hval * gmap nat (list (string * hval))))
    (entries : list (string * hval)) (h : gmap nat (list (string * hval)))
  : option (list (string * hval) * gmap nat (list (string * hval))) :=
  match entries with
  | [] => Some ([], h)
  | (k, x) :: rest =>
      match copy h x with
      | None => None
      | Some (y, h1) =>
          match copy_entries copy rest h1 with
          | None => None
          | Some (ys, h2) => Some ((k, y) :: ys, h2)
          end
      end
  end.

(** [copy.deepcopy(x)]: a new object for every dictionary object
    reached from [x].  The budget bounds the depth of the walk; [None]
    is a graph too deep for it. *)
Fixpoint deepcopy (budget : nat) (h : gmap nat (list (string * hval))) (x : hval)
  : option (hval * gmap nat (list (string * hval))) :=
  match x with
  | HVal v => Some (HVal v, h)
  | HRef addr =>
      match budget with
      | O => None
      | S budget' =>
          match h !! addr with
          | None => None
          | Some obj =>
              match copy_entries (deepcopy budget') obj h with
              | None => None
              | Some (obj', h') =>
                  let addr' := fresh (dom h') in
                  Some (HRef addr', <[addr' := obj']> h')
              end
          end
      end
  end.

Fixpoint reify_entries (read : hval -> option value) (obj : list (string * hval))
  : option (list (string * value)) :=
  match obj with
  | [] => Some []
  | (k, x) :: rest =>
      match read x, reify_entries read rest with
      | Some v, Some vs => Some ((k, v) :: vs)
      | _, _ => None
      end
  end.

(** The value an entry stands for, read out of the store. *)
Fixpoint reify (budget : nat) (h : gmap nat (list (string * hval))) (x : hval)
  : option value :=
  match x with
  | HVal v => Some v
  | HRef addr =>
      match budget with
      | O => None
      | S budget' =>
          match h !! addr with
          | None => None
          | Some obj => VDict <$> reify_entries (reify budget' h) obj
          end
      end
  end.

(** [target[key] = v] on the object at [target]. *)
Definition store_item (target : nat) (key : string) (v : hval)
    (h : gmap nat (list (string * hval))) : gmap nat (list (string * hval)) :=
  alter (fun obj => dict_set obj key v) target h.

(** One turn of the loop of [_deep_update] on the object at [target]. *)
Definition update_entry_store
    (recurse : value -> nat -> gmap nat (list (string * hval)) ->
               gmap nat (list (string * hval)))
    (target : nat) (key : string) (val : value)
    (h : gmap nat (list (string * hval))) : gmap nat (list (string * hval)) :=
  match h !! target with
  | None => h
  | Some obj =>
      match dict_get obj key, val with
      | Some (HRef sub), VDict _ => recurse val sub h
      | Some (HVal (VDict sub)), VDict _ =>
          store_item target key (HVal (VDict (deep_update_from val sub))) h
      | _, _ => store_item target key (HVal val) h
      end
  end.

(** [_deep_update(target, source)] where [target] is the address of a
    dictionary object; the store after the call. *)
Fixpoint deep_update_store (source : value) (target : nat)
    (h : gmap nat (list (string * hval))) : gmap nat (list (string * hval)) :=
  match source with
  | VDict items =>
      (fix loop (items : list (string * value)) (h : gmap nat (list (string * hval))) :=
         match items with
         | [] => h
         | (key, val) :: rest =>
             loop rest (update_entry_store deep_update_store target key val h)
         end) items h
  | _ => h
  end.

Definition merge_config_file_store (config : nat) (loaded : option value)
    (h : gmap nat (list (string * hval))) : gmap nat (list (string * hval)) :=
  match loaded with
  | Some (VDict file_config) => deep_update_store (VDict file_config) config h
  | _ => h
  end.

Definition merge_message_types_store (config : nat) (loaded : option value)
    (h : gmap nat (list (string * hval))) : gmap nat (list (string * hval)) :=
  match loaded with
  | Some (VDict message_types_config) =>
      let h :=
        match dict_get message_types_config "message_types" with
        | Some v => store_item config "message_types" (HVal v) h
        | None => h
        end in
      match dict_get message_types_config "default_message_format" with
      | Some v => store_item config "default_message_format" (HVal v) h
      | None => h
      end
  | _ => h
  end.

(** [config[section][key] = v] on the store. *)
Definition set_nested_store (config : nat) (section key : string) (v : value)
    (h : gmap nat (list (string * hval)))
  : outcome unit * gmap nat (list (string * hval)) :=
  match h !! config with
  | None => (Raise KeyError, h)
  | Some obj =>
      match dict_get obj section with
      | None => (Raise KeyError, h)
      | Some (HRef sub) => (Ret tt, store_item sub key (HVal v) h)
      | Some (HVal (VDict d)) =>
          (Ret tt, store_item config section (HVal (VDict (dict_set d key v))) h)
      | Some (HVal _) => (Raise TypeError, h)
      end
  end.

Definition env_override_store (env : gmap string string) (var section key : string)
    (conv : string -> outcome value) (config : nat)
    (h : gmap nat (list (string * hval)))
  : outcome unit * gmap nat (list (string * hval)) :=
  match getenv_truthy env var with
  | Some s =>
      match conv s with
      | Ret v => set_nested_store config section key v h
      | Raise e => (Raise e, h)
      end
  | None => (Ret tt, h)
  end.

(** Statements in sequence: an exception leaves the store as it is. *)
Definition and_then {S : Type} (m k : S -> outcome unit * S) (h : S) : outcome unit * S :=
  match m h with
  | (Ret _, h') => k h'
  | (Raise e, h') => (Raise e, h')
  end.

Definition apply_environment_store (env : gmap string string) (config : nat)
  : gmap nat (list (string * hval)) -> outcome unit * gmap nat (list (string * hval)) :=
  and_then (env_override_store env "POSTGRES_HOST" "database" "host" as_str config)
 (and_then (env_override_store env "POSTGRES_PORT" "database" "port" as_int config)
 (and_then (env_override_store env "POSTGRES_DB" "database" "dbname" as_str config)
 (and_then (env_override_store env "POSTGRES_USER" "database" "user" as_str config)
 (and_then (env_override_store env "POSTGRES_PASSWORD" "database" "password" as_str config)
 (and_then (env_override_store env "OUTPUT_DIR" "output" "directory" as_str config)
 (and_then (env_override_store env "OUTPUT_OVERWRITE" "output" "overwrite" as_flag config)
 (and_then (env_override_store env "LOG_LEVEL" "logging" "level" as_str config)
           (env_override_store env "LOG_FILE" "logging" "file" as_str config)))))))).

(** [load_config] as a step on the store: the address of the
    configuration it returns, and the store it leaves. *)
Definition load_config_store (files : gmap string json_file) (env : gmap string string)
    (config_file message_types_file : option string)
    (h : gmap nat (list (string * hval)))
  : outcome nat * gmap nat (list (string * hval)) :=
  match deepcopy (S (size h)) h (HRef DEFAULT_CONFIG_ADDR) with
  | Some (HRef config, h) =>
      let h := merge_config_file_store config (load_json files config_file) h in
      let h := merge_message_types_store config (load_json files message_types_file) h in
      match apply_environment_store env config h with
      | (Ret _, h) => (Ret config, h)
      | (Raise e, h) => (Raise e, h)
      end
  | _ => (Raise (LibError "RecursionError"), h)
  end.

(** An object another one leads to. *)
Inductive reach (h : gmap nat (list (string * hval))) : nat -> nat -> Prop :=
  | reach_here (a : nat) : reach h a a
  | reach_step (a b c : nat) (obj : list (string * hval)) (k : string) :
      h !! a = Some obj -> dict_get obj k = Some (HRef b) -> reach h b c -> reach h a c.

(** ** Templates and tables [get_message_type_description] accepts *)

(** A plain template: every replacement field is [{message_type}] and
    every other brace is doubled. *)
Fixpoint plain_text (tpl : string) : bool :=
  match tpl with
  | EmptyString => true
  | String c rest =>
      if Ascii.eqb c "{" then
        match rest with
        | EmptyString => false
        | String c' rest' =>
            if Ascii.eqb c' "{" then plain_text rest'
            else plain_field rest EmptyString
        end
      else if Ascii.eqb c "}" then
        match rest with
        | EmptyString => false
        | String c' rest' => Ascii.eqb c' "}" && plain_text rest'
        end
      else plain_text rest
  end
with plain_field (tpl field_name : string) : bool :=
  match tpl with
  | EmptyString => false
  | String c rest =>
      if Ascii.eqb c "}"
      then String.eqb field_name "message_type" && plain_text rest
      else if Ascii.eqb c "{" || field_special c then false
      else plain_field rest (field_name +:+ String c EmptyString)
  end.

Definition is_str (v : value) : bool :=
  match v with
  | VStr _ => true
  | _ => false
  end.

(** [message_types] is absent, or a mapping to strings. *)
Definition table_of_strings (cfg : list (string * value)) : bool :=
  match dict_get cfg "message_types" with
  | None => true
  | Some (VDict table) => forallb (fun kv => is_str kv.2) table
  | Some _ => false
  end.

(** [default_message_format] is absent, or a plain template. *)
Definition format_is_plain (cfg : list (string * value)) : bool :=
  match dict_get cfg "default_message_format" with
  | None => true
  | Some (VStr f) => plain_text f
  | Some _ => false
  end.

(** ** The environment overrides as a table

    The nine [if os.getenv(...)] statements of [load_config], in order:
    the variable, the section and key it writes, and the conversion of
    its value. *)
Record override : Type := {
  ov_var : string;
  ov_section : string;
  ov_key : string;
  ov_conv : string -> outcome value
}.

Definition ENV_OVERRIDES : list override :=
  [ {| ov_var := "POSTGRES_HOST"; ov_section := "database"; ov_key := "host";
       ov_conv := as_str |};
    {| ov_var := "POSTGRES_PORT"; ov_section := "database"; ov_key := "port";
       ov_conv := as_int |};
    {| ov_var := "POSTGRES_DB"; ov_section := "database"; ov_key := "dbname";
       ov_conv := as_str |};
    {| ov_var := "POSTGRES_USER"; ov_section := "database"; ov_key := "user";
       ov_conv := as_str |};
    {| ov_var := "POSTGRES_PASSWORD"; ov_section := "database"; ov_key := "password";
       ov_conv := as_str |};
    {| ov_var := "OUTPUT_DIR"; ov_section := "output"; ov_key := "directory";
       ov_conv := as_str |};
    {| ov_var := "OUTPUT_OVERWRITE"; ov_section := "output"; ov_key := "overwrite";
       ov_conv := as_flag |};
    {| ov_var := "LOG_LEVEL"; ov_section := "logging"; ov_key := "level";
       ov_conv := as_str |};
    {| ov_var := "LOG_FILE"; ov_section := "logging"; ov_key := "file";
       ov_conv := as_str |} ].

Fixpoint apply_overrides (env : gmap string string) (table : list override)
    (config : list (string * value)) : outcome (list (string * value)) :=
  match table with
  | [] => Ret config
  | o :: rest =>
      config ← env_override env (ov_var o) (ov_section o) (ov_key o) (ov_conv o) config;
      apply_overrides env rest config
  end.

Definition is_dict (v : value) : bool :=
  match v with
  | VDict _ => true
  | _ => false
  end.

(** [config[section]] is a dictionary. *)
Definition section_is_dict (config : list (string * value)) (section : string) : bool :=
  match dict_get config section with
  | Some (VDict _) => true
  | _ => false
  end.

(** The file gives [section] a value that is not a mapping, which
    [_deep_update] then stores in place of the section. *)
Definition replaces_section (loaded : option value) (section : string) : bool :=
  match loaded with
  | Some (VDict file_config) =>
      existsb (fun kv => String.eqb kv.1 section && negb (is_dict kv.2)) file_config
  | _ => false
  end.

(** The message types file has a [message_types] key. *)
Definition gives_message_types (loaded : option value) : bool :=
  match loaded with
  | Some (VDict message_types_config) => dict_has message_types_config "message_types"
  | _ => false
  end.

(** ** What a call leaves of the store *)

(** Every object of [h0] is in [h] as it was. *)
Definition keeps (h0 h : gmap nat (list (string * hval))) : Prop :=
  forall a obj, h0 !! a = Some obj -> h !! a = Some obj.

(** An object made since [h0] refers only to objects made since [h0]. *)
Definition new_refers_to_new (h0 h : gmap nat (list (string * hval))) : Prop :=
  forall a obj k b,
    h0 !! a = None -> h !! a = Some obj -> dict_get obj k = Some (HRef b) ->
    h0 !! b = None.

Definition separate (h0 h : gmap nat (list (string * hval))) : Prop :=
  keeps h0 h /\ new_refers_to_new h0 h.

(** A run of calls of [load_config], each on the store the one before
    left. *)
Record call : Type := {
  call_files : gmap string json_file;
  call_env : gmap string string;
  call_config_file : option string;
  call_message_types_file : option string
}.

Fixpoint load_config_calls (calls : list call) (h : gmap nat (list (string * hval)))
  : gmap nat (list (string * hval)) :=
  match calls with
  | [] => h
  | c :: rest =>
      load_config_calls rest
        (snd (load_config_store (call_files c) (call_env c) (call_config_file c)
                (call_message_types_file c) h))
  end.

(** ** [get_db_config] *)

(** [v[key]] for a string key: [KeyError] on a mapping without the
    key, [TypeError] on a value that is not a mapping. *)
Definition subscript (v : value) (key : string) : outcome value :=
  match v with
  | VDict d =>
      match dict_get d key with
      | Some x => Ret x
      | None => Raise KeyError
      end
  | _ => Raise TypeError
  end.

(** [get_db_config(config)] *)
Definition get_db_config (config : value) : outcome value :=
  host ← (database ← subscript config "database"; subscript database "host");
  port ← (database ← subscript config "database"; subscript database "port");
  dbname ← (database ← subscript config "database"; subscript database "dbname");
  user ← (database ← subscript config "database"; subscript database "user");
  password ← (database ← subscript config "database"; subscript database "password");
  Ret (VDict [ ("host", host); ("port", port); ("dbname", dbname);
               ("user", user); ("password", password) ]).

(** ** The language of a pattern

    What a regular expression denotes, against which the matcher by
    derivatives is checked. *)
Inductive lang : regex -> string -> Prop :=
  | lang_eps : lang Eps EmptyString
  | lang_chr (c : ascii) : lang (Chr c) (String c EmptyString)
  | lang_dot (c : ascii) : c <> newline -> lang Dot (String c EmptyString)
  | lang_cat (r1 r2 : regex) (s1 s2 : string) :
      lang r1 s1 -> lang r2 s2 -> lang (Cat r1 r2) (s1 +:+ s2)
  | lang_alt_l (r1 r2 : regex) (s : string) : lang r1 s -> lang (Alt r1 r2) s
  | lang_alt_r (r1 r2 : regex) (s : string) : lang r2 s -> lang (Alt r1 r2) s
  | lang_star_nil (r : regex) : lang (Star r) EmptyString
  | lang_star_cons (r : regex) (s1 s2 : string) :
      lang r s1 -> lang (Star r) s2 -> lang (Star r) (s1 +:+ s2).

Definition lang_opt (o : option regex) (s : string) : Prop :=
  match o with
  | Some r => lang r s
  | None => False
  end.

(** No line feed in the string. *)
Fixpoint no_newline (s : string) : bool :=
  match s with
  | EmptyString => true
  | String c s' => negb (Ascii.eqb c newline) && no_newline s'
  end.

(** ** The functions that take a file object: [read_tarfile_object],
    [extract_tar_object], [list_tar_object]

    Each copies the stream to a temporary file, calls the function
    that takes a path, and removes the file in a [finally]. *)
Section TempFile.

(** What [tarfile.open] finds in a file with these bytes. *)
Variable tar_parse : list byte -> disk_file.

(** [os.unlink] raises; the handler logs a warning and goes on. *)
Variable unlink_fails : bool.

Definition unlink (temp_name : string) (fs : gmap string disk_file)
  : gmap string disk_file :=
  if unlink_fails then fs else delete temp_name fs.

(** The body shared by the three functions.  [temp_name] is the name
    [tempfile.NamedTemporaryFile(delete=False)] gives the new, empty
    file; [body] is the call on that path, with the file system it
    leaves, and [raise] the result when an exception comes before it.
    The state left is the file system and the stream. *)
Definition with_temp_copy {R : Type} (fs : gmap string disk_file) (temp_name : string)
    (file_obj : stream)
    (body : gmap string disk_file -> R * gmap string disk_file) (raise : exn -> R)
  : R * (gmap string disk_file * stream) :=
  let fs := <[temp_name := tar_parse []]> fs in
  match seek_start file_obj with
  | (Raise e, file_obj) => (raise e, (unlink temp_name fs, file_obj))
  | (Ret _, file_obj) =>
      let '(content, file_obj) := read_rest file_obj in
      match content with
      | PText _ => (raise TypeError, (unlink temp_name fs, file_obj))
      | PBytes bs =>
          let '(result, fs) := body (<[temp_name := tar_parse bs]> fs) in
          (result, (unlink temp_name fs, file_obj))
      end
  end.

Definition read_tarfile_object (json_loads : string -> option value)
    (fs : gmap string disk_file) (temp_name : string) (file_obj : stream)
    (select_json : option Z) (auto_select : bool) (stdin : list string)
  : (outcome value * list string) * (gmap string disk_file * stream) :=
  with_temp_copy fs temp_name file_obj
    (fun fs => (read_tarfile json_loads fs temp_name select_json auto_select stdin, fs))
    (fun e => (Raise e, stdin)).

(** [written effects fs] is the file system once the operating system
    and the tar library have done what [extract_tar_contents] asked of
    them: the directory made, the members written under it. *)
Definition extract_tar_object (os_makedirs : string -> option string)
    (tar_extractall : string -> list TarInfo -> option string)
    (written : list effect -> gmap string disk_file -> gmap string disk_file)
    (fs : gmap string disk_file) (temp_name : string) (file_obj : stream)
    (output_dir : option string) (file_pattern : option regex)
  : (outcome (list string) * list effect) * (gmap string disk_file * stream) :=
  with_temp_copy fs temp_name file_obj
    (fun fs =>
       let result := extract_tar_contents os_makedirs tar_extractall fs temp_name
                       output_dir file_pattern in
       (result, written (snd result) fs))
    (fun e => (Raise e, [])).

Definition list_tar_object (fs : gmap string disk_file) (temp_name : string)
    (file_obj : stream) (file_pattern : option regex)
  : outcome (list string) * (gmap string disk_file * stream) :=
  with_temp_copy fs temp_name file_obj
    (fun fs => (list_tar_contents fs temp_name file_pattern, fs))
    Raise.

End TempFile.

End WithInterpreter.

(** The interpreter of the examples: CPython 3.11 as it starts, with
    the default limit of 4300 digits and the Unicode 14.0 database.
    Its decimal digits beyond ASCII come in runs of ten, listed by
    their zero. *)
Definition UNICODE_DECIMAL_ZEROS : list N :=
  [ 1632; 1776; 1984; 2406; 2534; 2662; 2790; 2918; 3046; 3174; 3302;
    3430; 3558; 3664; 3792; 3872; 4160; 4240; 6112; 6160; 6470; 6608;
    6784; 6800; 6992; 7088; 7232; 7248; 42528; 43216; 43264; 43472;
    43504; 43600; 44016; 65296; 66720; 68912; 69734; 69872; 69942;
    70096; 70384; 70736; 70864; 71248; 71360; 71472; 71904; 72016;
    72784; 73040; 73120; 92768; 92864; 93008; 120782; 120792; 120802;
    120812; 120822; 123200; 123632; 125264; 130032 ]%N.

Definition UNICODE_SPACES : list N :=
  [ 133; 160; 5760; 8192; 8193; 8194; 8195; 8196; 8197; 8198; 8199;
    8200; 8201; 8202; 8232; 8233; 8239; 8287; 12288 ]%N.

Definition cpython : Interpreter := {|
  int_max_str_digits := 4300;
  unicode_decimal := fun cp =>
    (fun zero => cp - zero)%N
      <$> List.find (fun zero => (zero <=? cp) && (cp <? zero + 10))%N
            UNICODE_DECIMAL_ZEROS;
  unicode_isspace := fun cp => existsb (N.eqb cp) UNICODE_SPACES
|}.

(** ** The test fixtures: [MockFileReader] and [MockDatabase] *)

Module MockFileReader.

Record t : Type := {
  path_data_map : gmap string value;
  default_data : value
}.

(** [MockFileReader(default_data)]: [default_data or BASIC_SKYPE_DATA],
    so [None] and the empty mapping both give the basic fixture, which
    is imported from a module outside these sources. *)
Definition init (BASIC_SKYPE_DATA : value)
    (default_data : option (list (string * value))) : t :=
  {| path_data_map := ∅;
     default_data :=
       match default_data with
       | Some (entry :: entries) => VDict (entry :: entries)
       | _ => BASIC_SKYPE_DATA
       end |}.

Definition add_file (self : t) (path : string) (data : value) : t :=
  {| path_data_map := <[path := data]> (path_data_map self);
     default_data := default_data self |}.

Definition read_file (self : t) (path : string) : value :=
  default (default_data self) (path_data_map self !! path).

Definition read_tarfile (self : t) (path : string) : value :=
  default (default_data self) (path_data_map self !! path).

Definition read_file_object (self : t) : value := default_data self.

(** [for path, data in file_data.items(): file_reader.add_file(path, data)] *)
Definition add_files (self : t) (file_data : list (string * value)) : t :=
  fold_left (fun reader entry => add_file reader entry.1 entry.2) file_data self.

End MockFileReader.

Module MockDatabase.

Record t : Type := {
  should_fail : bool;
  executed_queries : list string
}.

Definition init (should_fail : bool) : t :=
  {| should_fail := should_fail; executed_queries := [] |}.

(** [cursor.execute(query, params)]: the side effect records the
    query, then raises when the database is set to fail. *)
Definition execute (self : t) (query : string) : outcome unit * t :=
  let self := {| should_fail := should_fail self;
                 executed_queries := executed_queries self ++ [query] |} in
  if should_fail self then (Raise (LibError "Exception"), self) else (Ret tt, self).

Definition get_executed_queries (self : t) : list string := executed_queries self.

(** Statements one after the other, as a caller writes them: the first
    exception ends the run. *)
Fixpoint execute_all (self : t) (queries : list string) : outcome unit * t :=
  match queries with
  | [] => (Ret tt, self)
  | query :: rest =>
      match execute self query with
      | (Ret _, self) => execute_all self rest
      | (Raise e, self) => (Raise e, self)
      end
  end.

End MockDatabase.

(** ** Reading a configuration out of the store

    [repr h x v fp]: in the store [h] the entry [x] stands for the
    value [v], and [fp] is the set of objects it is made of, each of
    them used at one place only.  This is the shape a deep copy has. *)
Inductive repr (h : gmap nat (list (string * hval))) : hval -> value -> gset nat -> Prop :=
  | repr_val (v : value) : repr h (HVal v) v ∅
  | repr_ref (a : nat) (obj : list (string * hval)) (entries : list (string * value))
      (fp : gset nat) :
      h !! a = Some obj ->
      repr_entries h obj entries fp ->
      a ∉ fp ->
      repr h (HRef a) (VDict entries) ({[a]} ∪ fp)
with repr_entries (h : gmap nat (list (string * hval)))
  : list (string * hval) -> list (string * value) -> gset nat -> Prop :=
  | repr_nil : repr_entries h [] [] ∅
  | repr_cons (k : string) (x : hval) (v : value) (obj : list (string * hval))
      (entries : list (string * value)) (fp1 fp2 : gset nat) :
      repr h x v fp1 ->
      repr_entries h obj entries fp2 ->
      fp1 ## fp2 ->
      repr_entries h ((k, x) :: obj) ((k, v) :: entries) (fp1 ∪ fp2).

Scheme repr_mut := Minimality for repr Sort Prop
  with repr_entries_mut := Minimality for repr_entries Sort Prop.

(** The store step [r] does what the computation on values [m] does:
    the same exception, or a store in which [config] stands for the
    value computed, made of objects among [fp], the objects outside
    [fp] being left as they were in [h]. *)
Definition simulates (h : gmap nat (list (string * hval))) (config : nat) (fp : gset nat)
    (m : outcome (list (string * value)))
    (r : outcome unit * gmap nat (list (string * hval))) : Prop :=
  (forall a, a ∉ fp -> snd r !! a = h !! a) /\
  match m with
  | Ret c =>
      fst r = Ret tt /\
      exists fp', repr (snd r) (HRef config) (VDict c) fp' /\ fp' ⊆ fp
  | Raise e => fst r = Raise e
  end.

(** * Properties *)

(** ** Archive reading *)

Lemma filter_none {A : Type} (f : A -> bool) (l : list A) :
  Forall (fun x => f x = false) l -> List.filter f l = [].
Proof.
  induction 1 as [|x l Hx _ IH]; simpl; [reflexivity|].
  rewrite Hx. exact IH.
Qed.

Lemma json_candidates_none (tar : list TarInfo) :
  Forall (fun m => re_match json_pattern (name m) = false) tar ->
  json_candidates tar = [].
Proof.
  intros H. unfold json_candidates, getnames.
  apply filter_none. apply Forall_map. exact H.
Qed.

(** C3, at the input where the code leaves the claim: the archive whose
    only member is [a.json.bak].  The name does not end with [.json],
    and [read_tarfile] keeps it as a JSON candidate, since
    [pattern.match] accepts a matching prefix. *)
Lemma C3_candidate_without_json_suffix :
  ends_with ".json" "a.json.bak" = false /\
  json_candidates [ {| name := "a.json.bak"; data := Some [] |} ] = ["a.json.bak"].
Proof. split; reflexivity. Qed.

(** C5, at the input where the code leaves the claim: the archive
    whose only member is [a.json.bak], holding [{}].  It has no JSON
    member, and [read_tarfile] returns what it parses from that
    member, for every [select_json] and [auto_select], where the claim
    has it raise [IndexError]. *)
Lemma C5_archive_without_json_member_is_read {py : Interpreter}
    (select_json : option Z) (auto_select : bool) (stdin : list string) :
  let tar := [ {| name := "a.json.bak"; data := Some (encode_utf8 "{}") |} ] in
  spec_json_members tar = [] /\
  read_tarfile (fun text => if String.eqb text "{}" then Some (VDict []) else None)
    {[ "export.tar" := IsTar tar ]} "export.tar" select_json auto_select stdin
  = (Ret (VDict []), stdin).
Proof. split; reflexivity. Qed.

(** C6, at the input where the code leaves the claim: the listing
    [x.json.bak], [b.json], [a.json].  The archive has two JSON
    members and the first of them is [b.json]; with no [select_json]
    and [auto_select] true, [read_tarfile] selects [x.json.bak] and
    returns what it parses from that member. *)
Lemma C6_first_candidate_is_not_json {py : Interpreter} (stdin : list string) :
  let tar := [ {| name := "x.json.bak"; data := Some (encode_utf8 "1") |};
               {| name := "b.json"; data := Some (encode_utf8 "2") |};
               {| name := "a.json"; data := Some (encode_utf8 "3") |} ] in
  let json_loads := fun text =>
    if String.eqb text "1" then Some (VInt 1)
    else if String.eqb text "2" then Some (VInt 2)
    else if String.eqb text "3" then Some (VInt 3) else None in
  map name (spec_json_members tar) = ["b.json"; "a.json"] /\
  selected_name tar None true stdin = (Ret "x.json.bak", stdin) /\
  read_tarfile json_loads {[ "export.tar" := IsTar tar ]} "export.tar" None true stdin
  = (Ret (VInt 1), stdin).
Proof. split; [|split]; reflexivity. Qed.


(** ** Reading a stream *)

Lemma decode_encode_utf8 (text : string) :
  utf8_valid (encode_utf8 text) = true ->
  decode_utf8 (encode_utf8 text) = Ret text.
Proof.
  intros Hvalid. unfold decode_utf8. rewrite Hvalid.
  unfold encode_utf8. rewrite string_of_list_byte_of_string. reflexivity.
Qed.

(** [seek(0)] then [read()] gives the whole content, wherever the
    position was. *)
Lemma seek_then_read (f : stream) :
  seekable f = true ->
  exists f1, seek_start f = (Ret tt, f1) /\
             fst (read_rest f1) = content f /\
             position (snd (read_rest f1)) = payload_length (content f).
Proof.
  intros Hseek. unfold seek_start. rewrite Hseek.
  eexists. split; [reflexivity|]. unfold read_rest. simpl.
  split; [|reflexivity].
  destruct (content f); reflexivity.
Qed.

(** C8: a seekable byte stream that holds the UTF-8 bytes of a text
    [json.loads] reads as [d], at any position, makes
    [read_file_object] return [d]; the stream is left at its end. *)
Theorem C8_read_file_object_round_trip
    (json_loads : string -> option value) (d : value) (text : string)
    (pos : nat) :
  json_loads text = Some d ->
  utf8_valid (encode_utf8 text) = true ->
  read_file_object json_loads
    {| content := PBytes (encode_utf8 text); position := pos; seekable := true |}
  = (Ret d,
     {| content := PBytes (encode_utf8 text);
        position := List.length (encode_utf8 text); seekable := true |}).
Proof.
  intros Hloads Hvalid.
  unfold read_file_object, seek_start, read_rest.
  cbn [seekable content position payload_drop payload_length drop Nat.max].
  rewrite drop_0, (decode_encode_utf8 text Hvalid).
  unfold loads. cbn [mbind outcome_bind]. rewrite Hloads. reflexivity.
Qed.

Lemma C8_witness :
  read_file_object
    (fun s => if String.eqb s "{}" then Some (VDict []) else None)
    {| content := PBytes (encode_utf8 "{}"); position := 7; seekable := true |}
  = (Ret (VDict []),
     {| content := PBytes (encode_utf8 "{}"); position := 2; seekable := true |}).
Proof.
  apply (C8_read_file_object_round_trip
           (fun s => if String.eqb s "{}" then Some (VDict []) else None)
           (VDict []) "{}" 7%nat).
  - reflexivity.
  - reflexivity.
Defined.

(** Without the [seek(0)] the position would matter: [read()] alone
    returns only what follows it. *)
Example read_rest_depends_on_position :
  fst (read_rest {| content := PBytes (encode_utf8 "{}"); position := 1;
                    seekable := true |})
  = PBytes (encode_utf8 "}").
Proof. reflexivity. Qed.

(** ** Extraction *)

Lemma tarfile_open_not_path_safety (fs : gmap string disk_file) (filename : string)
    (e : exn) :
  tarfile_open fs filename = Raise e -> e <> PathSafetyError.
Proof.
  unfold tarfile_open.
  destruct (fs !! filename) as [[|members]|]; intros [= <-]; discriminate.
Qed.

Lemma filter_members_elem (file_pattern : option regex) (tar : list TarInfo)
    (m : TarInfo) :
  In m tar ->
  match file_pattern with
  | Some pattern => re_match pattern (name m) = true
  | None => True
  end ->
  In m (filter_members file_pattern tar).
Proof.
  intros Hin Hmatch. destruct file_pattern as [pattern|]; simpl; [|exact Hin].
  apply filter_In. split; assumption.
Qed.

(** C1, as it stands, fails: an archive with the member
    [../../etc/passwd] is extracted.  [extract_tar_contents] returns
    the joined path, does not raise, and hands the member to
    [tar.extractall]. *)
Lemma C1_traversal_member_is_extracted :
  has_dotdot "../../etc/passwd" = true /\
  extract_tar_contents (fun _ => None) (fun _ _ => None)
    {[ "evil.tar" := IsTar [ {| name := "../../etc/passwd"; data := Some [] |} ] ]}
    "evil.tar" (Some "out") None
  = (Ret ["out/../../etc/passwd"],
     [ Makedirs "out";
       ExtractAll "out" [ {| name := "../../etc/passwd"; data := Some [] |} ] ]).
Proof. split; reflexivity. Qed.

(** C1, amended: [extract_tar_contents] never raises
    [PathSafetyError], whatever the collaborators do; with a non-empty
    [output_dir], once the directory is made, every member that matches
    the pattern (a name with [..] segments included) is in the list
    given to [tar.extractall], and when that call succeeds its joined
    path is returned.  [read_tarfile] never raises [PathSafetyError]
    either. *)
Theorem C1_no_path_check_in_extraction {py : Interpreter}
    (os_makedirs : string -> option string)
    (tar_extractall : string -> list TarInfo -> option string)
    (json_loads : string -> option value)
    (fs : gmap string disk_file) (tar_filename : string)
    (output_dir : option string) (file_pattern : option regex)
    (select_json : option Z) (auto_select : bool) (stdin : list string) :
  fst (extract_tar_contents os_makedirs tar_extractall fs tar_filename
         output_dir file_pattern) <> Raise PathSafetyError /\
  fst (read_tarfile json_loads fs tar_filename select_json auto_select stdin)
    <> Raise PathSafetyError /\
  forall (tar : list TarInfo) (dir : string) (m : TarInfo),
    fs !! tar_filename = Some (IsTar tar) ->
    output_dir = Some dir -> str_truthy dir = true ->
    os_makedirs dir = None ->
    In m tar ->
    match file_pattern with
    | Some pattern => re_match pattern (name m) = true
    | None => True
    end ->
    (exists members,
        In (ExtractAll dir members)
           (snd (extract_tar_contents os_makedirs tar_extractall fs tar_filename
                   output_dir file_pattern)) /\
        In m members) /\
    (tar_extractall dir (filter_members file_pattern tar) = None ->
     exists paths,
       fst (extract_tar_contents os_makedirs tar_extractall fs tar_filename
              output_dir file_pattern) = Ret paths /\
       In (path_join dir (name m)) paths).
Proof.
  split; [|split].
  - unfold extract_tar_contents.
    pose proof (tarfile_open_not_path_safety fs tar_filename) as Hopen.
    destruct (tarfile_open fs tar_filename) as [tar|e]; simpl;
      [|intros [= ->]; exact (Hopen _ eq_refl eq_refl)].
    destruct output_dir as [[|c d]|]; simpl; try discriminate.
    destruct (os_makedirs (String c d)); simpl; [discriminate|].
    destruct (tar_extractall (String c d) (filter_members file_pattern tar));
      simpl; discriminate.
  - unfold read_tarfile.
    pose proof (tarfile_open_not_path_safety fs tar_filename) as Hopen.
    destruct (tarfile_open fs tar_filename) as [tar|e]; simpl;
      [|intros [= ->]; exact (Hopen _ eq_refl eq_refl)].
    unfold selected_name.
    destruct (json_candidates tar) as [|n0 ns]; simpl; [discriminate|].
    destruct (selected_index (n0 :: ns) select_json auto_select stdin)
      as [[i|e] stdin'] eqn:Hsel; simpl.
    + unfold nth_name. destruct ((n0 :: ns) !! Z.to_nat i) as [n|]; simpl;
        [|discriminate].
      unfold getmember.
      destruct (List.find _ (rev tar)) as [member|]; simpl; [|discriminate].
      destruct (data member) as [bs|]; [|discriminate].
      unfold decode_utf8. destruct (utf8_valid bs); simpl; [|discriminate].
      unfold loads. destruct (json_loads _); discriminate.
    + intros [= ->]. revert Hsel. unfold selected_index.
      assert (Hprompt : forall n l,
                 fst (prompt_selection n l) <> Raise PathSafetyError).
      { intros n l. induction l as [|line l IH]; simpl; [discriminate|].
        destruct (int_of_str line) as [z|]; [|exact IH].
        destruct ((0 <=? z - 1) && (z - 1 <? Z.of_nat n)); [discriminate|exact IH]. }
      destruct (1 <? List.length (n0 :: ns))%nat; [|discriminate].
      destruct select_json as [i|].
      * destruct ((0 <=? i) && (i <? Z.of_nat (List.length (n0 :: ns))));
          [discriminate|].
        destruct auto_select; [discriminate|].
        intros H. apply (Hprompt (List.length (n0 :: ns)) stdin).
        rewrite H. reflexivity.
      * destruct auto_select; [discriminate|].
        intros H. apply (Hprompt (List.length (n0 :: ns)) stdin).
        rewrite H. reflexivity.
  - intros tar dir m Hopen -> Hdir Hmk Hin Hmatch.
    pose proof (filter_members_elem file_pattern tar m Hin Hmatch) as Hmem.
    unfold extract_tar_contents, tarfile_open. rewrite Hopen.
    destruct dir as [|c d]; [discriminate|]. rewrite Hmk.
    split.
    + exists (filter_members file_pattern tar). split; [|exact Hmem].
      destruct (tar_extractall (String c d) (filter_members file_pattern tar));
        simpl; auto.
    + intros ->. eexists. split; [reflexivity|].
      simpl. apply in_map_iff. exists m. split; [reflexivity|exact Hmem].
Qed.

Lemma C1_witness :
  exists paths,
    fst (extract_tar_contents (fun _ => None) (fun _ _ => None)
           {[ "evil.tar" := IsTar [ {| name := "../../etc/passwd"; data := Some [] |} ] ]}
           "evil.tar" (Some "out") None) = Ret paths /\
    In "out/../../etc/passwd" paths.
Proof.
  refine (proj2 (proj2 (proj2 (C1_no_path_check_in_extraction (py := cpython)
           (fun _ => None) (fun _ _ => None) (fun _ => None)
           {[ "evil.tar" := IsTar [ {| name := "../../etc/passwd"; data := Some [] |} ] ]}
           "evil.tar" (Some "out") None None true []))
           [ {| name := "../../etc/passwd"; data := Some [] |} ] "out"
           {| name := "../../etc/passwd"; data := Some [] |}
           _ _ _ _ _ _) _).
  - reflexivity.
  - reflexivity.
  - reflexivity.
  - reflexivity.
  - left. reflexivity.
  - exact I.
  - reflexivity.
Defined.

(** ** Message type descriptions *)

Lemma format_default (format_other : string -> string -> outcome string)
    (msg_type : string) :
  format format_other DEFAULT_MESSAGE_FORMAT msg_type
  = Ret ("***Sent a " +:+ msg_type +:+ "***").
Proof. reflexivity. Qed.

Lemma describe_with_defaults (format_other : string -> string -> outcome string)
    (cfg : list (string * value)) (c : ascii) (t : string) :
  dict_get cfg "message_types" = Some (VDict DEFAULT_MESSAGE_TYPES) ->
  dict_get cfg "default_message_format" = Some (VStr DEFAULT_MESSAGE_FORMAT) ->
  get_message_type_description format_other (VDict cfg) (Some (String c t))
  = Ret (default (VStr ("***Sent a " +:+ String c t +:+ "***"))
                 (dict_get DEFAULT_MESSAGE_TYPES (String c t))).
Proof.
  intros Htable Hformat. unfold get_message_type_description.
  rewrite Htable, Hformat. cbn [default from_option id].
  rewrite format_default. reflexivity.
Qed.

(** C7: with the default table and the default format in the
    configuration, an absent or empty type gives
    ["Unknown message type"], a type of the table gives its
    description, and any other type gives the default format with the
    type in it. *)
Theorem C7_describe_message_type
    (format_other : string -> string -> outcome string)
    (cfg : list (string * value)) :
  dict_get cfg "message_types" = Some (VDict DEFAULT_MESSAGE_TYPES) ->
  dict_get cfg "default_message_format" = Some (VStr DEFAULT_MESSAGE_FORMAT) ->
  get_message_type_description format_other (VDict cfg) None
    = Ret (VStr "Unknown message type") /\
  get_message_type_description format_other (VDict cfg) (Some "")
    = Ret (VStr "Unknown message type") /\
  (forall (t : string) (description : value),
      t <> "" ->
      dict_get DEFAULT_MESSAGE_TYPES t = Some description ->
      get_message_type_description format_other (VDict cfg) (Some t)
      = Ret description) /\
  (forall t : string,
      t <> "" ->
      dict_get DEFAULT_MESSAGE_TYPES t = None ->
      get_message_type_description format_other (VDict cfg) (Some t)
      = Ret (VStr ("***Sent a " +:+ t +:+ "***"))) /\
  get_message_type_description format_other (VDict cfg) (Some "RichText/Location")
    = Ret (VStr "***Sent a location***") /\
  get_message_type_description format_other (VDict cfg) (Some "Totally/Unknown")
    = Ret (VStr "***Sent a Totally/Unknown***").
Proof.
  intros Htable Hformat.
  split; [reflexivity|]. split; [reflexivity|].
  split; [|split; [|split]].
  - intros [|c t] description Hne Hget; [congruence|].
    rewrite (describe_with_defaults _ _ _ _ Htable Hformat), Hget. reflexivity.
  - intros [|c t] Hne Hget; [congruence|].
    rewrite (describe_with_defaults _ _ _ _ Htable Hformat), Hget. reflexivity.
  - rewrite (describe_with_defaults _ _ _ _ Htable Hformat). reflexivity.
  - rewrite (describe_with_defaults _ _ _ _ Htable Hformat). reflexivity.
Qed.

Lemma C7_witness :
  get_message_type_description (fun _ _ => Raise ValueError)
    (VDict DEFAULT_CONFIG) (Some "RichText/Location")
  = Ret (VStr "***Sent a location***").
Proof.
  apply (C7_describe_message_type (fun _ _ => Raise ValueError) DEFAULT_CONFIG).
  - reflexivity.
  - reflexivity.
Defined.

Lemma returns_bind_ret {A B : Type} (m : outcome A) (f : A -> B) :
  returns m -> returns (a ← m; Ret (f a)).
Proof. intros [a ->]. exists (f a). reflexivity. Qed.

(** A plain template formats for every argument, and never reaches a
    field outside the fragment. *)
Lemma format_plain_returns (format_other : string -> string -> outcome string)
    (arg : string) (n : nat) :
  forall tpl : string,
    (String.length tpl <= n)%nat ->
    (plain_text tpl = true -> returns (format_text format_other tpl arg)) /\
    (forall start field_name : string,
        plain_field tpl field_name = true ->
        returns (format_field format_other start tpl field_name arg)).
Proof.
  induction n as [|n IH]; intros [|c rest] Hlen; simpl in Hlen; try lia.
  - split; [intros _; eexists; reflexivity|discriminate].
  - split; [intros _; eexists; reflexivity|discriminate].
  - assert (Hrest : (String.length rest <= n)%nat) by lia.
    destruct (IH rest Hrest) as [IHtext IHfield].
    split.
    + simpl. destruct (Ascii.eqb c "{").
      * destruct rest as [|c' rest']; [discriminate|].
        destruct (Ascii.eqb c' "{").
        -- intros Hplain. apply returns_bind_ret.
           apply (IH rest'); [simpl in Hrest; lia|exact Hplain].
        -- intros Hplain. apply IHfield. exact Hplain.
      * destruct (Ascii.eqb c "}").
        -- destruct rest as [|c' rest']; [discriminate|].
           destruct (Ascii.eqb c' "}"); [|discriminate].
           intros Hplain. apply returns_bind_ret.
           apply (IH rest'); [simpl in Hrest; lia|exact Hplain].
        -- intros Hplain. apply returns_bind_ret. apply IHtext. exact Hplain.
    + intros start field_name. simpl. destruct (Ascii.eqb c "}").
      * destruct (String.eqb field_name "message_type"); [|discriminate].
        intros Hplain. apply returns_bind_ret. apply IHtext. exact Hplain.
      * destruct (Ascii.eqb c "{"); [discriminate|].
        destruct (field_special c); [discriminate|].
        intros Hplain. apply IHfield. exact Hplain.
Qed.

Lemma table_lookup_is_str (table : list (string * value)) (t : string) (v : value) :
  forallb (fun kv => is_str kv.2) table = true ->
  dict_get table t = Some v ->
  exists s, v = VStr s.
Proof.
  induction table as [|[k x] table IH]; simpl; [discriminate|].
  intros [Hx Htable]%andb_true_iff.
  destruct (String.eqb k t).
  - intros [= <-]. destruct x; try discriminate. eexists; reflexivity.
  - apply IH. exact Htable.
Qed.

(** C4, as it stands, fails: a format string with a field other than
    [message_type] makes the function raise, even for a type that is in
    the table, because the default of [dict.get] is formatted first. *)
Lemma C4_bad_format_raises :
  get_message_type_description (fun _ _ => Ret "")
    (VDict (dict_set DEFAULT_CONFIG "default_message_format" (VStr "Sent a {type}")))
    (Some "Poll")
  = Raise KeyError.
Proof. reflexivity. Qed.

(** C4, amended: for a configuration mapping whose [message_types] is
    absent or a mapping to strings and whose [default_message_format]
    is absent or a plain template, the function returns a string for
    every type; for an absent or empty type it returns
    ["Unknown message type"] whatever the configuration is. *)
Theorem C4_describe_total_on_plain_config
    (format_other : string -> string -> outcome string)
    (cfg : list (string * value)) (msg_type : option string) :
  table_of_strings cfg = true ->
  format_is_plain cfg = true ->
  (exists s, get_message_type_description format_other (VDict cfg) msg_type
             = Ret (VStr s)) /\
  (forall config : value,
      get_message_type_description format_other config None
        = Ret (VStr "Unknown message type") /\
      get_message_type_description format_other config (Some "")
        = Ret (VStr "Unknown message type")).
Proof.
  intros Htable Hformat. split; [|intros config; split; reflexivity].
  destruct msg_type as [[|c t]|]; try (eexists; reflexivity).
  unfold get_message_type_description.
  unfold table_of_strings in Htable. unfold format_is_plain in Hformat.
  set (table := dict_get cfg "message_types") in *.
  set (fmt := dict_get cfg "default_message_format") in *.
  assert (Hfmt : exists f, default (VStr "***Sent a {message_type}***") fmt = VStr f
                           /\ plain_text f = true).
  { destruct fmt as [[]|]; try discriminate; eexists; split;
      try reflexivity; assumption. }
  destruct Hfmt as (f & -> & Hplain).
  assert (Htab : exists entries, default (VDict []) table = VDict entries
                   /\ forallb (fun kv => is_str kv.2) entries = true).
  { destruct table as [[]|]; try discriminate; eexists; split;
      try reflexivity; assumption. }
  destruct Htab as (entries & -> & Hstrs).
  destruct (proj1 (format_plain_returns format_other (String c t) _ f (le_n _)) Hplain)
    as [fallback Hfallback].
  unfold format. rewrite Hfallback. cbn [mbind outcome_bind].
  destruct (dict_get entries (String c t)) as [v|] eqn:Hget.
  - destruct (table_lookup_is_str _ _ _ Hstrs Hget) as [s ->].
    exists s. reflexivity.
  - exists fallback. reflexivity.
Qed.

Lemma C4_witness :
  exists s,
    get_message_type_description (fun _ _ => Ret "") (VDict DEFAULT_CONFIG)
      (Some "Totally/Unknown") = Ret (VStr s).
Proof.
  refine (proj1 (C4_describe_total_on_plain_config (fun _ _ => Ret "")
                   DEFAULT_CONFIG (Some "Totally/Unknown") _ _)).
  - reflexivity.
  - reflexivity.
Defined.

(** ** Dictionaries *)

Lemma dict_get_set_eq {V : Type} (d : list (string * V)) (k : string) (v : V) :
  dict_get (dict_set d k v) k = Some v.
Proof.
  induction d as [|[k' v'] d IH]; simpl.
  - rewrite String.eqb_refl. reflexivity.
  - destruct (String.eqb k' k) eqn:E; simpl; rewrite E; [reflexivity|exact IH].
Qed.

Lemma dict_get_set_ne {V : Type} (d : list (string * V)) (k k' : string) (v : V) :
  k <> k' -> dict_get (dict_set d k v) k' = dict_get d k'.
Proof.
  intros Hne. induction d as [|[k0 v0] d IH]; simpl.
  - apply String.eqb_neq in Hne. rewrite Hne. reflexivity.
  - destruct (String.eqb k0 k) eqn:E; simpl.
    + apply String.eqb_eq in E. subst k0.
      apply String.eqb_neq in Hne. rewrite Hne. reflexivity.
    + destruct (String.eqb k0 k'); [reflexivity|exact IH].
Qed.

Lemma dict_get_set {V : Type} (d : list (string * V)) (k k' : string) (v : V) :
  dict_get (dict_set d k v) k' = if String.eqb k k' then Some v else dict_get d k'.
Proof.
  destruct (String.eqb k k') eqn:E.
  - apply String.eqb_eq in E. subst k'. apply dict_get_set_eq.
  - apply String.eqb_neq in E. apply dict_get_set_ne. exact E.
Qed.

Lemma dict_set_keeps_keys {V : Type} (d : list (string * V)) (k k' : string) (v : V) :
  is_Some (dict_get d k') -> is_Some (dict_get (dict_set d k v) k').
Proof.
  rewrite dict_get_set. destruct (String.eqb k k'); [eauto|trivial].
Qed.

Lemma dict_has_true {V : Type} (d : list (string * V)) (k : string) :
  dict_has d k = true <-> is_Some (dict_get d k).
Proof. unfold dict_has. apply bool_decide_eq_true. Qed.

Lemma get_nested_set (config d : list (string * value)) (s k s' k' : string) (v : value) :
  dict_get config s = Some (VDict d) ->
  get_nested (dict_set config s (VDict (dict_set d k v))) s' k'
  = if String.eqb s s' && String.eqb k k' then Some v else get_nested config s' k'.
Proof.
  intros Hs. unfold get_nested. rewrite dict_get_set.
  destruct (String.eqb s s') eqn:Es; simpl; [|reflexivity].
  apply String.eqb_eq in Es. subst s'. rewrite Hs. apply dict_get_set.
Qed.

Lemma section_is_dict_true (config : list (string * value)) (s : string) :
  section_is_dict config s = true <-> exists d, dict_get config s = Some (VDict d).
Proof.
  unfold section_is_dict. split.
  - destruct (dict_get config s) as [[]|]; try discriminate. eauto.
  - intros [d ->]. reflexivity.
Qed.

(** ** The environment overrides *)

Lemma bind_ext {A B : Type} (m : outcome A) (k k' : A -> outcome B) :
  (forall a, k a = k' a) -> m ≫= k = m ≫= k'.
Proof. intros H. destruct m; simpl; [apply H|reflexivity]. Qed.

Lemma bind_ret {A : Type} (m : outcome A) : m ≫= Ret = m.
Proof. destruct m; reflexivity. Qed.

Lemma apply_environment_table {py : Interpreter} (env : gmap string string) (config : list (string * value)) :
  apply_environment env config = apply_overrides env ENV_OVERRIDES config.
Proof.
  unfold apply_environment, ENV_OVERRIDES, apply_overrides.
  cbn [ov_var ov_section ov_key ov_conv].
  do 8 (apply bind_ext; intros ?).
  symmetry. apply bind_ret.
Qed.

Lemma env_override_inv (env : gmap string string) (var s k : string)
    (conv : string -> outcome value) (c c' : list (string * value)) :
  env_override env var s k conv c = Ret c' ->
  match getenv_truthy env var with
  | None => c' = c
  | Some sv =>
      exists v d, conv sv = Ret v /\ dict_get c s = Some (VDict d) /\
                  c' = dict_set c s (VDict (dict_set d k v))
  end.
Proof.
  unfold env_override. destruct (getenv_truthy env var) as [sv|].
  - destruct (conv sv) as [v|e]; simpl; [|discriminate].
    unfold set_nested. destruct (dict_get c s) as [[]|]; try discriminate.
    intros [= <-]. eauto.
  - intros [= <-]. reflexivity.
Qed.

Lemma env_override_returns (env : gmap string string) (var s k : string)
    (conv : string -> outcome value) (c : list (string * value)) :
  section_is_dict c s = true ->
  (forall sv, getenv_truthy env var = Some sv -> returns (conv sv)) ->
  returns (env_override env var s k conv c).
Proof.
  intros [d Hd]%section_is_dict_true Hconv. unfold env_override.
  destruct (getenv_truthy env var) as [sv|]; [|eexists; reflexivity].
  destruct (Hconv sv eq_refl) as [v ->]. simpl.
  unfold set_nested. rewrite Hd. eexists; reflexivity.
Qed.

(** What one override leaves alone. *)
Lemma env_override_frame (env : gmap string string) (var s k : string)
    (conv : string -> outcome value) (c c' : list (string * value)) :
  env_override env var s k conv c = Ret c' ->
  (forall s', section_is_dict c' s' = section_is_dict c s') /\
  (forall key, is_Some (dict_get c key) -> is_Some (dict_get c' key)) /\
  (forall key, key <> s -> dict_get c' key = dict_get c key) /\
  (forall s' k', is_Some (get_nested c s' k') -> is_Some (get_nested c' s' k')) /\
  (forall s' k', (s', k') <> (s, k) -> get_nested c' s' k' = get_nested c s' k').
Proof.
  intros H%env_override_inv.
  destruct (getenv_truthy env var) as [sv|]; [|subst c'; repeat split; auto].
  destruct H as (v & d & _ & Hd & ->).
  split; [|split; [|split; [|split]]].
  - intros s'. unfold section_is_dict. rewrite dict_get_set.
    destruct (String.eqb s s') eqn:E; [|reflexivity].
    apply String.eqb_eq in E. subst s'. rewrite Hd. reflexivity.
  - intros key. apply dict_set_keeps_keys.
  - intros key Hne. apply dict_get_set_ne. congruence.
  - intros s' k'. rewrite (get_nested_set _ _ _ _ _ _ _ Hd).
    destruct (String.eqb s s' && String.eqb k k'); [eauto|trivial].
  - intros s' k' Hne. rewrite (get_nested_set _ _ _ _ _ _ _ Hd).
    destruct (String.eqb s s') eqn:Es; [|reflexivity].
    destruct (String.eqb k k') eqn:Ek; [|reflexivity].
    apply String.eqb_eq in Es, Ek. congruence.
Qed.

(** What one override writes. *)
Lemma env_override_value (env : gmap string string) (var s k sv : string)
    (conv : string -> outcome value) (c c' : list (string * value)) :
  env_override env var s k conv c = Ret c' ->
  getenv_truthy env var = Some sv ->
  exists v, conv sv = Ret v /\ get_nested c' s k = Some v.
Proof.
  intros H%env_override_inv Hset. rewrite Hset in H.
  destruct H as (v & d & Hconv & Hd & ->).
  exists v. split; [exact Hconv|].
  rewrite (get_nested_set _ _ _ _ _ _ _ Hd), !String.eqb_refl. reflexivity.
Qed.

Lemma apply_overrides_returns (env : gmap string string) (table : list override)
    (c : list (string * value)) :
  Forall (fun o => section_is_dict c (ov_section o) = true) table ->
  Forall (fun o => forall sv, getenv_truthy env (ov_var o) = Some sv ->
                              returns (ov_conv o sv)) table ->
  returns (apply_overrides env table c).
Proof.
  revert c. induction table as [|o table IH]; intros c Hdict Hconv; simpl.
  - eexists; reflexivity.
  - inversion Hdict as [|? ? Ho Hdict']; subst.
    inversion Hconv as [|? ? Hc Hconv']; subst.
    destruct (env_override_returns env _ _ (ov_key o) _ c Ho Hc) as [c1 H1].
    rewrite H1. simpl. apply IH; [|exact Hconv'].
    destruct (env_override_frame _ _ _ _ _ _ _ H1) as (Hsec & _).
    eapply Forall_impl; [exact Hdict'|]. intros o' Ho'. simpl in *.
    rewrite Hsec. exact Ho'.
Qed.

Lemma apply_overrides_frame (env : gmap string string) (table : list override)
    (c cfg : list (string * value)) :
  apply_overrides env table c = Ret cfg ->
  (forall s', section_is_dict cfg s' = section_is_dict c s') /\
  (forall key, is_Some (dict_get c key) -> is_Some (dict_get cfg key)) /\
  (forall key, Forall (fun o => ov_section o <> key) table ->
               dict_get cfg key = dict_get c key) /\
  (forall s' k', is_Some (get_nested c s' k') -> is_Some (get_nested cfg s' k')) /\
  (forall s' k', Forall (fun o => (ov_section o, ov_key o) <> (s', k')) table ->
                 get_nested cfg s' k' = get_nested c s' k').
Proof.
  revert c. induction table as [|o table IH]; intros c; simpl.
  - intros [= <-]. repeat split; auto.
  - destruct (env_override env (ov_var o) (ov_section o) (ov_key o) (ov_conv o) c)
      as [c1|e] eqn:H1; simpl; [|discriminate].
    intros Hrest.
    destruct (env_override_frame _ _ _ _ _ _ _ H1) as (A1 & A2 & A3 & A4 & A5).
    destruct (IH c1 Hrest) as (B1 & B2 & B3 & B4 & B5).
    split; [|split; [|split; [|split]]].
    + intros s'. rewrite B1. apply A1.
    + intros key Hk. apply B2, A2, Hk.
    + intros key Hall. inversion Hall; subst.
      rewrite B3 by assumption. apply A3. congruence.
    + intros s' k' Hk. apply B4, A4, Hk.
    + intros s' k' Hall. inversion Hall; subst.
      rewrite B5 by assumption. apply A5. congruence.
Qed.

(** A set variable wins: its converted value is what the result holds
    at its section and key, when no later override writes there. *)
Lemma apply_overrides_value (env : gmap string string) (table : list override)
    (c cfg : list (string * value)) (o : override) (sv : string) :
  NoDup (map (fun o => (ov_section o, ov_key o)) table) ->
  In o table ->
  getenv_truthy env (ov_var o) = Some sv ->
  apply_overrides env table c = Ret cfg ->
  exists v, ov_conv o sv = Ret v /\ get_nested cfg (ov_section o) (ov_key o) = Some v.
Proof.
  revert c. induction table as [|o' table IH]; intros c Hnodup Hin Hset; simpl;
    [destruct Hin|].
  destruct (env_override env (ov_var o') (ov_section o') (ov_key o') (ov_conv o') c)
    as [c1|e] eqn:H1; simpl; [|discriminate].
  intros Hrest. simpl in Hnodup. apply NoDup_cons in Hnodup as [Hfresh Hnodup].
  destruct Hin as [->|Hin].
  - destruct (env_override_value _ _ _ _ _ _ _ _ H1 Hset) as (v & Hconv & Hget).
    exists v. split; [exact Hconv|].
    destruct (apply_overrides_frame _ _ _ _ Hrest) as (_ & _ & _ & _ & Hframe).
    rewrite Hframe; [exact Hget|].
    apply Forall_forall. intros o' Ho' Heq. apply Hfresh.
    apply list_elem_of_In. apply in_map_iff. exists o'.
    split; [exact Heq|apply list_elem_of_In; exact Ho'].
  - apply (IH c1); assumption.
Qed.

Lemma apply_overrides_unset (env : gmap string string) (table : list override)
    (c : list (string * value)) :
  Forall (fun o => getenv_truthy env (ov_var o) = None) table ->
  apply_overrides env table c = Ret c.
Proof.
  induction 1 as [|o table Ho _ IH]; simpl; [reflexivity|].
  unfold env_override. rewrite Ho. simpl. exact IH.
Qed.

Lemma ENV_OVERRIDES_targets_distinct {py : Interpreter} :
  NoDup (map (fun o => (ov_section o, ov_key o)) ENV_OVERRIDES).
Proof. apply (bool_decide_unpack _). vm_compute. reflexivity. Qed.

(** ** The merges *)

Lemma deep_update_from_cons (k : string) (v : value) (rest target : list (string * value)) :
  deep_update_from (VDict ((k, v) :: rest)) target
  = deep_update_from (VDict rest) (update_entry deep_update_from target k v).
Proof. reflexivity. Qed.

Lemma update_entry_keeps_keys
    (recurse : value -> list (string * value) -> list (string * value))
    (target : list (string * value)) (k key : string) (v : value) :
  is_Some (dict_get target key) ->
  is_Some (dict_get (update_entry recurse target k v) key).
Proof.
  intros H. unfold update_entry.
  destruct (dict_get target k) as [[]|]; destruct v; apply dict_set_keeps_keys, H.
Qed.

(** [_deep_update] removes no key of its target. *)
Lemma deep_update_keeps_keys (source : value) (target : list (string * value))
    (key : string) :
  is_Some (dict_get target key) ->
  is_Some (dict_get (deep_update_from source target) key).
Proof.
  destruct source as [| | | | | |items]; try (intros H; exact H).
  revert target. induction items as [|[k v] items IH]; intros target H;
    [exact H|].
  rewrite deep_update_from_cons. apply IH, update_entry_keeps_keys, H.
Qed.

(** [section] stays a dictionary and keeps its keys. *)
Definition section_grows (c c' : list (string * value)) (section : string) : Prop :=
  forall sub, dict_get c section = Some (VDict sub) ->
    exists sub', dict_get c' section = Some (VDict sub') /\
                 forall key, is_Some (dict_get sub key) -> is_Some (dict_get sub' key).

Lemma section_grows_refl (c : list (string * value)) (s : string) : section_grows c c s.
Proof. intros sub H. exists sub. split; [exact H|auto]. Qed.

Lemma section_grows_trans (c1 c2 c3 : list (string * value)) (s : string) :
  section_grows c1 c2 s -> section_grows c2 c3 s -> section_grows c1 c3 s.
Proof.
  intros H12 H23 sub H. destruct (H12 sub H) as (sub2 & H2 & K2).
  destruct (H23 sub2 H2) as (sub3 & H3 & K3).
  exists sub3. split; [exact H3|]. intros key Hk. apply K3, K2, Hk.
Qed.

Lemma section_grows_nested (c c' : list (string * value)) (s k : string) :
  section_grows c c' s ->
  is_Some (get_nested c s k) -> is_Some (get_nested c' s k).
Proof.
  unfold get_nested. intros Hg.
  destruct (dict_get c s) as [v|] eqn:Hs; [|intros [? [=]]].
  destruct v as [| | | | | |sub]; try (intros [? [=]]).
  destruct (Hg sub Hs) as (sub' & -> & Hk). apply Hk. eauto.
Qed.

Lemma section_grows_is_dict (c c' : list (string * value)) (s : string) :
  section_grows c c' s ->
  section_is_dict c s = true -> section_is_dict c' s = true.
Proof.
  intros Hg [sub Hs]%section_is_dict_true. apply section_is_dict_true.
  destruct (Hg sub Hs) as (sub' & Hs' & _). eauto.
Qed.

Lemma dict_set_other_grows (c : list (string * value)) (k s : string) (v : value) :
  k <> s -> section_grows c (dict_set c k v) s.
Proof.
  intros Hne sub Hs. exists sub. split; [|auto].
  rewrite dict_get_set_ne by exact Hne. exact Hs.
Qed.

Lemma update_entry_grows (target : list (string * value)) (k s : string) (v : value) :
  String.eqb k s && negb (is_dict v) = false ->
  section_grows target (update_entry deep_update_from target k v) s.
Proof.
  intros Hkeep. destruct (String.eqb k s) eqn:E.
  - apply String.eqb_eq in E. subst k. simpl in Hkeep.
    destruct v as [| | | | | |items]; try discriminate.
    intros sub Hs. unfold update_entry. rewrite Hs.
    exists (deep_update_from (VDict items) sub). split.
    + apply dict_get_set_eq.
    + intros key. apply deep_update_keeps_keys.
  - apply String.eqb_neq in E. unfold update_entry.
    destruct (dict_get target k) as [[]|]; destruct v;
      apply dict_set_other_grows, E.
Qed.

Lemma deep_update_grows (target file_config : list (string * value)) (s : string) :
  replaces_section (Some (VDict file_config)) s = false ->
  section_grows target (_deep_update target file_config) s.
Proof.
  unfold _deep_update, replaces_section.
  revert target. induction file_config as [|[k v] items IH]; intros target Hkeep.
  - apply section_grows_refl.
  - simpl in Hkeep. apply orb_false_iff in Hkeep as [Hkv Hitems].
    rewrite deep_update_from_cons.
    eapply section_grows_trans; [apply update_entry_grows, Hkv|].
    apply IH, Hitems.
Qed.

Lemma merge_config_file_grows (config : list (string * value)) (loaded : option value)
    (s : string) :
  replaces_section loaded s = false ->
  section_grows config (merge_config_file config loaded) s.
Proof.
  destruct loaded as [[| | | | | |file_config]|]; try (intros _; apply section_grows_refl).
  apply deep_update_grows.
Qed.

Lemma merge_config_file_keeps_keys (config : list (string * value))
    (loaded : option value) (key : string) :
  is_Some (dict_get config key) ->
  is_Some (dict_get (merge_config_file config loaded) key).
Proof.
  destruct loaded as [[| | | | | |file_config]|]; try (intros H; exact H).
  apply deep_update_keeps_keys.
Qed.

Lemma merge_message_types_keeps_keys (config : list (string * value))
    (loaded : option value) (key : string) :
  is_Some (dict_get config key) ->
  is_Some (dict_get (merge_message_types config loaded) key).
Proof.
  destruct loaded as [[| | | | | |mt]|]; try (intros H; exact H).
  intros H. simpl.
  destruct (dict_get mt "message_types"), (dict_get mt "default_message_format");
    repeat apply dict_set_keeps_keys; exact H.
Qed.

Lemma merge_message_types_grows (config : list (string * value))
    (loaded : option value) (s : string) :
  s <> "default_message_format" ->
  (s = "message_types" -> gives_message_types loaded = false) ->
  section_grows config (merge_message_types config loaded) s.
Proof.
  intros Hfmt Htable.
  destruct loaded as [[| | | | | |mt]|]; try apply section_grows_refl.
  simpl. simpl in Htable. unfold dict_has in Htable.
  eapply section_grows_trans with
    (c2 := match dict_get mt "message_types" with
           | Some v => dict_set config "message_types" v
           | None => config
           end).
  - destruct (dict_get mt "message_types") as [v|] eqn:Hmt;
      [|apply section_grows_refl].
    apply dict_set_other_grows. intros <-.
    specialize (Htable eq_refl). apply bool_decide_eq_false in Htable.
    apply Htable. eauto.
  - destruct (dict_get mt "default_message_format");
      [|apply section_grows_refl].
    apply dict_set_other_grows. congruence.
Qed.

(** ** [int] of a decimal numeral *)

Lemma digit_is_plain (c : ascii) :
  bool_decide (is_Some (digit_val c)) = true ->
  is_space c = false /\ Ascii.eqb c "-" = false /\ Ascii.eqb c "+" = false.
Proof.
  destruct c as [[] [] [] [] [] [] [] []]; vm_compute; intros H;
    first [discriminate H | repeat split].
Qed.

Lemma rstrip_digits (s : string) : all_digits s = true -> rstrip s = s.
Proof.
  induction s as [|c s IH]; simpl; [reflexivity|].
  intros [Hc Hs]%andb_true_iff.
  destruct (digit_is_plain c Hc) as (-> & _). simpl.
  rewrite IH by exact Hs. reflexivity.
Qed.

Lemma int_digits_numeral (s : string) (acc : Z) (after_digit : bool) :
  all_digits s = true ->
  str_truthy s || after_digit = true ->
  int_digits s acc after_digit = Some (numeral_value s acc).
Proof.
  revert acc after_digit. induction s as [|c s IH]; intros acc after_digit; simpl.
  - intros _ ->. reflexivity.
  - intros [Hc Hs]%andb_true_iff _.
    apply bool_decide_eq_true in Hc. destruct Hc as [d Hd]. rewrite Hd. simpl.
    apply IH; [exact Hs|]. apply orb_true_r.
Qed.

Lemma int_literal_numeral (s : string) :
  is_numeral s = true -> int_literal s = Some (numeral_value s 0).
Proof.
  unfold is_numeral. intros [Hne Hdigits]%andb_true_iff.
  unfold int_literal, strip.
  destruct s as [|c s]; [discriminate|].
  pose proof Hdigits as Hd. simpl in Hd. apply andb_true_iff in Hd as [Hc _].
  destruct (digit_is_plain c Hc) as (Hsp & Hminus & Hplus).
  cbn [lstrip]. rewrite Hsp, (rstrip_digits _ Hdigits), Hminus, Hplus.
  apply int_digits_numeral; [exact Hdigits|reflexivity].
Qed.

Lemma digit_is_ascii (c : ascii) :
  bool_decide (is_Some (digit_val c)) = true ->
  byte_in 0 127 (byte_of_ascii c) = true /\
  (Byte.to_N (byte_of_ascii c) <? 128)%N = true /\
  ascii_of_N (Byte.to_N (byte_of_ascii c)) = c.
Proof.
  destruct c as [[] [] [] [] [] [] [] []]; vm_compute; intros H;
    first [discriminate H | repeat split].
Qed.

Lemma code_points_ascii (b : byte) (r : list byte) :
  byte_in 0 127 b = true ->
  code_points (b :: r) = cons (Byte.to_N b) <$> code_points r.
Proof. intros Hb. cbn [code_points]. rewrite Hb. reflexivity. Qed.

(** A string of ASCII digits is its own ASCII form. *)
Lemma digits_are_ascii {py : Interpreter} (s : string) :
  all_digits s = true ->
  code_points (list_byte_of_string s) ≫= ascii_digits_and_spaces = Some s.
Proof.
  induction s as [|c s IH]; [reflexivity|].
  cbn [all_digits]. intros [Hc Hs]%andb_true_iff.
  destruct (digit_is_ascii c Hc) as (Hbyte & Hlt & Hback).
  specialize (IH Hs).
  change (list_byte_of_string (String c s))
    with (byte_of_ascii c :: list_byte_of_string s).
  rewrite (code_points_ascii _ _ Hbyte).
  destruct (code_points (list_byte_of_string s)) as [cps|]; [|discriminate IH].
  cbn in IH |- *. rewrite Hlt, IH, Hback. reflexivity.
Qed.

Lemma digit_count_digits (s : string) :
  all_digits s = true -> digit_count s = String.length s.
Proof.
  induction s as [|c s IH]; [reflexivity|].
  cbn [all_digits digit_count String.length]. intros [-> Hs]%andb_true_iff.
  rewrite (IH Hs). reflexivity.
Qed.

(** [int] of a decimal numeral that is within the limit. *)
Lemma int_of_str_numeral {py : Interpreter} (s : string) :
  is_numeral s = true ->
  within_digit_limit (String.length s) = true ->
  int_of_str s = Some (numeral_value s 0).
Proof.
  intros Hnum Hlimit. pose proof Hnum as Hnum'.
  unfold is_numeral in Hnum'. apply andb_true_iff in Hnum' as [_ Hdigits].
  unfold int_of_str. rewrite (digits_are_ascii s Hdigits). cbn [mbind option_bind].
  rewrite (digit_count_digits s Hdigits), Hlimit.
  apply int_literal_numeral, Hnum.
Qed.

Example numeral_6543 : numeral_value "6543" 0 = 6543.
Proof. reflexivity. Qed.

(** [int] on some strings, under the interpreter of the examples:
    white space and underscores, a fraction, the Arabic-Indic digit
    six (U+0666), a no-break space (U+00A0) before a digit, and a
    numeral one digit over the limit. *)
Example int_of_str_forms :
  int_of_str (py := cpython) " 6543 " = Some 6543 /\
  int_of_str (py := cpython) "-1_000" = Some (-1000) /\
  int_of_str (py := cpython) "5432.0" = None /\
  int_of_str (py := cpython) "54 32" = None /\
  int_of_str (py := cpython) (String "217" (String "166" "")) = Some 6 /\
  int_of_str (py := cpython) (String "194" (String "160" "7")) = Some 7 /\
  is_Some (int_of_str (py := cpython) (string_of_list_ascii (repeat "9"%char 4300))) /\
  int_of_str (py := cpython) (string_of_list_ascii (repeat "9"%char 4301)) = None.
Proof.
  repeat split; try (vm_compute; reflexivity).
  vm_compute. eexists. reflexivity.
Qed.

(** ** [load_config] *)

Lemma overrides_convert {py : Interpreter} (env : gmap string string) :
  (forall sv, getenv_truthy env "POSTGRES_PORT" = Some sv -> is_Some (int_of_str sv)) ->
  Forall (fun o => forall sv, getenv_truthy env (ov_var o) = Some sv ->
                              returns (ov_conv o sv)) ENV_OVERRIDES.
Proof.
  intros Hport. unfold ENV_OVERRIDES.
  repeat first [apply Forall_nil_2 | apply Forall_cons_2];
    cbn [ov_var ov_conv]; intros sv Hsv;
    try (eexists; reflexivity).
  destruct (Hport sv Hsv) as [z Hz]. exists (VInt z).
  unfold as_int. rewrite Hz. reflexivity.
Qed.

(** [load_config] returns when the configuration file leaves the three
    sections the environment writes to as mappings, and the port, when
    set, reads as an integer. *)
Lemma load_config_returns {py : Interpreter} (files : gmap string json_file) (env : gmap string string)
    (config_file message_types_file : option string) :
  replaces_section (load_json files config_file) "database" = false ->
  replaces_section (load_json files config_file) "output" = false ->
  replaces_section (load_json files config_file) "logging" = false ->
  (forall sv, getenv_truthy env "POSTGRES_PORT" = Some sv -> is_Some (int_of_str sv)) ->
  returns (load_config files env config_file message_types_file).
Proof.
  intros Hdb Hout Hlog Hport. unfold load_config.
  rewrite apply_environment_table.
  apply apply_overrides_returns; [|apply overrides_convert, Hport].
  assert (Hsec : forall s,
             s <> "default_message_format" -> s <> "message_types" ->
             replaces_section (load_json files config_file) s = false ->
             section_is_dict DEFAULT_CONFIG s = true ->
             section_is_dict
               (merge_message_types
                  (merge_config_file DEFAULT_CONFIG (load_json files config_file))
                  (load_json files message_types_file)) s = true).
  { intros s Hs1 Hs2 Hkeep. apply section_grows_is_dict.
    eapply section_grows_trans.
    - apply merge_config_file_grows, Hkeep.
    - apply merge_message_types_grows; [exact Hs1|]. intros ->. congruence. }
  unfold ENV_OVERRIDES.
  repeat first [apply Forall_nil_2 | apply Forall_cons_2]; cbn [ov_section];
    apply Hsec; try discriminate; try assumption; reflexivity.
Qed.

(** C9, as it stands, fails: [int] refuses a numeral that has more
    digits than the interpreter converts.  With the default limit, a
    [POSTGRES_PORT] of 4301 nines makes [load_config] raise
    [ValueError]. *)
Lemma C9_port_over_the_digit_limit :
  let numeral := string_of_list_ascii (repeat "9"%char 4301) in
  is_numeral numeral = true /\
  load_config (py := cpython) ∅ {[ "POSTGRES_PORT" := numeral ]} None None
  = Raise ValueError.
Proof. vm_compute. split; reflexivity. Qed.

(** C9, amended: with [POSTGRES_PORT] set to a decimal numeral that is
    within the interpreter's limit on the digits of a conversion (640
    digits or fewer always are; 4300 by default), [load_config]
    returns a configuration whose [database][port] is that number, as
    an integer; with no file read and none of the nine variables set,
    it returns the built-in defaults. *)
Theorem C9_port_from_environment_and_defaults {py : Interpreter}
    (files : gmap string json_file) (env : gmap string string)
    (config_file message_types_file : option string) :
  (forall numeral : string,
      env !! "POSTGRES_PORT" = Some numeral ->
      is_numeral numeral = true ->
      within_digit_limit (String.length numeral) = true ->
      replaces_section (load_json files config_file) "database" = false ->
      replaces_section (load_json files config_file) "output" = false ->
      replaces_section (load_json files config_file) "logging" = false ->
      exists cfg,
        load_config files env config_file message_types_file = Ret cfg /\
        get_nested cfg "database" "port" = Some (VInt (numeral_value numeral 0))) /\
  (load_json files config_file = None ->
   load_json files message_types_file = None ->
   Forall (fun o => getenv_truthy env (ov_var o) = None) ENV_OVERRIDES ->
   load_config files env config_file message_types_file = Ret DEFAULT_CONFIG).
Proof.
  split.
  - intros numeral Henv Hnum Hlimit Hdb Hout Hlog.
    assert (Hset : getenv_truthy env "POSTGRES_PORT" = Some numeral).
    { unfold getenv_truthy. rewrite Henv.
      unfold is_numeral in Hnum. apply andb_true_iff in Hnum as [-> _]. reflexivity. }
    destruct (load_config_returns files env config_file message_types_file
                Hdb Hout Hlog) as [cfg Hcfg].
    { intros sv Hsv. rewrite Hset in Hsv. injection Hsv as <-.
      rewrite (int_of_str_numeral _ Hnum Hlimit). eauto. }
    exists cfg. split; [exact Hcfg|].
    unfold load_config in Hcfg. rewrite apply_environment_table in Hcfg.
    destruct (fun Hin => apply_overrides_value env ENV_OVERRIDES _ cfg
                {| ov_var := "POSTGRES_PORT"; ov_section := "database";
                   ov_key := "port"; ov_conv := as_int |} numeral
                ENV_OVERRIDES_targets_distinct Hin Hset Hcfg)
      as (v & Hconv & Hget); [right; left; reflexivity|].
    cbn [ov_conv ov_section ov_key] in Hconv, Hget.
    unfold as_int in Hconv. rewrite (int_of_str_numeral _ Hnum Hlimit) in Hconv.
    injection Hconv as <-. exact Hget.
  - intros Hcf Hmf Hunset. unfold load_config. rewrite Hcf, Hmf.
    rewrite apply_environment_table. apply apply_overrides_unset, Hunset.
Qed.

Lemma C9_witness :
  (exists cfg,
      load_config (py := cpython) ∅ {[ "POSTGRES_PORT" := "6543" ]} None None = Ret cfg /\
      get_nested cfg "database" "port" = Some (VInt 6543)) /\
  load_config (py := cpython) ∅ ∅ None None = Ret DEFAULT_CONFIG.
Proof.
  split.
  - apply (proj1 (C9_port_from_environment_and_defaults (py := cpython)
                    ∅ {[ "POSTGRES_PORT" := "6543" ]} None None) "6543");
      reflexivity.
  - apply (proj2 (C9_port_from_environment_and_defaults (py := cpython) ∅ ∅ None None));
      try reflexivity.
    repeat constructor.
Defined.

(** C2, at the input where the code leaves the claim: a message types
    file with its own [message_types] table.  The branch that reads it
    assigns the table where its comment says it merges, so the default
    entry [Poll], which neither file nor the environment mentions, is
    no longer in the result.  The branch for the configuration file,
    given the same table, merges: [Poll] is kept there. *)
Lemma C2_default_message_type_lost {py : Interpreter} :
  let table := VDict [("message_types", VDict [("Custom/Type", VStr "***Custom***")])] in
  get_nested DEFAULT_CONFIG "message_types" "Poll" = Some (VStr "***Created a poll***") /\
  (exists cfg,
      load_config {[ "config.json" := Loaded (VDict []); "types.json" := Loaded table ]}
        ∅ (Some "config.json") (Some "types.json") = Ret cfg /\
      get_nested cfg "message_types" "Custom/Type" = Some (VStr "***Custom***") /\
      get_nested cfg "message_types" "Poll" = None) /\
  (exists cfg,
      load_config {[ "config.json" := Loaded table ]} ∅ (Some "config.json") None
      = Ret cfg /\
      get_nested cfg "message_types" "Custom/Type" = Some (VStr "***Custom***") /\
      get_nested cfg "message_types" "Poll" = Some (VStr "***Created a poll***")).
Proof.
  split; [reflexivity|].
  split; eexists; (split; [|split]); reflexivity.
Qed.

(** X22: what [load_config] keeps and what wins.  It returns when the
    configuration file leaves [database], [output] and [logging]
    mappings and the port, if set, reads as an integer.  In the
    configuration it returns, every top-level key of [DEFAULT_CONFIG]
    is present; an entry of a default section is present when the
    configuration file does not put a value that is not a mapping in
    place of the section and, for [message_types], the message types
    file has no [message_types] key; and every variable that is set
    and not empty has its converted value at its section and key,
    whatever the files hold. *)
Theorem X22_defaults_kept_environment_wins {py : Interpreter}
    (files : gmap string json_file) (env : gmap string string)
    (config_file message_types_file : option string) :
  (replaces_section (load_json files config_file) "database" = false ->
   replaces_section (load_json files config_file) "output" = false ->
   replaces_section (load_json files config_file) "logging" = false ->
   (forall sv, getenv_truthy env "POSTGRES_PORT" = Some sv -> is_Some (int_of_str sv)) ->
   returns (load_config files env config_file message_types_file)) /\
  forall cfg : list (string * value),
    load_config files env config_file message_types_file = Ret cfg ->
    (forall key, is_Some (dict_get DEFAULT_CONFIG key) -> is_Some (dict_get cfg key)) /\
    (forall section key,
        is_Some (get_nested DEFAULT_CONFIG section key) ->
        replaces_section (load_json files config_file) section = false ->
        (section = "message_types" ->
         gives_message_types (load_json files message_types_file) = false) ->
        is_Some (get_nested cfg section key)) /\
    (forall (o : override) (sv : string),
        In o ENV_OVERRIDES ->
        getenv_truthy env (ov_var o) = Some sv ->
        exists v, ov_conv o sv = Ret v /\
                  get_nested cfg (ov_section o) (ov_key o) = Some v).
Proof.
  split; [apply load_config_returns|].
  intros cfg Hcfg. unfold load_config in Hcfg.
  rewrite apply_environment_table in Hcfg.
  destruct (apply_overrides_frame _ _ _ _ Hcfg) as (_ & Hkeys & _ & Hnested & _).
  split; [|split].
  - intros key Hkey.
    apply Hkeys, merge_message_types_keeps_keys, merge_config_file_keeps_keys, Hkey.
  - intros section key Hdefault Hfile Htypes. apply Hnested.
    eapply section_grows_nested; [|exact Hdefault].
    eapply section_grows_trans.
    + apply merge_config_file_grows, Hfile.
    + apply merge_message_types_grows; [|exact Htypes].
      intros ->. destruct Hdefault as [? [=]].
  - intros o sv Hin Hset.
    exact (apply_overrides_value env ENV_OVERRIDES _ cfg o sv
             ENV_OVERRIDES_targets_distinct Hin Hset Hcfg).
Qed.

Lemma X22_witness :
  exists cfg,
    load_config (py := cpython)
      {[ "config.json" :=
           Loaded (VDict [("database", VDict [("host", VStr "db.internal");
                                              ("port", VInt 5433)])]) ]}
      {[ "POSTGRES_HOST" := "db.example.org" ]} (Some "config.json") None = Ret cfg /\
    is_Some (get_nested cfg "database" "dbname") /\
    get_nested cfg "database" "host" = Some (VStr "db.example.org").
Proof.
  pose proof (X22_defaults_kept_environment_wins (py := cpython)
           {[ "config.json" :=
                Loaded (VDict [("database", VDict [("host", VStr "db.internal");
                                                   ("port", VInt 5433)])]) ]}
           {[ "POSTGRES_HOST" := "db.example.org" ]} (Some "config.json") None)
    as [Hreturns Hcfg].
  destruct Hreturns as [cfg Hret]; try reflexivity.
  { intros sv [=]. }
  exists cfg. split; [exact Hret|].
  destruct (Hcfg cfg Hret) as (_ & Hsection & Henv). split.
  - apply Hsection; [eexists; reflexivity|reflexivity|discriminate].
  - destruct (Henv {| ov_var := "POSTGRES_HOST"; ov_section := "database";
                      ov_key := "host"; ov_conv := as_str |} "db.example.org")
      as (v & [= <-] & Hget); [left; reflexivity|reflexivity|exact Hget].
Defined.

(** ** The object store *)

Lemma value_nested_ind (P : value -> Prop) :
  P VNone ->
  (forall b, P (VBool b)) ->
  (forall z, P (VInt z)) ->
  (forall literal, P (VFloat literal)) ->
  (forall s, P (VStr s)) ->
  (forall items, Forall P items -> P (VList items)) ->
  (forall entries, Forall (fun kv => P kv.2) entries -> P (VDict entries)) ->
  forall v, P v.
Proof.
  intros HNone HBool HInt HFloat HStr HList HDict.
  fix IH 1. intros [| b | z | literal | s | items | entries].
  - exact HNone.
  - apply HBool.
  - apply HInt.
  - apply HFloat.
  - apply HStr.
  - apply HList. revert items. fix IHitems 1. intros [|x items].
    + apply Forall_nil_2.
    + apply Forall_cons_2; [apply IH|apply IHitems].
  - apply HDict. revert entries. fix IHentries 1. intros [|[k x] entries].
    + apply Forall_nil_2.
    + apply Forall_cons_2; [apply IH|apply IHentries].
Qed.

Lemma keeps_refl (h : gmap nat (list (string * hval))) : keeps h h.
Proof. intros a obj H. exact H. Qed.

Lemma keeps_trans (h1 h2 h3 : gmap nat (list (string * hval))) :
  keeps h1 h2 -> keeps h2 h3 -> keeps h1 h3.
Proof. intros H12 H23 a obj H. apply H23, H12, H. Qed.

Lemma keeps_none (h0 h : gmap nat (list (string * hval))) (a : nat) :
  keeps h0 h -> h !! a = None -> h0 !! a = None.
Proof.
  intros Hk Hnone. destruct (h0 !! a) as [obj|] eqn:E; [|reflexivity].
  rewrite (Hk a obj E) in Hnone. discriminate.
Qed.

Lemma separate_refl (h : gmap nat (list (string * hval))) : separate h h.
Proof. split; [apply keeps_refl|]. intros a obj k b Hnone Hsome. congruence. Qed.

(** A copy function that only adds objects. *)
Definition only_adds
    (copy : gmap nat (list (string * hval)) -> hval ->
            option (hval * gmap nat (list (string * hval)))) : Prop :=
  forall h x y h',
    copy h x = Some (y, h') ->
    separate h h' /\ (forall b, y = HRef b -> h !! b = None).

Lemma copy_entries_only_adds
    (copy : gmap nat (list (string * hval)) -> hval ->
            option (hval * gmap nat (list (string * hval))))
    (entries : list (string * hval)) :
  only_adds copy ->
  forall h ys h',
    copy_entries copy entries h = Some (ys, h') ->
    separate h h' /\ (forall k b, dict_get ys k = Some (HRef b) -> h !! b = None).
Proof.
  intros Hcopy. induction entries as [|[k x] entries IH]; intros h ys h'; simpl.
  - intros [= <- <-]. split; [apply separate_refl|]. intros k b [=].
  - destruct (copy h x) as [[y h1]|] eqn:Hx; [|discriminate].
    destruct (copy_entries copy entries h1) as [[ys' h2]|] eqn:Hrest; [|discriminate].
    intros [= <- <-].
    destruct (Hcopy _ _ _ _ Hx) as ((K1 & N1) & F1).
    destruct (IH _ _ _ Hrest) as ((K2 & N2) & F2).
    split; [split|].
    + eapply keeps_trans; eassumption.
    + intros a obj k' b Hnone Hsome Hget.
      destruct (h1 !! a) as [obj1|] eqn:E1.
      * rewrite (K2 a obj1 E1) in Hsome. injection Hsome as <-.
        exact (N1 a obj1 k' b Hnone E1 Hget).
      * apply (keeps_none h h1); [exact K1|].
        exact (N2 a obj k' b E1 Hsome Hget).
    + intros k' b. simpl. destruct (String.eqb k k').
      * intros [= ->]. apply F1. reflexivity.
      * intros Hget. apply (keeps_none h h1); [exact K1|]. exact (F2 k' b Hget).
Qed.

Lemma fresh_address_free (h : gmap nat (list (string * hval))) :
  h !! fresh (dom h) = None.
Proof. apply not_elem_of_dom. apply is_fresh. Qed.

(** [deepcopy] changes no object and returns a new one, which leads
    only to new ones. *)
Lemma deepcopy_only_adds (budget : nat) : only_adds (deepcopy budget).
Proof.
  induction budget as [|budget IH]; intros h x y h'.
  - destruct x; simpl; [|discriminate].
    intros [= <- <-]. split; [apply separate_refl|discriminate].
  - destruct x as [v|addr]; simpl.
    { intros [= <- <-]. split; [apply separate_refl|discriminate]. }
    destruct (h !! addr) as [obj|]; [|discriminate].
    destruct (copy_entries (deepcopy budget) obj h) as [[obj' h1]|] eqn:Hcopy;
      [|discriminate].
    intros [= <- <-].
    destruct (copy_entries_only_adds _ _ IH _ _ _ Hcopy) as ((K & N) & F).
    pose proof (fresh_address_free h1) as Hfresh.
    split; [split|].
    + intros a o Ha. rewrite lookup_insert_ne; [apply K, Ha|].
      intros <-. rewrite (K _ _ Ha) in Hfresh. discriminate.
    + intros a o k b Hnone Hsome Hget.
      destruct (decide (fresh (dom h1) = a)) as [<-|Hne].
      * rewrite lookup_insert_eq in Hsome. injection Hsome as <-.
        exact (F k b Hget).
      * rewrite lookup_insert_ne in Hsome by exact Hne.
        exact (N a o k b Hnone Hsome Hget).
    + intros b [= <-]. apply (keeps_none h h1); assumption.
Qed.

(** A write to a new object keeps the old ones apart. *)
Lemma store_item_separate (h0 h : gmap nat (list (string * hval)))
    (target : nat) (key : string) (v : value) :
  h0 !! target = None ->
  separate h0 h ->
  separate h0 (store_item target key (HVal v) h).
Proof.
  intros Hnew [K N]. unfold store_item. split.
  - intros a obj Ha. rewrite lookup_alter_ne; [apply K, Ha|congruence].
  - intros a obj k b Hnone Hsome Hget.
    destruct (decide (target = a)) as [<-|Hne].
    + rewrite lookup_alter_eq in Hsome.
      destruct (h !! target) as [obj0|] eqn:E; [|discriminate].
      injection Hsome as <-. rewrite dict_get_set in Hget.
      destruct (String.eqb key k); [discriminate|].
      exact (N target obj0 k b Hnone E Hget).
    + rewrite lookup_alter_ne in Hsome by exact Hne.
      exact (N a obj k b Hnone Hsome Hget).
Qed.

Lemma deep_update_store_cons (k : string) (v : value) (rest : list (string * value))
    (target : nat) (h : gmap nat (list (string * hval))) :
  deep_update_store (VDict ((k, v) :: rest)) target h
  = deep_update_store (VDict rest) target
      (update_entry_store deep_update_store target k v h).
Proof. reflexivity. Qed.

(** [_deep_update] on a new object writes to new objects only. *)
Lemma deep_update_store_separate (h0 : gmap nat (list (string * hval)))
    (source : value) :
  forall target h,
    h0 !! target = None ->
    separate h0 h ->
    separate h0 (deep_update_store source target h).
Proof.
  induction source as [| | | | | |entries IH] using value_nested_ind;
    try (intros target h _ Hsep; exact Hsep).
  induction IH as [|[k v] entries Hv _ IHentries]; intros target h Hnew Hsep.
  - exact Hsep.
  - rewrite deep_update_store_cons. apply IHentries; [exact Hnew|].
    unfold update_entry_store.
    destruct (h !! target) as [obj|] eqn:Hobj; [|exact Hsep].
    destruct (dict_get obj k) as [[w|sub]|] eqn:Hget.
    + destruct w, v; apply store_item_separate; assumption.
    + destruct v; try (apply store_item_separate; assumption).
      apply Hv; [|exact Hsep].
      destruct Hsep as [_ N]. exact (N target obj k sub Hnew Hobj Hget).
    + destruct v; apply store_item_separate; assumption.
Qed.

Lemma merge_config_file_store_separate (h0 h : gmap nat (list (string * hval)))
    (config : nat) (loaded : option value) :
  h0 !! config = None ->
  separate h0 h ->
  separate h0 (merge_config_file_store config loaded h).
Proof.
  intros Hnew Hsep. destruct loaded as [[| | | | | |file_config]|]; try exact Hsep.
  apply deep_update_store_separate; assumption.
Qed.

Lemma merge_message_types_store_separate (h0 h : gmap nat (list (string * hval)))
    (config : nat) (loaded : option value) :
  h0 !! config = None ->
  separate h0 h ->
  separate h0 (merge_message_types_store config loaded h).
Proof.
  intros Hnew Hsep. destruct loaded as [[| | | | | |mt]|]; try exact Hsep.
  simpl.
  destruct (dict_get mt "message_types"), (dict_get mt "default_message_format");
    repeat apply store_item_separate; assumption.
Qed.

Lemma set_nested_store_separate (h0 h : gmap nat (list (string * hval)))
    (config : nat) (section key : string) (v : value) :
  h0 !! config = None ->
  separate h0 h ->
  separate h0 (snd (set_nested_store config section key v h)).
Proof.
  intros Hnew Hsep. unfold set_nested_store.
  destruct (h !! config) as [obj|] eqn:Hobj; [|exact Hsep].
  destruct (dict_get obj section) as [[w|sub]|] eqn:Hget; [| |exact Hsep].
  - destruct w; try exact Hsep. apply store_item_separate; assumption.
  - apply store_item_separate; [|exact Hsep].
    destruct Hsep as [_ N]. exact (N config obj section sub Hnew Hobj Hget).
Qed.

Lemma env_override_store_separate (h0 h : gmap nat (list (string * hval)))
    (env : gmap string string) (var section key : string)
    (conv : string -> outcome value) (config : nat) :
  h0 !! config = None ->
  separate h0 h ->
  separate h0 (snd (env_override_store env var section key conv config h)).
Proof.
  intros Hnew Hsep. unfold env_override_store.
  destruct (getenv_truthy env var) as [sv|]; [|exact Hsep].
  destruct (conv sv) as [v|e]; [|exact Hsep].
  apply set_nested_store_separate; assumption.
Qed.

Lemma and_then_preserves {S : Type} (P : S -> Prop)
    (m k : S -> outcome unit * S) (h : S) :
  (forall h, P h -> P (snd (m h))) ->
  (forall h, P h -> P (snd (k h))) ->
  P h -> P (snd (and_then m k h)).
Proof.
  intros Hm Hk Hh. unfold and_then. specialize (Hm h Hh).
  destruct (m h) as [[[]|e] h1]; simpl in *; [apply Hk, Hm|exact Hm].
Qed.

Lemma apply_environment_store_separate {py : Interpreter} (h0 h : gmap nat (list (string * hval)))
    (env : gmap string string) (config : nat) :
  h0 !! config = None ->
  separate h0 h ->
  separate h0 (snd (apply_environment_store env config h)).
Proof.
  intros Hnew. revert h. unfold apply_environment_store.
  repeat (intros h Hsep; apply (and_then_preserves (separate h0));
          [| |exact Hsep]; clear h Hsep);
    intros h Hsep; apply env_override_store_separate; assumption.
Qed.

(** From a new object only new objects are reached. *)
Lemma reach_new (h0 h : gmap nat (list (string * hval))) (a c : nat) :
  separate h0 h -> reach h a c -> h0 !! a = None -> h0 !! c = None.
Proof.
  intros [_ N]. induction 1 as [a|a b c obj k Hobj Hget _ IH]; intros Hnew.
  - exact Hnew.
  - apply IH. exact (N a obj k b Hnew Hobj Hget).
Qed.

Lemma reify_entries_ext (read read' : hval -> option value)
    (obj : list (string * hval)) (vs : list (string * value)) :
  (forall x v, read x = Some v -> read' x = Some v) ->
  reify_entries read obj = Some vs -> reify_entries read' obj = Some vs.
Proof.
  intros Hread. revert vs. induction obj as [|[k x] obj IH]; intros vs; simpl.
  - intros H. exact H.
  - destruct (read x) as [v|] eqn:Hx; [|discriminate].
    destruct (reify_entries read obj) as [vs'|]; [|discriminate].
    intros [= <-]. rewrite (Hread x v Hx), (IH vs' eq_refl). reflexivity.
Qed.

(** What could be read out of [h0] reads the same out of a store that
    keeps its objects. *)
Lemma reify_keeps (h0 h : gmap nat (list (string * hval))) (budget : nat)
    (x : hval) (v : value) :
  keeps h0 h -> reify budget h0 x = Some v -> reify budget h x = Some v.
Proof.
  intros K. revert x v. induction budget as [|budget IH]; intros [w|addr] v; simpl;
    try (intros H; exact H).
  destruct (h0 !! addr) as [obj|] eqn:Hobj; [|discriminate].
  rewrite (K addr obj Hobj).
  destruct (reify_entries (reify budget h0) obj) as [vs|] eqn:Hvs; [|discriminate].
  intros [= <-]. rewrite (reify_entries_ext _ _ _ _ IH Hvs). reflexivity.
Qed.

(** The store a call of [load_config] leaves, and the address it
    returns. *)
Lemma load_config_store_separate {py : Interpreter} (files : gmap string json_file)
    (env : gmap string string) (config_file message_types_file : option string)
    (h : gmap nat (list (string * hval))) :
  separate h (snd (load_config_store files env config_file message_types_file h)) /\
  forall config,
    fst (load_config_store files env config_file message_types_file h) = Ret config ->
    h !! config = None.
Proof.
  unfold load_config_store.
  destruct (deepcopy (S (size h)) h (HRef DEFAULT_CONFIG_ADDR)) as [[y h1]|] eqn:Hcopy;
    [|split; [apply separate_refl|discriminate]].
  destruct (deepcopy_only_adds _ _ _ _ _ Hcopy) as [Hsep Hfresh].
  destruct y as [v|config]; [split; [apply separate_refl|discriminate]|].
  specialize (Hfresh config eq_refl).
  pose proof (apply_environment_store_separate h _ env config Hfresh
                (merge_message_types_store_separate h _ config
                   (load_json files message_types_file) Hfresh
                   (merge_config_file_store_separate h _ config
                      (load_json files config_file) Hfresh Hsep))) as Hend.
  destruct (apply_environment_store env config _) as [[[]|e] h2]; simpl in *.
  - split; [exact Hend|]. intros c [= <-]. exact Hfresh.
  - split; [exact Hend|discriminate].
Qed.

(** C10: whatever its arguments and the environment, a call of
    [load_config] leaves every object that existed before it as it
    was, [DEFAULT_CONFIG] and its nested sections among them: what
    could be read at the address of [DEFAULT_CONFIG] reads the same
    afterwards, and so after any run of calls.  The configuration
    returned is a new object from which only new objects are reached,
    so a later write to it or through it changes none of the old
    ones. *)
Theorem C10_load_config_leaves_defaults {py : Interpreter}
    (files : gmap string json_file) (env : gmap string string)
    (config_file message_types_file : option string)
    (h : gmap nat (list (string * hval))) :
  let result := load_config_store files env config_file message_types_file h in
  (forall a obj, h !! a = Some obj -> snd result !! a = Some obj) /\
  (forall budget v,
      reify budget h (HRef DEFAULT_CONFIG_ADDR) = Some v ->
      reify budget (snd result) (HRef DEFAULT_CONFIG_ADDR) = Some v) /\
  (forall (calls : list call) budget v,
      reify budget h (HRef DEFAULT_CONFIG_ADDR) = Some v ->
      reify budget (load_config_calls calls h) (HRef DEFAULT_CONFIG_ADDR) = Some v) /\
  (forall config a,
      fst result = Ret config ->
      reach (snd result) config a ->
      h !! a = None /\
      forall key x budget v,
        reify budget h (HRef DEFAULT_CONFIG_ADDR) = Some v ->
        reify budget (store_item a key x (snd result)) (HRef DEFAULT_CONFIG_ADDR)
        = Some v).
Proof.
  intros result.
  destruct (load_config_store_separate files env config_file message_types_file h)
    as [[K N] Hfresh]. fold result in K, N, Hfresh.
  split; [exact K|]. split; [intros budget v; apply reify_keeps, K|].
  split.
  - intros calls. clear result K N Hfresh. revert h.
    induction calls as [|c calls IH]; intros h budget v Hv; [exact Hv|].
    simpl. apply IH.
    destruct (load_config_store_separate (call_files c) (call_env c)
                (call_config_file c) (call_message_types_file c) h) as [[K _] _].
    exact (reify_keeps _ _ _ _ _ K Hv).
  - intros config a Hret Hreach.
    assert (Ha : h !! a = None).
    { apply (reach_new h (snd result) config a); [split; assumption|exact Hreach|].
      apply Hfresh, Hret. }
    split; [exact Ha|]. intros key x budget v Hv.
    apply (reify_keeps h); [|exact Hv].
    intros b obj Hb. unfold store_item. rewrite lookup_alter_ne; [apply K, Hb|].
    congruence.
Qed.

Example module_store_holds_defaults :
  reify 2 module_store (HRef DEFAULT_CONFIG_ADDR) = Some (VDict DEFAULT_CONFIG).
Proof. reflexivity. Qed.

Lemma C10_witness :
  reify 2
    (snd (load_config_store (py := cpython)
            {[ "config.json" := Loaded (VDict [("database", VDict [("host", VStr "db")])]) ]}
            {[ "POSTGRES_PORT" := "6543" ]} (Some "config.json") None module_store))
    (HRef DEFAULT_CONFIG_ADDR)
  = Some (VDict DEFAULT_CONFIG).
Proof.
  apply (proj1 (proj2 (C10_load_config_leaves_defaults (py := cpython)
           {[ "config.json" := Loaded (VDict [("database", VDict [("host", VStr "db")])]) ]}
           {[ "POSTGRES_PORT" := "6543" ]} (Some "config.json") None module_store))).
  reflexivity.
Defined.

(** The copy is what keeps the defaults: [_deep_update] applied to
    [DEFAULT_CONFIG] itself changes the host every later reader of the
    defaults sees. *)
Example deep_update_without_copy_changes_defaults :
  option_map (fun v => match v with
                       | VDict config => get_nested config "database" "host"
                       | _ => None
                       end)
    (reify 2 (deep_update_store (VDict [("database", VDict [("host", VStr "db")])])
                DEFAULT_CONFIG_ADDR module_store)
       (HRef DEFAULT_CONFIG_ADDR))
  = Some (Some (VStr "db")).
Proof. reflexivity. Qed.

(** On the store of the module, the call returns a new object that
    reads as the configuration [load_config] computes on values. *)
Example load_config_store_agrees :
  let files : gmap string json_file :=
    {[ "config.json" :=
         Loaded (VDict [("database", VDict [("host", VStr "db"); ("ssl", VBool true)]);
                        ("output", VStr "stdout");
                        ("extra", VDict [("a", VInt 1)])]);
       "types.json" :=
         Loaded (VDict [("default_message_format", VStr "{message_type}")]) ]} in
  let env : gmap string string :=
    {[ "POSTGRES_PORT" := "6543"; "LOG_LEVEL" := "debug" ]} in
  let '(result, h) :=
    load_config_store (py := cpython) files env (Some "config.json") (Some "types.json") module_store in
  match result with
  | Ret config =>
      match load_config (py := cpython) files env (Some "config.json") (Some "types.json") with
      | Ret cfg => reify 2 h (HRef config) = Some (VDict cfg)
      | Raise _ => False
      end
  | Raise _ => False
  end.
Proof. vm_compute. reflexivity. Qed.

(** * Further properties of [file_handler.py] *)

Lemma prompt_selection_in_range {py : Interpreter} (n : nat) (stdin : list string) :
  match fst (prompt_selection n stdin) with
  | Ret i => 0 <= i < Z.of_nat n
  | Raise e => e = EOFError
  end.
Proof.
  induction stdin as [|line stdin IH]; simpl; [reflexivity|].
  destruct (int_of_str line) as [z|]; [|exact IH].
  destruct ((0 <=? z - 1) && (z - 1 <? Z.of_nat n)) eqn:E; [|exact IH].
  simpl. apply andb_true_iff in E as [E1 E2]. lia.
Qed.

Lemma selected_index_in_range {py : Interpreter} (tar_files : list string) (select_json : option Z)
    (auto_select : bool) (stdin : list string) :
  tar_files <> [] ->
  match fst (selected_index tar_files select_json auto_select stdin) with
  | Ret i => 0 <= i < Z.of_nat (List.length tar_files)
  | Raise e => e = EOFError /\ auto_select = false /\ (2 <= List.length tar_files)%nat
  end.
Proof.
  intros Hne. unfold selected_index.
  pose proof (prompt_selection_in_range (List.length tar_files) stdin) as Hprompt.
  assert (Hlen : (0 < List.length tar_files)%nat)
    by (destruct tar_files; simpl; [congruence|lia]).
  destruct (1 <? List.length tar_files)%nat eqn:Hmany; simpl; [|lia].
  apply Nat.ltb_lt in Hmany.
  assert (Hraise : match fst (prompt_selection (List.length tar_files) stdin) with
                   | Ret i => 0 <= i < Z.of_nat (List.length tar_files)
                   | Raise e => e = EOFError /\ false = false /\
                                (2 <= List.length tar_files)%nat
                   end).
  { destruct (fst (prompt_selection (List.length tar_files) stdin)); [exact Hprompt|].
    repeat split; [exact Hprompt|lia]. }
  destruct select_json as [i|].
  - destruct ((0 <=? i) && (i <? Z.of_nat (List.length tar_files))) eqn:E; simpl.
    + apply andb_true_iff in E as [E1 E2]. lia.
    + destruct auto_select; simpl; [lia|exact Hraise].
  - destruct auto_select; simpl; [lia|exact Hraise].
Qed.

(** X1: when the archive has a JSON candidate, choosing the member
    never goes out of bounds: whatever [select_json], [auto_select] and
    the lines typed, [read_tarfile] either settles on a name that is
    one of the candidates, or, in the interactive branch only, stops
    with [EOFError] when the input ends. *)
Theorem X1_selection_stays_in_bounds {py : Interpreter} (tar : list TarInfo) (select_json : option Z)
    (auto_select : bool) (stdin : list string) :
  json_candidates tar <> [] ->
  match fst (selected_name tar select_json auto_select stdin) with
  | Ret n => In n (json_candidates tar)
  | Raise e =>
      e = EOFError /\ auto_select = false /\
      (2 <= List.length (json_candidates tar))%nat
  end.
Proof.
  intros Hne. unfold selected_name.
  pose proof (selected_index_in_range (json_candidates tar) select_json auto_select
                stdin Hne) as Hsel.
  destruct (json_candidates tar) as [|n0 ns] eqn:Hcand; [congruence|].
  destruct (selected_index (n0 :: ns) select_json auto_select stdin)
    as [[i|e] stdin'] eqn:E; simpl in Hsel; cbn [fst mbind outcome_bind];
    [|exact Hsel].
  unfold nth_name.
  destruct ((n0 :: ns) !! Z.to_nat i) as [n|] eqn:Hn.
  - apply list_elem_of_In. eapply list_elem_of_lookup_2. exact Hn.
  - apply lookup_ge_None in Hn. simpl in Hn. lia.
Qed.

Lemma X1_witness :
  match fst (selected_name (py := cpython) [ {| name := "a.json"; data := Some [] |};
                             {| name := "b.json"; data := Some [] |} ]
               (Some 7) false ["zero"; "3"; "2"]) with
  | Ret n => In n ["a.json"; "b.json"]
  | Raise e => e = EOFError /\ false = false /\ (2 <= 2)%nat
  end.
Proof.
  exact (X1_selection_stays_in_bounds (py := cpython)
           [ {| name := "a.json"; data := Some [] |};
             {| name := "b.json"; data := Some [] |} ]
           (Some 7) false ["zero"; "3"; "2"] ltac:(discriminate)).
Defined.

(** X2: with two or more candidates, a [select_json] that is a valid
    index selects that candidate, whatever [auto_select], and nothing
    is read from standard input. *)
Theorem X2_select_json_in_range {py : Interpreter} (tar : list TarInfo) (i : Z) (n : string)
    (auto_select : bool) (stdin : list string) :
  (2 <= List.length (json_candidates tar))%nat ->
  0 <= i ->
  json_candidates tar !! Z.to_nat i = Some n ->
  selected_name tar (Some i) auto_select stdin = (Ret n, stdin).
Proof.
  intros Hlen Hi Hn. unfold selected_name.
  destruct (json_candidates tar) as [|n0 ns] eqn:Hcand; [simpl in Hlen; lia|].
  unfold selected_index.
  pose proof (lookup_lt_Some _ _ _ Hn) as Hlt.
  assert (Hmany : (1 <? List.length (n0 :: ns))%nat = true)
    by (apply Nat.ltb_lt; exact Hlen).
  assert (Hrange : (0 <=? i) && (i <? Z.of_nat (List.length (n0 :: ns))) = true).
  { apply andb_true_iff. split; [apply Z.leb_le; lia|apply Z.ltb_lt; lia]. }
  rewrite Hmany, Hrange. cbn [mbind outcome_bind].
  unfold nth_name. rewrite Hn. reflexivity.
Qed.

Lemma X2_witness :
  selected_name (py := cpython) [ {| name := "a.json"; data := Some [] |};
                  {| name := "notes.txt"; data := Some [] |};
                  {| name := "b.json"; data := Some [] |} ]
    (Some 1) false ["9"]
  = (Ret "b.json", ["9"]).
Proof.
  apply X2_select_json_in_range.
  - vm_compute. lia.
  - lia.
  - reflexivity.
Defined.

(** X3: an archive with exactly one JSON candidate is read without any
    choice: [select_json] and [auto_select] are ignored and standard
    input is not touched. *)
Theorem X3_single_candidate {py : Interpreter} (tar : list TarInfo) (n : string)
    (select_json : option Z) (auto_select : bool) (stdin : list string) :
  json_candidates tar = [n] ->
  selected_name tar select_json auto_select stdin = (Ret n, stdin).
Proof.
  intros Hcand. unfold selected_name. rewrite Hcand. reflexivity.
Qed.

Lemma X3_witness :
  selected_name (py := cpython) [ {| name := "notes.txt"; data := Some [] |};
                  {| name := "messages.json"; data := Some [] |} ]
    (Some 5) false []
  = (Ret "messages.json", []).
Proof. apply X3_single_candidate. reflexivity. Defined.

Lemma filter_map_name (p : string -> bool) (members : list TarInfo) :
  map name (List.filter (fun m => p (name m)) members)
  = List.filter p (map name members).
Proof.
  induction members as [|m members IH]; simpl; [reflexivity|].
  destruct (p (name m)); simpl; rewrite IH; reflexivity.
Qed.

(** X4: without a destination ([output_dir] is [None] or empty),
    [extract_tar_contents] is a listing: it asks nothing of the
    operating system or the tar library and returns what
    [list_tar_contents] returns for the same archive and pattern, the
    same exception included. *)
Theorem X4_extract_without_destination_lists
    (os_makedirs : string -> option string)
    (tar_extractall : string -> list TarInfo -> option string)
    (fs : gmap string disk_file) (tar_filename : string)
    (output_dir : option string) (file_pattern : option regex) :
  output_dir = None \/ output_dir = Some "" ->
  extract_tar_contents os_makedirs tar_extractall fs tar_filename output_dir file_pattern
  = (list_tar_contents fs tar_filename file_pattern, []).
Proof.
  intros Hdir. unfold extract_tar_contents, list_tar_contents.
  destruct (tarfile_open fs tar_filename) as [tar|e]; simpl;
    [|destruct Hdir as [->| ->]; reflexivity].
  assert (Hnames : map name (filter_members file_pattern tar)
                   = match file_pattern with
                     | Some pattern => List.filter (re_match pattern) (getnames tar)
                     | None => getnames tar
                     end).
  { destruct file_pattern as [pattern|]; simpl; [|reflexivity].
    apply filter_map_name. }
  destruct Hdir as [->| ->]; rewrite Hnames; reflexivity.
Qed.

Lemma X4_witness :
  extract_tar_contents (fun _ => Some "PermissionError") (fun _ _ => Some "TarError")
    {[ "export.tar" := IsTar [ {| name := "a.json"; data := Some [] |};
                               {| name := "b.txt"; data := Some [] |} ] ]}
    "export.tar" (Some "") (Some json_pattern)
  = (Ret ["a.json"], []).
Proof.
  rewrite X4_extract_without_destination_lists by (right; reflexivity).
  reflexivity.
Defined.

Lemma filter_sublist {A : Type} (p : A -> bool) (l : list A) :
  sublist (List.filter p l) l.
Proof.
  induction l as [|x l IH]; simpl; [constructor|].
  destruct (p x); [apply sublist_skip|apply sublist_cons]; exact IH.
Qed.

(** X5: [list_tar_contents] on an archive returns its member names in
    archive order: all of them without a pattern, and with a pattern
    exactly those the pattern matches, none added, none reordered. *)
Theorem X5_list_tar_contents_filters
    (fs : gmap string disk_file) (tar_filename : string) (tar : list TarInfo)
    (file_pattern : option regex) :
  fs !! tar_filename = Some (IsTar tar) ->
  exists names,
    list_tar_contents fs tar_filename file_pattern = Ret names /\
    sublist names (getnames tar) /\
    (forall n, In n names <->
               In n (getnames tar) /\
               match file_pattern with
               | Some pattern => re_match pattern n = true
               | None => True
               end) /\
    (file_pattern = None -> names = getnames tar).
Proof.
  intros Hopen. unfold list_tar_contents, tarfile_open. rewrite Hopen. simpl.
  eexists. split; [reflexivity|].
  destruct file_pattern as [pattern|].
  - split; [apply filter_sublist|]. split; [|discriminate].
    intros n. apply filter_In.
  - split; [reflexivity|]. split; [|reflexivity].
    intros n. tauto.
Qed.

Lemma X5_witness :
  exists names,
    list_tar_contents
      {[ "export.tar" := IsTar [ {| name := "b.json"; data := Some [] |};
                                 {| name := "notes.txt"; data := Some [] |};
                                 {| name := "a.json"; data := Some [] |} ] ]}
      "export.tar" (Some json_pattern) = Ret names /\
    sublist names ["b.json"; "notes.txt"; "a.json"].
Proof.
  edestruct (X5_list_tar_contents_filters
               {[ "export.tar" := IsTar [ {| name := "b.json"; data := Some [] |};
                                          {| name := "notes.txt"; data := Some [] |};
                                          {| name := "a.json"; data := Some [] |} ] ]}
               "export.tar"
               [ {| name := "b.json"; data := Some [] |};
                 {| name := "notes.txt"; data := Some [] |};
                 {| name := "a.json"; data := Some [] |} ]
               (Some json_pattern))
    as (names & Hret & Hsub & _).
  - reflexivity.
  - exists names. split; [exact Hret|exact Hsub].
Defined.

(** X6: [extract_tar_contents] calls [tar.extractall] only after the
    archive opened and [os.makedirs] made the requested, non-empty
    [output_dir], into that directory, and with exactly the members
    the pattern keeps; in every other case nothing is extracted. *)
Theorem X6_extraction_only_after_makedirs
    (os_makedirs : string -> option string)
    (tar_extractall : string -> list TarInfo -> option string)
    (fs : gmap string disk_file) (tar_filename : string)
    (output_dir : option string) (file_pattern : option regex)
    (dir : string) (members : list TarInfo) :
  In (ExtractAll dir members)
     (snd (extract_tar_contents os_makedirs tar_extractall fs tar_filename
             output_dir file_pattern)) ->
  exists tar,
    tarfile_open fs tar_filename = Ret tar /\
    output_dir = Some dir /\ str_truthy dir = true /\
    os_makedirs dir = None /\
    members = filter_members file_pattern tar /\
    snd (extract_tar_contents os_makedirs tar_extractall fs tar_filename
           output_dir file_pattern)
    = [Makedirs dir; ExtractAll dir members].
Proof.
  unfold extract_tar_contents.
  destruct (tarfile_open fs tar_filename) as [tar|e]; simpl; [|intros []].
  destruct output_dir as [[|c d]|]; simpl; try (intros []).
  destruct (os_makedirs (String c d)) eqn:Hmk; simpl.
  { intros [[=]|[]]. }
  destruct (tar_extractall (String c d) (filter_members file_pattern tar)); simpl;
    intros [[=]|[[= <- <-]|[]]]; exists tar; repeat split; assumption.
Qed.

Lemma X6_witness :
  exists tar,
    tarfile_open {[ "export.tar" := IsTar [ {| name := "a.json"; data := Some [] |} ] ]}
      "export.tar" = Ret tar /\
    Some "out" = Some "out" /\ str_truthy "out" = true /\
    (fun _ : string => @None string) "out" = None /\
    [ {| name := "a.json"; data := Some [] |} ] = filter_members None tar /\
    snd (extract_tar_contents (fun _ => None) (fun _ _ => Some "TarError")
           {[ "export.tar" := IsTar [ {| name := "a.json"; data := Some [] |} ] ]}
           "export.tar" (Some "out") None)
    = [Makedirs "out"; ExtractAll "out" [ {| name := "a.json"; data := Some [] |} ]].
Proof.
  apply (X6_extraction_only_after_makedirs (fun _ => None) (fun _ _ => Some "TarError")
           {[ "export.tar" := IsTar [ {| name := "a.json"; data := Some [] |} ] ]}
           "export.tar" (Some "out") None "out"
           [ {| name := "a.json"; data := Some [] |} ]).
  right. left. reflexivity.
Defined.

(** X7: for a member whose name is an absolute path,
    [extract_tar_contents] reports the name itself as the extracted
    path: [os.path.join] drops [output_dir], so the path returned is
    not under the destination. *)
Theorem X7_absolute_member_path_ignores_output_dir
    (os_makedirs : string -> option string)
    (tar_extractall : string -> list TarInfo -> option string)
    (fs : gmap string disk_file) (tar_filename : string) (tar : list TarInfo)
    (dir : string) (file_pattern : option regex) (m : TarInfo) (rest : string) :
  fs !! tar_filename = Some (IsTar tar) ->
  str_truthy dir = true ->
  os_makedirs dir = None ->
  tar_extractall dir (filter_members file_pattern tar) = None ->
  In m (filter_members file_pattern tar) ->
  name m = String "/" rest ->
  exists paths,
    fst (extract_tar_contents os_makedirs tar_extractall fs tar_filename
           (Some dir) file_pattern) = Ret paths /\
    In (name m) paths.
Proof.
  intros Hopen Hdir Hmk Hex Hin Habs.
  unfold extract_tar_contents, tarfile_open. rewrite Hopen.
  destruct dir as [|c d]; [discriminate|]. rewrite Hmk, Hex. simpl.
  eexists. split; [reflexivity|].
  apply in_map_iff. exists m. split; [|exact Hin].
  unfold path_join. rewrite Habs. reflexivity.
Qed.

Lemma X7_witness :
  exists paths,
    fst (extract_tar_contents (fun _ => None) (fun _ _ => None)
           {[ "export.tar" := IsTar [ {| name := "/etc/cron.d/job"; data := Some [] |} ] ]}
           "export.tar" (Some "out") None) = Ret paths /\
    In "/etc/cron.d/job" paths.
Proof.
  apply (X7_absolute_member_path_ignores_output_dir (fun _ => None) (fun _ _ => None)
           {[ "export.tar" := IsTar [ {| name := "/etc/cron.d/job"; data := Some [] |} ] ]}
           "export.tar" [ {| name := "/etc/cron.d/job"; data := Some [] |} ]
           "out" None {| name := "/etc/cron.d/job"; data := Some [] |} "etc/cron.d/job").
  - reflexivity.
  - reflexivity.
  - reflexivity.
  - reflexivity.
  - left. reflexivity.
  - reflexivity.
Defined.

(** X8: what [read_file_object] returns does not depend on where the
    stream stood: for a seekable stream the outcome (value or
    exception) is that of decoding and parsing the whole content, and
    the stream is left at its end.  Bytes that are not UTF-8 give
    [UnicodeDecodeError] without [json.loads] being consulted, a text
    stream is parsed without decoding, and a stream that cannot seek
    is left untouched. *)
Theorem X8_read_file_object_ignores_position
    (json_loads : string -> option value) (file_obj : stream) :
  (seekable file_obj = true ->
   read_file_object json_loads file_obj
   = (match content file_obj with
      | PBytes bs =>
          if utf8_valid bs then loads json_loads (string_of_list_byte bs)
          else Raise UnicodeDecodeError
      | PText s => loads json_loads s
      end,
      {| content := content file_obj;
         position := payload_length (content file_obj);
         seekable := true |})) /\
  (seekable file_obj = false ->
   read_file_object json_loads file_obj
   = (Raise (LibError "UnsupportedOperation"), file_obj)).
Proof.
  unfold read_file_object, seek_start, read_rest. split; intros ->; [|reflexivity].
  cbn [seekable content position payload_drop payload_length Nat.max].
  destruct (content file_obj) as [bs|s]; cbn [payload_drop payload_length].
  - rewrite drop_0. unfold decode_utf8.
    destruct (utf8_valid bs); reflexivity.
  - reflexivity.
Qed.

Lemma X8_witness :
  read_file_object (fun _ => Some VNone)
    {| content := PBytes [Byte.xff; Byte.x7b]; position := 1; seekable := true |}
  = (Raise UnicodeDecodeError,
     {| content := PBytes [Byte.xff; Byte.x7b]; position := 2; seekable := true |}).
Proof.
  rewrite (proj1 (X8_read_file_object_ignores_position (fun _ => Some VNone)
                    {| content := PBytes [Byte.xff; Byte.x7b]; position := 1;
                       seekable := true |}) eq_refl).
  reflexivity.
Defined.

(** * Further properties of [config.py] *)

Lemma load_config_keeps_default_entry {py : Interpreter} (files : gmap string json_file)
    (env : gmap string string) (config_file message_types_file : option string)
    (cfg : list (string * value)) (section key : string) :
  load_config files env config_file message_types_file = Ret cfg ->
  is_Some (get_nested DEFAULT_CONFIG section key) ->
  replaces_section (load_json files config_file) section = false ->
  (section = "message_types" ->
   gives_message_types (load_json files message_types_file) = false) ->
  is_Some (get_nested cfg section key).
Proof.
  intros Hcfg Hdefault Hfile Htypes. unfold load_config in Hcfg.
  rewrite apply_environment_table in Hcfg.
  destruct (apply_overrides_frame _ _ _ _ Hcfg) as (_ & _ & _ & Hnested & _).
  apply Hnested. eapply section_grows_nested; [|exact Hdefault].
  eapply section_grows_trans.
  - apply merge_config_file_grows, Hfile.
  - apply merge_message_types_grows; [|exact Htypes].
    intros ->. destruct Hdefault as [? [=]].
Qed.

Lemma get_db_config_of_entries (cfg : list (string * value))
    (host port dbname user password : value) :
  get_nested cfg "database" "host" = Some host ->
  get_nested cfg "database" "port" = Some port ->
  get_nested cfg "database" "dbname" = Some dbname ->
  get_nested cfg "database" "user" = Some user ->
  get_nested cfg "database" "password" = Some password ->
  get_db_config (VDict cfg)
  = Ret (VDict [ ("host", host); ("port", port); ("dbname", dbname);
                 ("user", user); ("password", password) ]).
Proof.
  unfold get_nested, get_db_config, subscript.
  destruct (dict_get cfg "database") as [[| | | | | |d]|]; try discriminate.
  intros H1 H2 H3 H4 H5. cbn [mbind outcome_bind].
  rewrite H1. cbn [mbind outcome_bind]. rewrite H2. cbn [mbind outcome_bind].
  rewrite H3. cbn [mbind outcome_bind]. rewrite H4. cbn [mbind outcome_bind].
  rewrite H5. reflexivity.
Qed.

(** X9: [get_db_config] applied to what [load_config] returns does not
    raise, provided the configuration file did not put a value that is
    not a mapping in place of [database]: it returns a mapping with
    exactly the keys host, port, dbname, user and password, each with
    the value the configuration has for it; other keys the file added
    to the section are left out. *)
Theorem X9_get_db_config_of_loaded_config {py : Interpreter} (files : gmap string json_file)
    (env : gmap string string) (config_file message_types_file : option string)
    (cfg : list (string * value)) :
  load_config files env config_file message_types_file = Ret cfg ->
  replaces_section (load_json files config_file) "database" = false ->
  exists host port dbname user password,
    get_nested cfg "database" "host" = Some host /\
    get_nested cfg "database" "port" = Some port /\
    get_nested cfg "database" "dbname" = Some dbname /\
    get_nested cfg "database" "user" = Some user /\
    get_nested cfg "database" "password" = Some password /\
    get_db_config (VDict cfg)
    = Ret (VDict [ ("host", host); ("port", port); ("dbname", dbname);
                   ("user", user); ("password", password) ]).
Proof.
  intros Hcfg Hfile.
  assert (Hkey : forall key, is_Some (get_nested DEFAULT_CONFIG "database" key) ->
                             is_Some (get_nested cfg "database" key)).
  { intros key Hdefault.
    apply (load_config_keeps_default_entry _ _ _ _ _ _ _ Hcfg Hdefault Hfile).
    discriminate. }
  destruct (Hkey "host") as [host Hhost]; [eexists; reflexivity|].
  destruct (Hkey "port") as [port Hport]; [eexists; reflexivity|].
  destruct (Hkey "dbname") as [dbname Hdbname]; [eexists; reflexivity|].
  destruct (Hkey "user") as [user Huser]; [eexists; reflexivity|].
  destruct (Hkey "password") as [password Hpassword]; [eexists; reflexivity|].
  exists host, port, dbname, user, password.
  repeat (split; [assumption|]).
  apply get_db_config_of_entries; assumption.
Qed.

Lemma X9_witness :
  get_db_config
    (VDict [ ("database", VDict [ ("host", VStr "db"); ("port", VInt 6543);
                                  ("dbname", VStr "skype_archive");
                                  ("user", VStr "postgres"); ("password", VStr "");
                                  ("sslmode", VStr "require") ]);
             ("output", VDict [ ("directory", VStr "output");
                                ("overwrite", VBool false) ]);
             ("logging", VDict [ ("level", VStr "INFO"); ("file", VNone) ]);
             ("message_types", VDict DEFAULT_MESSAGE_TYPES);
             ("default_message_format", VStr DEFAULT_MESSAGE_FORMAT) ])
  = Ret (VDict [ ("host", VStr "db"); ("port", VInt 6543);
                 ("dbname", VStr "skype_archive");
                 ("user", VStr "postgres"); ("password", VStr "") ]).
Proof.
  edestruct (X9_get_db_config_of_loaded_config (py := cpython)
               ({[ "config.json" :=
                     Loaded (VDict [("database",
                                     VDict [("host", VStr "db");
                                            ("sslmode", VStr "require")])]) ]}
                : gmap string json_file)
               ({[ "POSTGRES_PORT" := "6543" ]} : gmap string string)
               (Some "config.json") None)
    as (host & port & dbname & user & password & H1 & H2 & H3 & H4 & H5 & Hdb).
  - vm_compute. reflexivity.
  - reflexivity.
  - vm_compute in H1, H2, H3, H4, H5.
    injection H1 as <-. injection H2 as <-. injection H3 as <-.
    injection H4 as <-. injection H5 as <-.
    exact Hdb.
Defined.

Lemma apply_overrides_env_ext (env env' : gmap string string) (table : list override)
    (c : list (string * value)) :
  (forall var, getenv_truthy env var = getenv_truthy env' var) ->
  apply_overrides env table c = apply_overrides env' table c.
Proof.
  intros Hext. revert c. induction table as [|o table IH]; intros c; simpl;
    [reflexivity|].
  unfold env_override. rewrite (Hext (ov_var o)).
  apply bind_ext. exact IH.
Qed.

(** X10: an environment variable set to the empty string counts as
    not set: [load_config] gives the same outcome as without it. *)
Theorem X10_empty_variable_is_unset {py : Interpreter} (files : gmap string json_file)
    (env : gmap string string) (config_file message_types_file : option string)
    (var : string) :
  load_config files (<[var := ""]> env) config_file message_types_file
  = load_config files (delete var env) config_file message_types_file.
Proof.
  unfold load_config. rewrite !apply_environment_table.
  apply apply_overrides_env_ext. intros var'. unfold getenv_truthy.
  destruct (decide (var = var')) as [<-|Hne].
  - rewrite lookup_insert_eq, lookup_delete_eq. reflexivity.
  - rewrite lookup_insert_ne, lookup_delete_ne by exact Hne. reflexivity.
Qed.

(** X11: a port that does not read as an integer is not forgiven the
    way an unreadable file is: with [POSTGRES_PORT] set to such a
    string, and the [database] section still a mapping, [load_config]
    raises [ValueError]. *)
Theorem X11_malformed_port_raises {py : Interpreter} (files : gmap string json_file)
    (env : gmap string string) (config_file message_types_file : option string)
    (port : string) :
  getenv_truthy env "POSTGRES_PORT" = Some port ->
  int_of_str port = None ->
  replaces_section (load_json files config_file) "database" = false ->
  load_config files env config_file message_types_file = Raise ValueError.
Proof.
  intros Hport Hint Hfile. unfold load_config, apply_environment.
  set (c := merge_message_types _ _).
  assert (Hdb : section_is_dict c "database" = true).
  { apply (section_grows_is_dict DEFAULT_CONFIG); [|reflexivity].
    eapply section_grows_trans.
    - apply merge_config_file_grows, Hfile.
    - apply merge_message_types_grows; [discriminate|discriminate]. }
  destruct (env_override_returns env "POSTGRES_HOST" "database" "host" as_str c Hdb)
    as [c1 H1]; [intros sv _; eexists; reflexivity|].
  rewrite H1. cbn [mbind outcome_bind].
  assert (H2 : env_override env "POSTGRES_PORT" "database" "port" as_int c1
               = Raise ValueError).
  { unfold env_override. rewrite Hport. unfold as_int. rewrite Hint. reflexivity. }
  rewrite H2. reflexivity.
Qed.

Lemma X11_witness :
  load_config (py := cpython) ∅ {[ "POSTGRES_PORT" := "54 32" ]} None None = Raise ValueError.
Proof.
  apply X11_malformed_port_raises with (port := "54 32"); reflexivity.
Defined.

Lemma update_entry_other (target : list (string * value)) (k key : string) (v : value) :
  k <> key ->
  dict_get (update_entry deep_update_from target k v) key = dict_get target key.
Proof.
  intros Hne. unfold update_entry.
  destruct (dict_get target k) as [[]|]; destruct v; apply dict_get_set_ne, Hne.
Qed.

(** Keys the source does not have keep their value. *)
Lemma deep_update_other (items target : list (string * value)) (key : string) :
  ~ In key (map fst items) ->
  dict_get (deep_update_from (VDict items) target) key = dict_get target key.
Proof.
  revert target. induction items as [|[k v] items IH]; intros target Hnot;
    [reflexivity|].
  rewrite deep_update_from_cons. simpl in Hnot.
  rewrite IH by tauto. apply update_entry_other. tauto.
Qed.

(** A value of the source that is not a mapping is stored as it is. *)
Lemma deep_update_leaf (items target : list (string * value)) (key : string) (v : value) :
  NoDup (map fst items) ->
  In (key, v) items ->
  is_dict v = false ->
  dict_get (deep_update_from (VDict items) target) key = Some v.
Proof.
  revert target. induction items as [|[k w] items IH]; intros target Hnodup Hin Hleaf;
    [destruct Hin|].
  rewrite deep_update_from_cons. simpl in Hnodup.
  apply NoDup_cons in Hnodup as [Hfresh Hnodup].
  destruct Hin as [[= -> ->]|Hin].
  - rewrite deep_update_other.
    + unfold update_entry.
      destruct (dict_get target key) as [[]|]; destruct v; try discriminate;
        apply dict_get_set_eq.
    + intros Hk. apply Hfresh. apply list_elem_of_In. exact Hk.
  - apply IH; assumption.
Qed.

(** Two mappings at the same key are merged. *)
Lemma deep_update_nested (items target sub_source sub_target : list (string * value))
    (section : string) :
  NoDup (map fst items) ->
  In (section, VDict sub_source) items ->
  dict_get target section = Some (VDict sub_target) ->
  dict_get (deep_update_from (VDict items) target) section
  = Some (VDict (deep_update_from (VDict sub_source) sub_target)).
Proof.
  revert target. induction items as [|[k w] items IH]; intros target Hnodup Hin Htarget;
    [destruct Hin|].
  rewrite deep_update_from_cons. simpl in Hnodup.
  apply NoDup_cons in Hnodup as [Hfresh Hnodup].
  destruct Hin as [[= -> ->]|Hin].
  - rewrite deep_update_other.
    + unfold update_entry. rewrite Htarget. apply dict_get_set_eq.
    + intros Hk. apply Hfresh. apply list_elem_of_In. exact Hk.
  - apply IH; [exact Hnodup|exact Hin|].
    rewrite update_entry_other; [exact Htarget|].
    intros ->. apply Hfresh. apply list_elem_of_In.
    apply in_map_iff. exists (section, VDict sub_source). split; [reflexivity|exact Hin].
Qed.

Lemma merge_message_types_other (config : list (string * value))
    (loaded : option value) (key : string) :
  key <> "default_message_format" ->
  (key = "message_types" -> gives_message_types loaded = false) ->
  dict_get (merge_message_types config loaded) key = dict_get config key.
Proof.
  intros Hfmt Htable.
  destruct loaded as [[| | | | | |mt]|]; try reflexivity.
  simpl. simpl in Htable. unfold dict_has in Htable.
  assert (Hfirst : dict_get match dict_get mt "message_types" with
                            | Some v => dict_set config "message_types" v
                            | None => config
                            end key = dict_get config key).
  { destruct (dict_get mt "message_types") as [v|] eqn:Hmt; [|reflexivity].
    apply dict_get_set_ne. intros <-.
    specialize (Htable eq_refl). apply bool_decide_eq_false in Htable.
    apply Htable. eauto. }
  destruct (dict_get mt "default_message_format"); [|exact Hfirst].
  rewrite dict_get_set_ne by congruence. exact Hfirst.
Qed.

Lemma apply_overrides_frame_unset (env : gmap string string) (table : list override)
    (c cfg : list (string * value)) (s k : string) :
  Forall (fun o => (ov_section o, ov_key o) = (s, k) ->
                   getenv_truthy env (ov_var o) = None) table ->
  apply_overrides env table c = Ret cfg ->
  get_nested cfg s k = get_nested c s k.
Proof.
  revert c. induction table as [|o table IH]; intros c Hall; simpl.
  - intros [= <-]. reflexivity.
  - destruct (env_override env (ov_var o) (ov_section o) (ov_key o) (ov_conv o) c)
      as [c1|e] eqn:H1; simpl; [|discriminate].
    intros Hrest. apply Forall_cons in Hall as [Ho Hall].
    rewrite (IH c1 Hall Hrest).
    destruct (decide ((ov_section o, ov_key o) = (s, k))) as [Heq|Hne].
    + apply env_override_inv in H1. rewrite (Ho Heq) in H1. subst c1. reflexivity.
    + destruct (env_override_frame _ _ _ _ _ _ _ H1) as (_ & _ & _ & _ & Hframe).
      apply Hframe. congruence.
Qed.

(** X12: the configuration file wins over the defaults.  When the file
    (a mapping with distinct keys) gives a default section a mapping
    that holds [key] with a value that is not itself a mapping, the
    message types file does not replace that section, and no
    environment variable for that entry is set, the configuration
    [load_config] returns holds the file's value at that entry. *)
Theorem X12_file_value_wins_over_default {py : Interpreter} (files : gmap string json_file)
    (env : gmap string string) (config_file message_types_file : option string)
    (file_config sub_file : list (string * value)) (section key : string) (v : value)
    (cfg : list (string * value)) :
  load_json files config_file = Some (VDict file_config) ->
  NoDup (map fst file_config) ->
  In (section, VDict sub_file) file_config ->
  NoDup (map fst sub_file) ->
  In (key, v) sub_file ->
  is_dict v = false ->
  section_is_dict DEFAULT_CONFIG section = true ->
  (section = "message_types" ->
   gives_message_types (load_json files message_types_file) = false) ->
  Forall (fun o => (ov_section o, ov_key o) = (section, key) ->
                   getenv_truthy env (ov_var o) = None) ENV_OVERRIDES ->
  load_config files env config_file message_types_file = Ret cfg ->
  get_nested cfg section key = Some v.
Proof.
  intros Hload Hnodup Hin Hnodup' Hin' Hleaf Hdefault Htypes Henv Hcfg.
  unfold load_config in Hcfg. rewrite apply_environment_table, Hload in Hcfg.
  rewrite (apply_overrides_frame_unset _ _ _ _ _ _ Henv Hcfg).
  apply section_is_dict_true in Hdefault as [sub_default Hsub].
  unfold get_nested. rewrite merge_message_types_other.
  - unfold merge_config_file, _deep_update.
    rewrite (deep_update_nested _ _ _ _ _ Hnodup Hin Hsub).
    apply deep_update_leaf; assumption.
  - intros ->. discriminate.
  - exact Htypes.
Qed.

Lemma X12_witness :
  get_nested
    [ ("database", VDict [ ("host", VStr "db.internal"); ("port", VInt 6543);
                           ("dbname", VStr "skype_archive");
                           ("user", VStr "postgres"); ("password", VStr "") ]);
      ("output", VDict [ ("directory", VStr "output"); ("overwrite", VBool false) ]);
      ("logging", VDict [ ("level", VStr "INFO"); ("file", VNone) ]);
      ("message_types", VDict DEFAULT_MESSAGE_TYPES);
      ("default_message_format", VStr DEFAULT_MESSAGE_FORMAT) ]
    "database" "host"
  = Some (VStr "db.internal").
Proof.
  apply (X12_file_value_wins_over_default (py := cpython)
           ({[ "config.json" :=
                 Loaded (VDict [("database", VDict [("host", VStr "db.internal")])]) ]}
            : gmap string json_file)
           ({[ "POSTGRES_PORT" := "6543" ]} : gmap string string)
           (Some "config.json") None
           [("database", VDict [("host", VStr "db.internal")])]
           [("host", VStr "db.internal")]).
  - reflexivity.
  - apply (bool_decide_unpack _). vm_compute. reflexivity.
  - left. reflexivity.
  - apply (bool_decide_unpack _). vm_compute. reflexivity.
  - left. reflexivity.
  - reflexivity.
  - reflexivity.
  - discriminate.
  - repeat first [apply Forall_nil_2 | apply Forall_cons_2];
      cbn [ov_section ov_key ov_var]; first [discriminate | intros _; reflexivity].
  - vm_compute. reflexivity.
Defined.

(** X13: the message types file wins over the configuration file, and
    it replaces rather than merges: when it is a mapping with a
    [message_types] key, the configuration [load_config] returns holds
    exactly that value under [message_types], whatever the
    configuration file and the defaults had there; the same for
    [default_message_format]. *)
Theorem X13_message_types_file_replaces {py : Interpreter} (files : gmap string json_file)
    (env : gmap string string) (config_file message_types_file : option string)
    (message_types_config : list (string * value)) (cfg : list (string * value)) :
  load_json files message_types_file = Some (VDict message_types_config) ->
  load_config files env config_file message_types_file = Ret cfg ->
  (forall table, dict_get message_types_config "message_types" = Some table ->
                 dict_get cfg "message_types" = Some table) /\
  (forall fmt, dict_get message_types_config "default_message_format" = Some fmt ->
               dict_get cfg "default_message_format" = Some fmt).
Proof.
  intros Hload Hcfg. unfold load_config in Hcfg.
  rewrite apply_environment_table, Hload in Hcfg.
  destruct (apply_overrides_frame _ _ _ _ Hcfg) as (_ & _ & Hframe & _).
  assert (Hother : forall key, key = "message_types" \/ key = "default_message_format" ->
                               Forall (fun o => ov_section o <> key) ENV_OVERRIDES).
  { intros key Hkey. unfold ENV_OVERRIDES.
    repeat first [apply Forall_nil_2 | apply Forall_cons_2]; cbn [ov_section];
      destruct Hkey as [-> | ->]; discriminate. }
  split.
  - intros table Htable. rewrite (Hframe _ (Hother _ (or_introl eq_refl))).
    unfold merge_message_types. rewrite Htable.
    destruct (dict_get message_types_config "default_message_format").
    + rewrite dict_get_set_ne by discriminate. apply dict_get_set_eq.
    + apply dict_get_set_eq.
  - intros fmt Hfmt. rewrite (Hframe _ (Hother _ (or_intror eq_refl))).
    unfold merge_message_types. rewrite Hfmt. apply dict_get_set_eq.
Qed.

Lemma X13_witness :
  exists cfg,
    load_config (py := cpython)
      {[ "config.json" :=
           Loaded (VDict [("message_types", VDict [("Poll", VStr "a poll")])]);
         "types.json" :=
           Loaded (VDict [("message_types", VDict [("Custom", VStr "custom")])]) ]}
      ∅ (Some "config.json") (Some "types.json") = Ret cfg /\
    dict_get cfg "message_types" = Some (VDict [("Custom", VStr "custom")]).
Proof.
  eexists. split; [vm_compute; reflexivity|].
  eapply (proj1 (X13_message_types_file_replaces (py := cpython)
                   ({[ "config.json" :=
                         Loaded (VDict [("message_types",
                                         VDict [("Poll", VStr "a poll")])]);
                       "types.json" :=
                         Loaded (VDict [("message_types",
                                         VDict [("Custom", VStr "custom")])]) ]}
                    : gmap string json_file)
                   (∅ : gmap string string) (Some "config.json") (Some "types.json")
                   [("message_types", VDict [("Custom", VStr "custom")])] _ _ _)).
  reflexivity.
  Unshelve.
  - reflexivity.
  - vm_compute. reflexivity.
Defined.

(** X14: a configuration without the [message_types] and
    [default_message_format] keys (the empty mapping, say) still
    describes every type: [get_message_type_description] falls back to
    an empty table and to the built-in format. *)
Theorem X14_describe_without_keys
    (format_other : string -> string -> outcome string)
    (cfg : list (string * value)) (msg_type : string) :
  dict_get cfg "message_types" = None ->
  dict_get cfg "default_message_format" = None ->
  msg_type <> "" ->
  get_message_type_description format_other (VDict cfg) (Some msg_type)
  = Ret (VStr ("***Sent a " +:+ msg_type +:+ "***")).
Proof.
  intros Htable Hformat Hne. destruct msg_type as [|c t]; [congruence|].
  unfold get_message_type_description. rewrite Htable, Hformat.
  cbn [default from_option id].
  change "***Sent a {message_type}***" with DEFAULT_MESSAGE_FORMAT.
  rewrite format_default. reflexivity.
Qed.

Lemma X14_witness :
  get_message_type_description (fun _ _ => Raise ValueError) (VDict []) (Some "Poll")
  = Ret (VStr "***Sent a Poll***").
Proof.
  apply (X14_describe_without_keys (fun _ _ => Raise ValueError) [] "Poll");
    [reflexivity|reflexivity|discriminate].
Defined.

(** * The JSON pattern of [read_tarfile] *)

Lemma append_cons (c : ascii) (s1 s2 : string) :
  String c s1 +:+ s2 = String c (s1 +:+ s2).
Proof. reflexivity. Qed.

Lemma append_empty_l (s : string) : EmptyString +:+ s = s.
Proof. reflexivity. Qed.

Lemma append_empty_r (s : string) : s +:+ EmptyString = s.
Proof. induction s as [|c s IH]; [reflexivity|]. rewrite append_cons, IH. reflexivity. Qed.

Lemma append_associative (s1 s2 s3 : string) :
  (s1 +:+ s2) +:+ s3 = s1 +:+ (s2 +:+ s3).
Proof.
  induction s1 as [|c s1 IH]; [reflexivity|].
  rewrite !append_cons, IH. reflexivity.
Qed.

Lemma append_eq_empty (s1 s2 : string) :
  s1 +:+ s2 = EmptyString -> s1 = EmptyString /\ s2 = EmptyString.
Proof. destruct s1; [intros H; split; [reflexivity|exact H]|discriminate]. Qed.

Lemma append_eq_cons (c : ascii) (s s1 s2 : string) :
  s1 +:+ s2 = String c s ->
  (s1 = EmptyString /\ s2 = String c s) \/
  (exists s1', s1 = String c s1' /\ s = s1' +:+ s2).
Proof.
  destruct s1 as [|c1 s1]; [left; split; [reflexivity|assumption]|].
  rewrite append_cons. intros [= -> <-]. right. eauto.
Qed.

Lemma lang_cat_inv (r1 r2 : regex) (s : string) :
  lang (Cat r1 r2) s -> exists s1 s2, s = s1 +:+ s2 /\ lang r1 s1 /\ lang r2 s2.
Proof. inversion 1; subst. eauto. Qed.

Lemma nullable_lang (r : regex) : nullable r = true <-> lang r EmptyString.
Proof.
  induction r as [| c | | r1 IH1 r2 IH2 | r1 IH1 r2 IH2 | r IH]; simpl.
  - split; [constructor|reflexivity].
  - split; [discriminate|inversion 1].
  - split; [discriminate|inversion 1].
  - rewrite andb_true_iff, IH1, IH2. split.
    + intros [H1 H2]. exact (lang_cat _ _ _ _ H1 H2).
    + intros (s1 & s2 & Heq & H1 & H2)%lang_cat_inv.
      symmetry in Heq. apply append_eq_empty in Heq as [-> ->]. tauto.
  - rewrite orb_true_iff, IH1, IH2. split.
    + intros [H|H]; [apply lang_alt_l|apply lang_alt_r]; exact H.
    + inversion 1; subst; tauto.
  - split; [constructor|reflexivity].
Qed.

Lemma lang_opt_alt (o1 o2 : option regex) (s : string) :
  lang_opt (alt_opt o1 o2) s <-> lang_opt o1 s \/ lang_opt o2 s.
Proof.
  destruct o1 as [r1|], o2 as [r2|]; simpl; try tauto.
  split.
  - inversion 1; subst; tauto.
  - intros [H|H]; [apply lang_alt_l|apply lang_alt_r]; exact H.
Qed.

Lemma lang_opt_cat (o : option regex) (r2 : regex) (s : string) :
  lang_opt (cat_opt o r2) s <->
  exists s1 s2, s = s1 +:+ s2 /\ lang_opt o s1 /\ lang r2 s2.
Proof.
  destruct o as [r1|]; simpl.
  - split; [apply lang_cat_inv|].
    intros (s1 & s2 & -> & H1 & H2). exact (lang_cat _ _ _ _ H1 H2).
  - split; [intros []|intros (? & ? & _ & [] & _)].
Qed.

(** A non-empty word of a star starts with a non-empty word of its body. *)
Lemma lang_star_cons_inv (r : regex) (c : ascii) (s : string) :
  lang (Star r) (String c s) ->
  exists s1 s2, s = s1 +:+ s2 /\ lang r (String c s1) /\ lang (Star r) s2.
Proof.
  intros H. remember (Star r) as r0 eqn:Hr. remember (String c s) as w eqn:Hw.
  revert c s Hw.
  induction H as [| | | | | | |r' s1 s2 H1 _ H2 IH2]; try discriminate.
  injection Hr as ->. intros c s Hw.
  apply append_eq_cons in Hw as [[-> ->]|(s1' & -> & ->)].
  - apply IH2; reflexivity.
  - exists s1', s2. auto.
Qed.

Lemma deriv_lang (r : regex) (c : ascii) (s : string) :
  lang_opt (deriv c r) s <-> lang r (String c s).
Proof.
  revert s. induction r as [| c' | | r1 IH1 r2 IH2 | r1 IH1 r2 IH2 | r IH];
    intros s; simpl.
  - split; [intros []|inversion 1].
  - destruct (Ascii.eqb c c') eqn:E; simpl.
    + apply Ascii.eqb_eq in E. subst c'. split; inversion 1; subst; constructor.
    + apply Ascii.eqb_neq in E. split; [intros []|inversion 1; congruence].
  - destruct (Ascii.eqb c newline) eqn:E; simpl.
    + apply Ascii.eqb_eq in E. split; [intros []|inversion 1; congruence].
    + apply Ascii.eqb_neq in E. split; inversion 1; subst; constructor; assumption.
  - rewrite lang_opt_alt, lang_opt_cat. split.
    + intros [(s1 & s2 & -> & H1 & H2)|H].
      * apply IH1 in H1. rewrite <- append_cons. exact (lang_cat _ _ _ _ H1 H2).
      * destruct (nullable r1) eqn:N; [|destruct H].
        apply nullable_lang in N. apply IH2 in H.
        rewrite <- (append_empty_l (String c s)). exact (lang_cat _ _ _ _ N H).
    + intros (s1 & s2 & Heq & H1 & H2)%lang_cat_inv. symmetry in Heq.
      apply append_eq_cons in Heq as [[-> ->]|(s1' & -> & ->)].
      * right. apply nullable_lang in H1. rewrite H1. apply IH2, H2.
      * left. exists s1', s2. split; [reflexivity|]. split; [apply IH1, H1|exact H2].
  - rewrite lang_opt_alt, IH1, IH2. split.
    + intros [H|H]; [apply lang_alt_l|apply lang_alt_r]; exact H.
    + inversion 1; subst; tauto.
  - rewrite lang_opt_cat. split.
    + intros (s1 & s2 & -> & H1 & H2). apply IH in H1.
      rewrite <- append_cons. exact (lang_star_cons _ _ _ H1 H2).
    + intros (s1 & s2 & -> & H1 & H2)%lang_star_cons_inv.
      exists s1, s2. split; [reflexivity|]. split; [apply IH, H1|exact H2].
Qed.

Lemma re_match_unfold (r : regex) (s : string) :
  re_match r s
  = nullable r ||
    match s with
    | EmptyString => false
    | String c s' =>
        match deriv c r with
        | Some r' => re_match r' s'
        | None => false
        end
    end.
Proof. destruct s; reflexivity. Qed.

(** [pattern.match] succeeds exactly when a prefix of the string is in
    the language of the pattern. *)
Lemma re_match_prefix (r : regex) (s : string) :
  re_match r s = true <-> exists p q, s = p +:+ q /\ lang r p.
Proof.
  revert r. induction s as [|c s IH]; intros r; rewrite re_match_unfold.
  - rewrite orb_false_r, nullable_lang. split.
    + intros H. exists EmptyString, EmptyString. split; [reflexivity|exact H].
    + intros (p & q & Heq & H). symmetry in Heq.
      apply append_eq_empty in Heq as [-> _]. exact H.
  - rewrite orb_true_iff, nullable_lang. split.
    + intros [H|H].
      * exists EmptyString, (String c s). split; [reflexivity|exact H].
      * destruct (deriv c r) as [r'|] eqn:D; [|discriminate].
        apply IH in H as (p & q & -> & H).
        exists (String c p), q. split; [reflexivity|].
        apply deriv_lang. rewrite D. exact H.
    + intros (p & q & Heq & H). symmetry in Heq.
      apply append_eq_cons in Heq as [[-> _]|(p' & -> & ->)]; [left; exact H|].
      right. apply deriv_lang in H.
      destruct (deriv c r) as [r'|]; [|destruct H].
      apply IH. exists p', q. split; [reflexivity|exact H].
Qed.

Lemma lang_lit (w s : string) : lang (lit w) s <-> s = w.
Proof.
  revert s. induction w as [|c w IH]; intros s; simpl.
  - split; [inversion 1; reflexivity|intros ->; constructor].
  - split.
    + intros (s1 & s2 & -> & H1 & H2)%lang_cat_inv.
      inversion H1; subst. apply IH in H2. subst. reflexivity.
    + intros ->. rewrite <- (append_empty_l w) at 2. rewrite <- append_cons.
      apply lang_cat; [constructor|apply IH; reflexivity].
Qed.

Lemma lang_star_dot (s : string) : lang (Star Dot) s <-> no_newline s = true.
Proof.
  split.
  - intros H. remember (Star Dot) as r eqn:Hr.
    induction H as [| | | | | | |r' s1 s2 H1 _ H2 IH2]; try discriminate;
      [reflexivity|].
    injection Hr as ->. inversion H1; subst. rewrite append_cons, append_empty_l.
    simpl. apply andb_true_iff. split; [|apply IH2; reflexivity].
    apply negb_true_iff, Ascii.eqb_neq. assumption.
  - induction s as [|c s IH]; simpl; [constructor|].
    intros [Hc Hs]%andb_true_iff.
    apply negb_true_iff, Ascii.eqb_neq in Hc.
    change (String c s) with (String c EmptyString +:+ s).
    apply lang_star_cons; [constructor; exact Hc|apply IH, Hs].
Qed.

(** X15: which member names [read_tarfile] takes for JSON files.  A
    name is a candidate exactly when it contains [.json] somewhere
    with no line feed before it: the pattern is matched from the start
    of the name and is not anchored at its end, and [.] stops at a
    line feed. *)
Theorem X15_json_candidate_names (n : string) :
  re_match json_pattern n = true <->
  exists p q, n = p +:+ ".json" +:+ q /\ no_newline p = true.
Proof.
  rewrite re_match_prefix. unfold json_pattern. split.
  - intros (w & q & -> & (p & s2 & -> & Hp & Hs2)%lang_cat_inv).
    apply lang_lit in Hs2. subst s2. apply lang_star_dot in Hp.
    exists p, q. split; [apply append_associative|exact Hp].
  - intros (p & q & -> & Hp).
    exists (p +:+ ".json"), q. split; [symmetry; apply append_associative|].
    apply lang_cat; [apply lang_star_dot, Hp|apply lang_lit; reflexivity].
Qed.

(** * The functions that take a file object *)



Lemma with_temp_copy_runs {R : Type} (tar_parse : list byte -> disk_file)
    (unlink_fails : bool) (fs : gmap string disk_file) (temp_name : string)
    (file_obj : stream) (bs : list byte)
    (body : gmap string disk_file -> R * gmap string disk_file) (raise : exn -> R) :
  seekable file_obj = true ->
  content file_obj = PBytes bs ->
  fst (with_temp_copy tar_parse unlink_fails fs temp_name file_obj body raise)
  = fst (body (<[temp_name := tar_parse bs]> fs)).
Proof.
  intros Hseek Hcontent. unfold with_temp_copy, seek_start, read_rest.
  rewrite Hseek. cbn [content position seekable]. rewrite Hcontent.
  cbn [payload_drop fst]. rewrite drop_0, insert_insert_eq.
  destruct (body _) as [result fs']. reflexivity.
Qed.



(** X17: on a seekable stream of bytes, the functions that take a
    file object do what their path counterparts do on a file holding
    all the bytes of the stream: the result does not depend on the
    position the stream was at, nor on whether the temporary file
    could be removed. *)
Theorem X17_file_object_functions_agree {py : Interpreter}
    (tar_parse : list byte -> disk_file) (unlink_fails : bool)
    (json_loads : string -> option value)
    (os_makedirs : string -> option string)
    (tar_extractall : string -> list TarInfo -> option string)
    (written : list effect -> gmap string disk_file -> gmap string disk_file)
    (fs : gmap string disk_file) (temp_name : string) (file_obj : stream)
    (bs : list byte)
    (select_json : option Z) (auto_select : bool) (stdin : list string)
    (output_dir : option string) (file_pattern : option regex) :
  seekable file_obj = true ->
  content file_obj = PBytes bs ->
  fst (read_tarfile_object tar_parse unlink_fails json_loads fs temp_name file_obj
         select_json auto_select stdin)
  = read_tarfile json_loads (<[temp_name := tar_parse bs]> fs) temp_name
      select_json auto_select stdin /\
  fst (extract_tar_object tar_parse unlink_fails os_makedirs tar_extractall written fs
         temp_name file_obj output_dir file_pattern)
  = extract_tar_contents os_makedirs tar_extractall
      (<[temp_name := tar_parse bs]> fs) temp_name output_dir file_pattern /\
  fst (list_tar_object tar_parse unlink_fails fs temp_name file_obj file_pattern)
  = list_tar_contents (<[temp_name := tar_parse bs]> fs) temp_name file_pattern.
Proof.
  intros Hseek Hcontent.
  unfold read_tarfile_object, extract_tar_object, list_tar_object.
  repeat split;
    rewrite (with_temp_copy_runs _ _ _ _ _ bs _ _ Hseek Hcontent); reflexivity.
Qed.

Lemma X17_witness :
  fst (list_tar_object
         (fun _ => IsTar [ {| name := "messages.json"; data := Some [] |} ]) true
         ∅ "/tmp/tmpk3x9"
         {| content := PBytes [Byte.x7b]; position := 5; seekable := true |}
         (Some json_pattern))
  = Ret ["messages.json"].
Proof.
  rewrite (proj2 (proj2 (X17_file_object_functions_agree (py := cpython)
             (fun _ => IsTar [ {| name := "messages.json"; data := Some [] |} ]) true
             (fun _ => None) (fun _ => None) (fun _ _ => None) (fun _ fs => fs)
             ∅ "/tmp/tmpk3x9"
             {| content := PBytes [Byte.x7b]; position := 5; seekable := true |}
             [Byte.x7b] None true [] None (Some json_pattern) eq_refl eq_refl))).
  reflexivity.
Defined.

(** * The test fixtures *)

Lemma add_files_snoc (self : MockFileReader.t) (file_data : list (string * value))
    (path : string) (data : value) :
  MockFileReader.add_files self (file_data ++ [(path, data)])
  = MockFileReader.add_file (MockFileReader.add_files self file_data) path data.
Proof. unfold MockFileReader.add_files. rewrite fold_left_app. reflexivity. Qed.

Lemma add_files_default_data (self : MockFileReader.t)
    (file_data : list (string * value)) :
  MockFileReader.default_data (MockFileReader.add_files self file_data)
  = MockFileReader.default_data self.
Proof.
  induction file_data as [|[path data] file_data IH] using rev_ind; [reflexivity|].
  rewrite add_files_snoc. exact IH.
Qed.

(** X18: a [MockFileReader] answers [read_file] and [read_tarfile]
    with the data of the latest [add_file] for that path, and with the
    default data for a path never added; [read_file_object] always
    answers with the default data.  The default data is the mapping
    given to the constructor, unless that is [None] or empty, in which
    case it is the basic fixture. *)
Theorem X18_mock_file_reader_lookup (BASIC_SKYPE_DATA : value)
    (default_data : option (list (string * value)))
    (file_data : list (string * value)) (path : string) :
  let reader :=
    MockFileReader.add_files (MockFileReader.init BASIC_SKYPE_DATA default_data)
      file_data in
  let fallback :=
    match default_data with
    | Some (entry :: entries) => VDict (entry :: entries)
    | _ => BASIC_SKYPE_DATA
    end in
  MockFileReader.read_file reader path
    = default fallback (dict_get (rev file_data) path) /\
  MockFileReader.read_tarfile reader path = MockFileReader.read_file reader path /\
  MockFileReader.read_file_object reader = fallback.
Proof.
  intros reader fallback. split; [|split; [reflexivity|]].
  - subst reader.
    induction file_data as [|[p data] file_data IH] using rev_ind; [reflexivity|].
    rewrite add_files_snoc, rev_app_distr. simpl.
    unfold MockFileReader.read_file, MockFileReader.add_file. simpl.
    destruct (String.eqb p path) eqn:E.
    + apply String.eqb_eq in E. subst p. rewrite lookup_insert_eq. reflexivity.
    + apply String.eqb_neq in E. rewrite lookup_insert_ne by exact E.
      exact IH.
  - unfold MockFileReader.read_file_object. subst reader.
    rewrite add_files_default_data. reflexivity.
Qed.

Lemma execute_all_working (self : MockDatabase.t) (queries : list string) :
  MockDatabase.should_fail self = false ->
  MockDatabase.execute_all self queries
  = (Ret tt, {| MockDatabase.should_fail := false;
                MockDatabase.executed_queries :=
                  MockDatabase.executed_queries self ++ queries |}).
Proof.
  revert self. induction queries as [|query queries IH]; intros [fails log] Hok;
    simpl in Hok; subst fails.
  - simpl. rewrite app_nil_r. reflexivity.
  - simpl. unfold MockDatabase.execute. simpl. rewrite IH by reflexivity. simpl.
    rewrite <- app_assoc. reflexivity.
Qed.

(** X19: a [MockDatabase] records every statement it is given before
    it decides to fail.  One that works runs all the statements and
    its log is the statements in order; one set to fail raises at the
    first statement, which is in the log, and the later statements are
    never attempted. *)
Theorem X19_mock_database_log (should_fail : bool) (queries : list string) :
  let run := MockDatabase.execute_all (MockDatabase.init should_fail) queries in
  (should_fail = false ->
   fst run = Ret tt /\ MockDatabase.get_executed_queries (snd run) = queries) /\
  (should_fail = true ->
   forall query rest, queries = query :: rest ->
     fst run = Raise (LibError "Exception") /\
     MockDatabase.get_executed_queries (snd run) = [query]).
Proof.
  intros run. subst run. split.
  - intros ->. rewrite execute_all_working by reflexivity. split; reflexivity.
  - intros -> query rest ->. split; reflexivity.
Qed.

Lemma X19_witness :
  MockDatabase.get_executed_queries
    (snd (MockDatabase.execute_all (MockDatabase.init true)
            ["INSERT INTO raw"; "INSERT INTO cleaned"]))
  = ["INSERT INTO raw"].
Proof.
  exact (proj2 (proj2 (X19_mock_database_log true
                         ["INSERT INTO raw"; "INSERT INTO cleaned"])
                  eq_refl "INSERT INTO raw" ["INSERT INTO cleaned"] eq_refl)).
Defined.

(** * The store and the values agree *)

Set Warnings "-clear-no-such-hyp".

Lemma repr_frame (h h' : gmap nat (list (string * hval))) (x : hval) (v : value)
    (fp : gset nat) :
  repr h x v fp -> (forall a, a ∈ fp -> h' !! a = h !! a) -> repr h' x v fp.
Proof.
  revert x v fp.
  apply (repr_mut h
           (fun x v fp => (forall a, a ∈ fp -> h' !! a = h !! a) -> repr h' x v fp)
           (fun obj es fp => (forall a, a ∈ fp -> h' !! a = h !! a) ->
                             repr_entries h' obj es fp)).
  - intros v _. constructor.
  - intros a obj es fp Hobj _ IH Hnotin Hagree. apply (repr_ref h' a obj es fp).
    + rewrite Hagree; [exact Hobj|set_solver].
    + apply IH. intros b Hb. apply Hagree. set_solver.
    + exact Hnotin.
  - intros _. constructor.
  - intros k x v obj es fp1 fp2 _ IH1 _ IH2 Hdisj Hagree. constructor.
    + apply IH1. intros b Hb. apply Hagree. set_solver.
    + apply IH2. intros b Hb. apply Hagree. set_solver.
    + exact Hdisj.
Qed.

Lemma repr_entries_frame (h h' : gmap nat (list (string * hval)))
    (obj : list (string * hval)) (es : list (string * value)) (fp : gset nat) :
  repr_entries h obj es fp -> (forall a, a ∈ fp -> h' !! a = h !! a) ->
  repr_entries h' obj es fp.
Proof.
  induction 1 as [|k x v obj es fp1 fp2 Hx _ IH Hdisj]; intros Hagree; constructor.
  - apply (repr_frame h); [exact Hx|]. intros b Hb. apply Hagree. set_solver.
  - apply IH. intros b Hb. apply Hagree. set_solver.
  - exact Hdisj.
Qed.

(** The objects of a footprint exist. *)
Lemma repr_dom (h : gmap nat (list (string * hval))) (x : hval) (v : value)
    (fp : gset nat) :
  repr h x v fp -> forall a, a ∈ fp -> is_Some (h !! a).
Proof.
  revert x v fp.
  apply (repr_mut h (fun x v fp => forall a, a ∈ fp -> is_Some (h !! a))
                    (fun obj es fp => forall a, a ∈ fp -> is_Some (h !! a))).
  - intros v a Ha. set_solver.
  - intros a obj es fp Hobj _ IH _ b Hb.
    apply elem_of_union in Hb as [Hb|Hb]; [|apply IH, Hb].
    apply elem_of_singleton in Hb. subst b. eauto.
  - intros a Ha. set_solver.
  - intros k x v obj es fp1 fp2 _ IH1 _ IH2 _ a Ha.
    apply elem_of_union in Ha as [Ha|Ha]; [apply IH1, Ha|apply IH2, Ha].
Qed.

Lemma repr_entries_dom (h : gmap nat (list (string * hval)))
    (obj : list (string * hval)) (es : list (string * value)) (fp : gset nat) :
  repr_entries h obj es fp -> forall a, a ∈ fp -> is_Some (h !! a).
Proof.
  induction 1 as [|k x v obj es fp1 fp2 Hx _ IH _]; intros a Ha; [set_solver|].
  apply elem_of_union in Ha as [Ha|Ha]; [exact (repr_dom _ _ _ _ Hx a Ha)|apply IH, Ha].
Qed.

(** An entry stands for one value only. *)
Lemma repr_det (h : gmap nat (list (string * hval))) (x : hval) (v : value)
    (fp : gset nat) :
  repr h x v fp -> forall v' fp', repr h x v' fp' -> v = v' /\ fp = fp'.
Proof.
  revert x v fp.
  apply (repr_mut h
           (fun x v fp => forall v' fp', repr h x v' fp' -> v = v' /\ fp = fp')
           (fun obj es fp => forall es' fp', repr_entries h obj es' fp' ->
                                             es = es' /\ fp = fp')).
  - intros v v' fp' H. inversion H; subst. split; reflexivity.
  - intros a obj es fp Hobj _ IH _ v' fp' H. inversion H; subst.
    match goal with
    | H1 : h !! a = Some ?o, H2 : repr_entries h ?o ?e ?f |- _ =>
        rewrite Hobj in H1; injection H1 as <-;
        destruct (IH _ _ H2) as [-> ->]
    end.
    split; reflexivity.
  - intros es' fp' H. inversion H; subst. split; reflexivity.
  - intros k x v obj es fp1 fp2 _ IH1 _ IH2 _ es' fp' H. inversion H; subst.
    match goal with
    | H1 : repr h x ?v0 ?f1, H2 : repr_entries h obj ?e ?f2 |- _ =>
        destruct (IH1 _ _ H1) as [-> ->]; destruct (IH2 _ _ H2) as [-> ->]
    end.
    split; reflexivity.
Qed.

(** The entries of an object and of the mapping it stands for go by
    the same keys. *)
Lemma repr_entries_get (h : gmap nat (list (string * hval)))
    (obj : list (string * hval)) (es : list (string * value)) (fp : gset nat)
    (k : string) :
  repr_entries h obj es fp ->
  match dict_get obj k, dict_get es k with
  | Some x, Some v => exists fp1, repr h x v fp1 /\ fp1 ⊆ fp
  | None, None => True
  | _, _ => False
  end.
Proof.
  induction 1 as [|k0 x v obj es fp1 fp2 Hx _ IH _]; simpl; [exact I|].
  destruct (String.eqb k0 k).
  - exists fp1. split; [exact Hx|set_solver].
  - destruct (dict_get obj k), (dict_get es k); try exact IH.
    destruct IH as (fp' & Hrepr & Hsub). exists fp'. split; [exact Hrepr|set_solver].
Qed.

(** Writing a value at a key, on both sides. *)
Lemma repr_entries_set (h : gmap nat (list (string * hval)))
    (obj : list (string * hval)) (es : list (string * value)) (fp : gset nat)
    (k : string) (v : value) :
  repr_entries h obj es fp ->
  exists fp', repr_entries h (dict_set obj k (HVal v)) (dict_set es k v) fp' /\ fp' ⊆ fp.
Proof.
  induction 1 as [|k0 x v0 obj es fp1 fp2 Hx Hrest IH Hdisj]; simpl.
  - exists (∅ ∪ ∅). split; [|set_solver].
    apply repr_cons; [constructor|constructor|set_solver].
  - destruct (String.eqb k0 k).
    + exists (∅ ∪ fp2). split; [|set_solver].
      apply repr_cons; [constructor|exact Hrest|set_solver].
    + destruct IH as (fp2' & Hrest' & Hsub).
      exists (fp1 ∪ fp2'). split; [|set_solver].
      apply repr_cons; [exact Hx|exact Hrest'|set_solver].
Qed.

(** The entry at a key changed in place, in a store that differs from
    the old one inside the footprint of that entry only. *)
Lemma repr_entries_update (h h' : gmap nat (list (string * hval)))
    (obj : list (string * hval)) (es : list (string * value)) (fp : gset nat)
    (k : string) (x : hval) (v' : value) :
  repr_entries h obj es fp ->
  dict_get obj k = Some x ->
  (forall v fp1, repr h x v fp1 -> fp1 ⊆ fp ->
     exists fp1', repr h' x v' fp1' /\ fp1' ⊆ fp1 /\
                  forall a, a ∉ fp1 -> h' !! a = h !! a) ->
  exists fp', repr_entries h' obj (dict_set es k v') fp' /\ fp' ⊆ fp /\
              forall a, a ∉ fp -> h' !! a = h !! a.
Proof.
  induction 1 as [|k0 x0 v0 obj es fp1 fp2 Hx Hrest IH Hdisj]; simpl; [discriminate|].
  destruct (String.eqb k0 k).
  - intros [= ->] Hstep.
    destruct (Hstep v0 fp1 Hx) as (fp1' & Hx' & Hsub & Hagree); [set_solver|].
    exists (fp1' ∪ fp2). split; [|split; [set_solver|]].
    + apply repr_cons; [exact Hx'| |set_solver].
      apply (repr_entries_frame h); [exact Hrest|].
      intros a Ha. apply Hagree. set_solver.
    + intros a Ha. apply Hagree. set_solver.
  - intros Hget Hstep.
    destruct (IH Hget) as (fp2' & Hrest' & Hsub & Hagree).
    { intros v fpx Hv Hfpx. apply (Hstep v fpx Hv). set_solver. }
    exists (fp1 ∪ fp2'). split; [|split; [set_solver|]].
    + apply repr_cons; [|exact Hrest'|set_solver].
      apply (repr_frame h); [exact Hx|].
      intros a Ha. apply Hagree. set_solver.
    + intros a Ha. apply Hagree. set_solver.
Qed.

Lemma repr_ref_inv (h : gmap nat (list (string * hval))) (a : nat) (v : value)
    (fp : gset nat) :
  repr h (HRef a) v fp ->
  exists obj es fp0,
    v = VDict es /\ fp = {[a]} ∪ fp0 /\ h !! a = Some obj /\
    repr_entries h obj es fp0 /\ a ∉ fp0.
Proof. inversion 1; subst. eauto 10. Qed.

Lemma repr_val_inv (h : gmap nat (list (string * hval))) (w v : value) (fp : gset nat) :
  repr h (HVal w) v fp -> v = w /\ fp = ∅.
Proof. inversion 1; subst. split; reflexivity. Qed.

(** [target[key] = v] on an object that stands for a mapping. *)
Lemma store_item_repr (h : gmap nat (list (string * hval))) (t : nat)
    (d : list (string * value)) (fp : gset nat) (k : string) (v : value) :
  repr h (HRef t) (VDict d) fp ->
  exists fp',
    repr (store_item t k (HVal v) h) (HRef t) (VDict (dict_set d k v)) fp' /\
    fp' ⊆ fp /\
    forall a, a ∉ fp -> store_item t k (HVal v) h !! a = h !! a.
Proof.
  intros (obj & es & fp0 & [= <-] & -> & Hobj & Hes & Hnotin)%repr_ref_inv.
  destruct (repr_entries_set h obj d fp0 k v Hes) as (fp0' & Hes' & Hsub).
  exists ({[t]} ∪ fp0'). split; [|split; [set_solver|]].
  - apply (repr_ref _ t (dict_set obj k (HVal v))).
    + unfold store_item. rewrite lookup_alter_eq, Hobj. reflexivity.
    + apply (repr_entries_frame h); [exact Hes'|].
      intros a Ha. unfold store_item. apply lookup_alter_ne. set_solver.
    + set_solver.
  - intros a Ha. unfold store_item. apply lookup_alter_ne. set_solver.
Qed.

(** One turn of the loop of [_deep_update], on the store and on values. *)
Lemma update_entry_store_repr (h : gmap nat (list (string * hval))) (t : nat)
    (d : list (string * value)) (fp : gset nat) (k : string) (v : value) :
  (forall sub h0 d0 fp0,
      repr h0 (HRef sub) (VDict d0) fp0 ->
      exists fp',
        repr (deep_update_store v sub h0) (HRef sub)
             (VDict (deep_update_from v d0)) fp' /\
        fp' ⊆ fp0 /\
        forall a, a ∉ fp0 -> deep_update_store v sub h0 !! a = h0 !! a) ->
  repr h (HRef t) (VDict d) fp ->
  exists fp',
    repr (update_entry_store deep_update_store t k v h) (HRef t)
         (VDict (update_entry deep_update_from d k v)) fp' /\
    fp' ⊆ fp /\
    forall a, a ∉ fp -> update_entry_store deep_update_store t k v h !! a = h !! a.
Proof.
  intros Hrec Hrepr.
  pose proof Hrepr as (obj & es & fp0 & [= <-] & -> & Hobj & Hes & Hnotin)%repr_ref_inv.
  pose proof (repr_entries_get h obj d fp0 k Hes) as Hget.
  unfold update_entry_store, update_entry. rewrite Hobj.
  destruct (dict_get obj k) as [[w|sub]|] eqn:Hk;
    destruct (dict_get d k) as [vs|] eqn:Hd; try contradiction.
  - destruct Hget as (fp1 & (-> & ->)%repr_val_inv & _).
    destruct w, v; apply store_item_repr; exact Hrepr.
  - destruct Hget as (fp1 & Hsub & Hfp1).
    pose proof Hsub as (obj' & subd & fp1' & -> & -> & _)%repr_ref_inv.
    destruct v as [| | | | | |items]; try (apply store_item_repr; exact Hrepr).
    destruct (Hrec sub h subd _ Hsub) as (fps' & Hsub' & Hfps' & Hagree).
    destruct (repr_entries_update h (deep_update_store (VDict items) sub h) obj d fp0 k
                (HRef sub) (VDict (deep_update_from (VDict items) subd)) Hes Hk)
      as (fp0' & Hes' & Hfp0' & Hagree').
    { intros v0 fpx Hv0 _. destruct (repr_det _ _ _ _ Hsub _ _ Hv0) as [_ <-].
      exists fps'. split; [exact Hsub'|]. split; [exact Hfps'|exact Hagree]. }
    exists ({[t]} ∪ fp0'). split; [|split; [set_solver|]].
    + apply (repr_ref _ t obj); [|exact Hes'|set_solver].
      rewrite Hagree'; [exact Hobj|exact Hnotin].
    + intros a Ha. apply Hagree'. set_solver.
  - destruct v; apply store_item_repr; exact Hrepr.
Qed.

(** [_deep_update] on an object that stands for a mapping leaves it
    standing for the mapping [_deep_update] computes on values. *)
Lemma deep_update_store_repr (source : value) :
  forall t h d fp,
    repr h (HRef t) (VDict d) fp ->
    exists fp',
      repr (deep_update_store source t h) (HRef t)
           (VDict (deep_update_from source d)) fp' /\
      fp' ⊆ fp /\
      forall a, a ∉ fp -> deep_update_store source t h !! a = h !! a.
Proof.
  induction source as [| | | | | |entries IH] using value_nested_ind;
    try (intros t h d fp Hrepr; exists fp; split; [exact Hrepr|];
         split; [set_solver|reflexivity]).
  induction IH as [|[k v] entries Hv _ IHentries]; intros t h d fp Hrepr.
  - exists fp. split; [exact Hrepr|]. split; [set_solver|reflexivity].
  - rewrite deep_update_store_cons, deep_update_from_cons.
    destruct (update_entry_store_repr h t d fp k v Hv Hrepr)
      as (fp1 & Hrepr1 & Hfp1 & Hagree1).
    destruct (IHentries t _ _ _ Hrepr1) as (fp2 & Hrepr2 & Hfp2 & Hagree2).
    exists fp2. split; [exact Hrepr2|]. split; [set_solver|].
    intros a Ha. rewrite Hagree2 by set_solver. apply Hagree1, Ha.
Qed.

Lemma copy_entries_repr (h0 : gmap nat (list (string * hval)))
    (read : hval -> option value)
    (copy : gmap nat (list (string * hval)) -> hval ->
            option (hval * gmap nat (list (string * hval)))) :
  only_adds copy ->
  (forall x v h, read x = Some v -> keeps h0 h ->
     exists y h' fp, copy h x = Some (y, h') /\ repr h' y v fp /\
                     forall a, a ∈ fp -> h !! a = None) ->
  forall obj vs h,
    reify_entries read obj = Some vs -> keeps h0 h ->
    exists ys h' fp,
      copy_entries copy obj h = Some (ys, h') /\ repr_entries h' ys vs fp /\
      forall a, a ∈ fp -> h !! a = None.
Proof.
  intros Hadds Hcopy. induction obj as [|[k x] obj IH]; intros vs h; simpl.
  - intros [= <-] _. exists [], h, ∅. split; [reflexivity|].
    split; [constructor|set_solver].
  - destruct (read x) as [v|] eqn:Hx; [|discriminate].
    destruct (reify_entries read obj) as [vs'|] eqn:Hrest; [|discriminate].
    intros [= <-] Hkeeps.
    destruct (Hcopy x v h Hx Hkeeps) as (y & h1 & fp1 & Hy & Hrepr1 & Hfresh1).
    destruct (Hadds _ _ _ _ Hy) as [[K1 _] _].
    destruct (IH vs' h1 eq_refl (keeps_trans _ _ _ Hkeeps K1))
      as (ys & h2 & fp2 & Hys & Hrepr2 & Hfresh2).
    destruct (copy_entries_only_adds _ _ Hadds _ _ _ Hys) as [[K2 _] _].
    rewrite Hy, Hys. exists ((k, y) :: ys), h2, (fp1 ∪ fp2).
    split; [reflexivity|]. split.
    + apply repr_cons; [|exact Hrepr2|].
      * apply (repr_frame h1); [exact Hrepr1|].
        intros a Ha. destruct (repr_dom _ _ _ _ Hrepr1 a Ha) as [o Ho].
        rewrite Ho. apply K2, Ho.
      * intros a Ha1 Ha2. destruct (repr_dom _ _ _ _ Hrepr1 a Ha1) as [o Ho].
        rewrite (Hfresh2 a Ha2) in Ho. discriminate.
    + intros a Ha. apply elem_of_union in Ha as [Ha|Ha]; [apply Hfresh1, Ha|].
      apply (keeps_none h h1); [exact K1|apply Hfresh2, Ha].
Qed.

(** The copy stands for the value the original stood for, and is made
    of new objects, each used once. *)
Lemma deepcopy_repr (h0 : gmap nat (list (string * hval))) (n : nat) :
  forall x v m h,
    reify n h0 x = Some v -> (n <= m)%nat -> keeps h0 h ->
    exists y h' fp,
      deepcopy m h x = Some (y, h') /\ repr h' y v fp /\
      forall a, a ∈ fp -> h !! a = None.
Proof.
  induction n as [|n IH]; intros [w|addr] v m h Hreify Hle Hkeeps;
    try discriminate.
  - injection Hreify as <-. exists (HVal w), h, ∅.
    split; [destruct m; reflexivity|]. split; [constructor|set_solver].
  - injection Hreify as <-. exists (HVal w), h, ∅.
    split; [destruct m; reflexivity|]. split; [constructor|set_solver].
  - destruct m as [|m]; [lia|]. simpl in Hreify |- *.
    destruct (h0 !! addr) as [obj|] eqn:Hobj; [|discriminate].
    rewrite (Hkeeps _ _ Hobj).
    destruct (reify_entries (reify n h0) obj) as [vs|] eqn:Hvs; [|discriminate].
    injection Hreify as <-.
    destruct (copy_entries_repr h0 (reify n h0) (deepcopy m) (deepcopy_only_adds m))
      with (obj := obj) (vs := vs) (h := h)
      as (ys & h1 & fp & Hys & Hrepr & Hfresh); [|exact Hvs|exact Hkeeps|].
    { intros x v h' Hx Hk. apply IH; [exact Hx|lia|exact Hk]. }
    destruct (copy_entries_only_adds _ _ (deepcopy_only_adds m) _ _ _ Hys)
      as [[K _] _].
    rewrite Hys. pose proof (fresh_address_free h1) as Hnew.
    exists (HRef (fresh (dom h1))), (<[fresh (dom h1) := ys]> h1),
           ({[fresh (dom h1)]} ∪ fp).
    split; [reflexivity|].
    assert (Hnotin : fresh (dom h1) ∉ fp).
    { intros Hin. destruct (repr_entries_dom _ _ _ _ Hrepr _ Hin) as [o Ho].
      rewrite Hnew in Ho. discriminate. }
    split.
    + apply (repr_ref _ _ ys); [apply lookup_insert_eq| |exact Hnotin].
      apply (repr_entries_frame h1); [exact Hrepr|].
      intros a Ha. apply lookup_insert_ne. intros <-. exact (Hnotin Ha).
    + intros a Ha. apply elem_of_union in Ha as [Ha|Ha]; [|apply Hfresh, Ha].
      apply elem_of_singleton in Ha. subst a.
      apply (keeps_none h h1); [exact K|exact Hnew].
Qed.

Lemma merge_config_file_store_repr (h : gmap nat (list (string * hval))) (config : nat)
    (c : list (string * value)) (fp : gset nat) (loaded : option value) :
  repr h (HRef config) (VDict c) fp ->
  exists fp',
    repr (merge_config_file_store config loaded h) (HRef config)
         (VDict (merge_config_file c loaded)) fp' /\
    fp' ⊆ fp /\
    forall a, a ∉ fp -> merge_config_file_store config loaded h !! a = h !! a.
Proof.
  intros Hrepr.
  destruct loaded as [[| | | | | |file_config]|];
    try (exists fp; split; [exact Hrepr|]; split; [set_solver|reflexivity]).
  apply deep_update_store_repr. exact Hrepr.
Qed.

Lemma merge_message_types_store_repr (h : gmap nat (list (string * hval)))
    (config : nat) (c : list (string * value)) (fp : gset nat)
    (loaded : option value) :
  repr h (HRef config) (VDict c) fp ->
  exists fp',
    repr (merge_message_types_store config loaded h) (HRef config)
         (VDict (merge_message_types c loaded)) fp' /\
    fp' ⊆ fp /\
    forall a, a ∉ fp -> merge_message_types_store config loaded h !! a = h !! a.
Proof.
  intros Hrepr.
  destruct loaded as [[| | | | | |mt]|];
    try (exists fp; split; [exact Hrepr|]; split; [set_solver|reflexivity]).
  simpl.
  assert (Hfirst : exists fp1,
             repr match dict_get mt "message_types" with
                  | Some v => store_item config "message_types" (HVal v) h
                  | None => h
                  end (HRef config)
                  (VDict match dict_get mt "message_types" with
                         | Some v => dict_set c "message_types" v
                         | None => c
                         end) fp1 /\
             fp1 ⊆ fp /\
             forall a, a ∉ fp ->
               match dict_get mt "message_types" with
               | Some v => store_item config "message_types" (HVal v) h
               | None => h
               end !! a = h !! a).
  { destruct (dict_get mt "message_types") as [v|].
    - apply store_item_repr. exact Hrepr.
    - exists fp. split; [exact Hrepr|]. split; [set_solver|reflexivity]. }
  destruct Hfirst as (fp1 & Hrepr1 & Hfp1 & Hagree1).
  destruct (dict_get mt "default_message_format") as [v|].
  - destruct (store_item_repr _ _ _ _ "default_message_format" v Hrepr1)
      as (fp2 & Hrepr2 & Hfp2 & Hagree2).
    exists fp2. split; [exact Hrepr2|]. split; [set_solver|].
    intros a Ha. rewrite Hagree2 by set_solver. apply Hagree1, Ha.
  - exists fp1. split; [exact Hrepr1|]. split; [exact Hfp1|exact Hagree1].
Qed.

Lemma set_nested_simulates (h : gmap nat (list (string * hval))) (config : nat)
    (fp : gset nat) (c : list (string * value)) (s k : string) (v : value) :
  repr h (HRef config) (VDict c) fp ->
  simulates h config fp (set_nested c s k v) (set_nested_store config s k v h).
Proof.
  intros Hrepr.
  pose proof Hrepr as (obj & es & fp0 & [= <-] & -> & Hobj & Hes & Hnotin)%repr_ref_inv.
  pose proof (repr_entries_get h obj c fp0 s Hes) as Hget.
  unfold simulates, set_nested, set_nested_store. rewrite Hobj.
  destruct (dict_get obj s) as [[w|sub]|] eqn:Hs;
    destruct (dict_get c s) as [vs|] eqn:Hc; try contradiction.
  - destruct Hget as (fp1 & (-> & ->)%repr_val_inv & _).
    destruct w as [| | | | | |d]; try (split; [reflexivity|reflexivity]).
    destruct (store_item_repr h config c _ s (VDict (dict_set d k v)) Hrepr)
      as (fp' & Hrepr' & Hfp' & Hagree).
    split; [exact Hagree|]. split; [reflexivity|]. eauto.
  - destruct Hget as (fp1 & Hsub & Hfp1).
    pose proof Hsub as (obj' & subd & fp1' & -> & -> & _)%repr_ref_inv.
    destruct (store_item_repr h sub subd _ k v Hsub) as (fps' & Hsub' & Hfps' & Hagree).
    destruct (repr_entries_update h (store_item sub k (HVal v) h) obj c fp0 s
                (HRef sub) (VDict (dict_set subd k v)) Hes Hs)
      as (fp0' & Hes' & Hfp0' & Hagree').
    { intros v0 fpx Hv0 _. destruct (repr_det _ _ _ _ Hsub _ _ Hv0) as [_ <-].
      exists fps'. split; [exact Hsub'|]. split; [exact Hfps'|exact Hagree]. }
    cbn [fst snd]. split; [intros a Ha; apply Hagree'; set_solver|].
    split; [reflexivity|].
    exists ({[config]} ∪ fp0'). split; [|set_solver].
    apply (repr_ref _ config obj); [|exact Hes'|set_solver].
    rewrite Hagree'; [exact Hobj|exact Hnotin].
  - split; reflexivity.
Qed.

Lemma env_override_simulates (h : gmap nat (list (string * hval))) (config : nat)
    (fp : gset nat) (c : list (string * value)) (env : gmap string string)
    (var s k : string) (conv : string -> outcome value) :
  repr h (HRef config) (VDict c) fp ->
  simulates h config fp (env_override env var s k conv c)
    (env_override_store env var s k conv config h).
Proof.
  intros Hrepr. unfold env_override, env_override_store.
  destruct (getenv_truthy env var) as [sv|].
  - destruct (conv sv) as [v|e]; cbn [mbind outcome_bind].
    + apply set_nested_simulates. exact Hrepr.
    + split; reflexivity.
  - split; [reflexivity|]. split; [reflexivity|].
    exists fp. split; [exact Hrepr|set_solver].
Qed.

Lemma simulates_and_then (h : gmap nat (list (string * hval))) (config : nat)
    (fp : gset nat) (m : outcome (list (string * value)))
    (k : list (string * value) -> outcome (list (string * value)))
    (m' k' : gmap nat (list (string * hval)) ->
             outcome unit * gmap nat (list (string * hval))) :
  simulates h config fp m (m' h) ->
  (forall c h1 fp1, repr h1 (HRef config) (VDict c) fp1 ->
                    simulates h1 config fp1 (k c) (k' h1)) ->
  simulates h config fp (m ≫= k) (and_then m' k' h).
Proof.
  intros [Hagree Hm] Hk. unfold and_then.
  destruct m as [c|e]; cbn [mbind outcome_bind].
  - destruct Hm as (Hret & fp1 & Hrepr & Hfp1).
    destruct (m' h) as [[[]|e] h1]; cbn [fst snd] in *; [|discriminate].
    destruct (Hk c h1 fp1 Hrepr) as [Hagree1 Hk1].
    split.
    + intros a Ha. rewrite Hagree1 by set_solver. apply Hagree, Ha.
    + destruct (k c) as [c'|e']; [|exact Hk1].
      destruct Hk1 as (Hret1 & fp2 & Hrepr2 & Hfp2).
      split; [exact Hret1|]. exists fp2. split; [exact Hrepr2|set_solver].
  - destruct (m' h) as [[[]|e'] h1]; cbn [fst snd] in *; [discriminate|].
    split; [exact Hagree|exact Hm].
Qed.

Lemma apply_environment_simulates {py : Interpreter} (h : gmap nat (list (string * hval))) (config : nat)
    (fp : gset nat) (c : list (string * value)) (env : gmap string string) :
  repr h (HRef config) (VDict c) fp ->
  simulates h config fp (apply_environment env c)
    (apply_environment_store env config h).
Proof.
  unfold apply_environment, apply_environment_store. revert h fp c.
  repeat (intros h fp c Hrepr; apply simulates_and_then;
          [apply env_override_simulates; exact Hrepr|]; clear h fp c Hrepr).
  intros h fp c Hrepr. apply env_override_simulates. exact Hrepr.
Qed.

Lemma reify_mono (h : gmap nat (list (string * hval))) (n : nat) :
  forall m x v, reify n h x = Some v -> (n <= m)%nat -> reify m h x = Some v.
Proof.
  induction n as [|n IH]; intros m [w|addr] v Hreify Hle; try discriminate;
    try (destruct m; exact Hreify).
  destruct m as [|m]; [lia|]. simpl in Hreify |- *.
  destruct (h !! addr) as [obj|]; [|discriminate].
  destruct (reify_entries (reify n h) obj) as [vs|] eqn:Hvs; [|discriminate].
  rewrite (reify_entries_ext _ (reify m h) _ _ (fun x v H => IH m x v H ltac:(lia)) Hvs).
  exact Hreify.
Qed.

(** What an entry stands for can be read out of the store. *)
Lemma repr_reify (h : gmap nat (list (string * hval))) (x : hval) (v : value)
    (fp : gset nat) :
  repr h x v fp -> exists n, reify n h x = Some v.
Proof.
  revert x v fp.
  apply (repr_mut h
           (fun x v _ => exists n, reify n h x = Some v)
           (fun obj es _ => exists n, reify_entries (reify n h) obj = Some es)).
  - intros v. exists O. reflexivity.
  - intros a obj es fp Hobj _ [n Hn] _. exists (S n). simpl.
    rewrite Hobj, Hn. reflexivity.
  - exists O. reflexivity.
  - intros k x v obj es fp1 fp2 _ [n1 Hx] _ [n2 Hobj] _. exists (Nat.max n1 n2).
    simpl.
    rewrite (reify_mono h n1 (Nat.max n1 n2) x v Hx (Nat.le_max_l n1 n2)).
    rewrite (reify_entries_ext _ (reify (Nat.max n1 n2) h) _ _
               (fun y w H => reify_mono h n2 _ y w H (Nat.le_max_r n1 n2)) Hobj).
    reflexivity.
Qed.

(** X20: the run of [load_config] on the object store, mutating the
    copy in place, computes what [load_config] on values computes.
    From a store whose [DEFAULT_CONFIG] holds the defaults, both raise
    the same exception, or the store run returns the address of an
    object that stands for the configuration the value run returns. *)
Theorem X20_store_run_computes_load_config {py : Interpreter}
    (files : gmap string json_file) (env : gmap string string)
    (config_file message_types_file : option string)
    (h : gmap nat (list (string * hval))) :
  reify 2 h (HRef DEFAULT_CONFIG_ADDR) = Some (VDict DEFAULT_CONFIG) ->
  let result := load_config_store files env config_file message_types_file h in
  match load_config files env config_file message_types_file with
  | Ret cfg =>
      exists config budget,
        fst result = Ret config /\
        reify budget (snd result) (HRef config) = Some (VDict cfg)
  | Raise e => fst result = Raise e
  end.
Proof.
  intros Hdefaults.
  assert (Hsize : (2 <= S (size h))%nat).
  { destruct (h !! DEFAULT_CONFIG_ADDR) as [obj|] eqn:Hobj.
    - pose proof (map_size_ne_0_lookup_2 h DEFAULT_CONFIG_ADDR (mk_is_Some _ _ Hobj)). lia.
    - cbn [reify] in Hdefaults. rewrite Hobj in Hdefaults. discriminate. }
  destruct (deepcopy_repr h 2 (HRef DEFAULT_CONFIG_ADDR) (VDict DEFAULT_CONFIG)
              (S (size h)) h Hdefaults Hsize (keeps_refl h))
    as (y & h1 & fp & Hcopy & Hrepr & _).
  cbv zeta. unfold load_config_store, load_config. rewrite Hcopy.
  destruct y as [w|config].
  { cbn [deepcopy] in Hcopy. destruct (h !! DEFAULT_CONFIG_ADDR); [|discriminate].
    destruct (copy_entries _ _ _) as [[? ?]|]; discriminate. }
  destruct (merge_config_file_store_repr h1 config _ fp (load_json files config_file) Hrepr)
    as (fp1 & Hrepr1 & _ & _).
  destruct (merge_message_types_store_repr _ config _ fp1
              (load_json files message_types_file) Hrepr1)
    as (fp2 & Hrepr2 & _ & _).
  destruct (apply_environment_simulates _ config fp2 _ env Hrepr2) as [_ Hsim].
  destruct (apply_environment env _) as [cfg|e].
  - destruct Hsim as (Hret & fp3 & Hrepr3 & _).
    destruct (apply_environment_store env config _) as [[[]|e] h3];
      cbn [fst snd] in *; [|discriminate].
    destruct (repr_reify _ _ _ _ Hrepr3) as [budget Hbudget].
    exists config, budget. split; [reflexivity|exact Hbudget].
  - destruct (apply_environment_store env config _) as [[[]|e'] h3];
      cbn [fst snd] in *; [discriminate|].
    injection Hsim as ->. reflexivity.
Qed.

Lemma X20_witness :
  let files : gmap string json_file :=
    {[ "config.json" :=
         Loaded (VDict [("database", VDict [("host", VStr "db"); ("ssl", VBool true)]);
                        ("output", VStr "stdout")]) ]} in
  let env : gmap string string := {[ "POSTGRES_PORT" := "6543" ]} in
  reify 2 module_store (HRef DEFAULT_CONFIG_ADDR) = Some (VDict DEFAULT_CONFIG) /\
  let result := load_config_store (py := cpython) files env (Some "config.json") None module_store in
  match load_config (py := cpython) files env (Some "config.json") None with
  | Ret cfg =>
      exists config budget,
        fst result = Ret config /\
        reify budget (snd result) (HRef config) = Some (VDict cfg)
  | Raise e => fst result = Raise e
  end.
Proof.
  intros files env. split; [reflexivity|].
  apply (X20_store_run_computes_load_config (py := cpython) files env (Some "config.json") None
           module_store).
  reflexivity.
Defined.

(** * The JSON members of an archive *)

(** X23: an archive none of whose member names the pattern of
    [read_tarfile] accepts makes it raise [IndexError], for every
    [select_json] and [auto_select]; nothing is read from standard
    input. *)
Theorem X23_no_candidate_raises_IndexError {py : Interpreter}
    (json_loads : string -> option value)
    (fs : gmap string disk_file) (filename : string) (tar : list TarInfo)
    (select_json : option Z) (auto_select : bool) (stdin : list string) :
  fs !! filename = Some (IsTar tar) ->
  Forall (fun m => re_match json_pattern (name m) = false) tar ->
  read_tarfile json_loads fs filename select_json auto_select stdin
  = (Raise IndexError, stdin).
Proof.
  intros Hopen Hnone.
  unfold read_tarfile, tarfile_open. rewrite Hopen.
  unfold selected_name. rewrite (json_candidates_none tar Hnone).
  reflexivity.
Qed.

Lemma X23_witness :
  read_tarfile (py := cpython) (fun _ => None)
    {[ "export.tar" := IsTar [ {| name := "readme.txt"; data := Some [] |};
                               {| name := "photos"; data := None |} ] ]}
    "export.tar" (Some 1) false ["1"]
  = (Raise IndexError, ["1"]).
Proof.
  apply (X23_no_candidate_raises_IndexError (fun _ => None) _ "export.tar"
           [ {| name := "readme.txt"; data := Some [] |};
             {| name := "photos"; data := None |} ]).
  - reflexivity.
  - repeat constructor.
Defined.








